(** * llm-ts-worker: the generic LLM worker (generic-llm-worker.ts)

    A shallow embedding of the worker's pipeline class
    [GenericLLMPipeline], of its message handlers and of the message
    listener, with the properties of the generation orchestration core
    stated and proved over it.

    Conventions of the embedding:
    - a JavaScript string is the list of its UTF-16 code units;
    - a JavaScript number is an element of an abstract type [num] with
      the arithmetic the worker uses (class [JsNumber]); nothing is
      assumed about rounding or division by zero;
    - an object used as a bag of properties (generation settings, the
      argument of [model.generate]) is a finite map from property names
      to values, and object spread is right-biased map union;
    - the tokenizer and the model runtime are external: the loaded
      objects are records of functions held by the pipeline, and the
      two clocks are given by the readings they return (class
      [Clocks]); the theorems hold for all of them;
    - the capability probe and the loading of the model are outside the
      generation core: their two handlers are left unspecified (class
      [LoadingHandlers]);
    - a handler runs to completion before the next message is taken
      (interleaving at [await] is not modelled). *)

From Stdlib Require Import QArith Qround.
From stdpp Require Import gmap strings list.

Set Default Proof Using "Type".

(** ** JavaScript strings *)

Definition jsstring := list N.

(** The code units of an ASCII literal. *)
Definition js (s : string) : jsstring :=
  (fun a => Ascii.N_of_ascii a) <$> String.list_ascii_of_string s.

(** Truthiness of a string: non-empty. *)
Definition str_truthy (s : jsstring) : bool :=
  match s with [] => false | _ :: _ => true end.

(** [strip_prefix p s] is the rest of [s] after its prefix [p], if [s]
    starts with [p]. *)
Fixpoint strip_prefix (p s : jsstring) : option jsstring :=
  match p, s with
  | [], _ => Some s
  | a :: p', b :: s' => if N.eqb a b then strip_prefix p' s' else None
  | _ :: _, [] => None
  end.

(** [String.prototype.split] with a string separator: the text is scanned
    from the left; at a position where the separator matches, the piece
    collected so far is emitted and the scan resumes after the separator.
    [fuel] bounds the scan by the length of the text. An empty separator
    splits into code units. *)
Fixpoint split_scan (fuel : nat) (sep piece s : jsstring) : list jsstring :=
  match fuel, s with
  | S f, c :: s' =>
      match strip_prefix sep s with
      | Some rest => piece :: split_scan f sep [] rest
      | None => split_scan f sep (piece ++ [c]) s'
      end
  | _, _ => [piece ++ s]
  end.

Definition split (sep s : jsstring) : list jsstring :=
  match sep with
  | [] => (fun c => [c]) <$> s
  | _ :: _ => split_scan (length s) sep [] s
  end.

(** WhiteSpace and LineTerminator code points of ECMAScript, the ones
    [String.prototype.trim] removes. *)
Definition is_white_space (c : N) : bool :=
  (N.leb 9 c && N.leb c 13)
  || N.eqb c 32 || N.eqb c 160 || N.eqb c 5760
  || (N.leb 8192 c && N.leb c 8202)
  || N.eqb c 8232 || N.eqb c 8233 || N.eqb c 8239 || N.eqb c 8287
  || N.eqb c 12288 || N.eqb c 65279.

Fixpoint trim_start (s : jsstring) : jsstring :=
  match s with
  | c :: s' => if is_white_space c then trim_start s' else s
  | [] => []
  end.

Definition trim_end (s : jsstring) : jsstring := rev (trim_start (rev s)).

Definition trim (s : jsstring) : jsstring := trim_end (trim_start s).

(** The assistant-turn marker of the chat template. *)
Definition assistant_marker : jsstring := js "assistant" ++ [10%N].

(** [decoded[0].split('assistant\n').pop()?.trim() || generatedText] *)
Definition final_text (decoded0 generatedText : jsstring) : jsstring :=
  match trim <$> last (split assistant_marker decoded0) with
  | Some t => if str_truthy t then t else generatedText
  | None => generatedText
  end.

(** *** The words of the specification: the last occurrence of a marker *)

(** [sep] occurs in [s] at index [i]. *)
Definition occurs_at (sep s : jsstring) (i : nat) : bool :=
  bool_decide (take (length sep) (drop i s) = sep).

(** The greatest index below [n] at which [sep] occurs. *)
Fixpoint last_occurrence_below (sep s : jsstring) (n : nat) : option nat :=
  match n with
  | O => None
  | S k => if occurs_at sep s k then Some k else last_occurrence_below sep s k
  end.

Definition last_occurrence (sep s : jsstring) : option nat :=
  last_occurrence_below sep s (S (length s)).

(** Everything after the last occurrence of [sep]; the whole text when
    [sep] does not occur. *)
Definition after_last_occurrence (sep s : jsstring) : jsstring :=
  match last_occurrence sep s with
  | Some i => drop (i + length sep) s
  | None => s
  end.

(** The final text in the words of the specification. *)
Definition final_text_spec (decoded0 generatedText : jsstring) : jsstring :=
  let stripped := trim (after_last_occurrence assistant_marker decoded0) in
  match stripped with
  | [] => generatedText
  | _ :: _ => stripped
  end.

(** [sep] occurs somewhere in [s]. *)
Definition occurs_in (sep s : jsstring) : Prop :=
  exists pre post, s = pre ++ sep ++ post.

(** A border of [sep] is a proper non-empty prefix that is also a suffix. *)
Definition bordered (sep : jsstring) : Prop :=
  exists u v w, u <> [] /\ v <> [] /\ sep = u ++ v /\ sep = w ++ u.

Definition border_free (sep : jsstring) : bool :=
  forallb (fun d => negb (bool_decide (drop d sep = take (length sep - d) sep)))
          (seq 1 (length sep - 1)).


(** ** JavaScript numbers, clocks and values *)

(** The arithmetic of JavaScript numbers that the worker uses: numeric
    literals, [-], [/], [*] and truthiness. *)
Class JsNumber (num : Type) := {
  num_lit : Q -> num;
  num_sub : num -> num -> num;
  num_div : num -> num -> num;
  num_mul : num -> num -> num;
  num_truthy : num -> bool
}.

(** The two clocks of the host: the k-th reading of [performance.now()]
    and the k-th reading of [Date.now()]. *)
Class Clocks (num : Type) := {
  performance_now : nat -> num;
  Date_now : nat -> num
}.

(** ** Exceptions *)

(** A thrown value: an [Error] with its message, or another value with
    the text [String(value)] gives. *)
Inductive Thrown :=
| ThrowError (message : jsstring)
| ThrowOther (as_string : jsstring).

(** [error instanceof Error ? error.message : String(error)] *)
Definition describe (error : Thrown) : jsstring :=
  match error with
  | ThrowError m => m
  | ThrowOther s => s
  end.

Inductive Outcome (A : Type) :=
| Returned (a : A)
| Threw (e : Thrown).
Arguments Returned {A} a.
Arguments Threw {A} e.

Section Worker.
Context {num : Type} {JN : JsNumber num} {CK : Clocks num}.

Definition num_of_nat (n : nat) : num := num_lit (inject_Z (Z.of_nat n)).

(** Values of type [any]: primitives, and references to the objects of
    the model runtime (tensors, caches, streamers, stopping criteria). *)
Inductive JsVal :=
| JUndefined
| JNull
| JBool (b : bool)
| JNum (n : num)
| JStr (s : jsstring)
| JRef (h : N).

Definition truthy (v : JsVal) : bool :=
  match v with
  | JUndefined | JNull => false
  | JBool b => b
  | JNum n => num_truthy n
  | JStr s => str_truthy s
  | JRef _ => true
  end.

(** Object spread [{...a, ...b}]: the properties of [b] win. *)
Definition spread (a b : gmap jsstring JsVal) : gmap jsstring JsVal := union b a.

(** [{...this.config!}] where the field may still be [null]. *)
Definition props_of (o : option (gmap jsstring JsVal)) : gmap jsstring JsVal :=
  match o with Some m => m | None => empty end.

(** ** Data model (types.ts) *)

Inductive Role := system | user | assistant.

Record Message := { role : Role; content : jsstring }.

Record ModelConfig := {
  id : jsstring;
  dtype : jsstring;
  device : jsstring;
  size : num;
  description : jsstring
}.

Record StreamData := { token : jsstring; fullText : jsstring; tokenCount : nat }.

Record TokenStats := { tokensPerSecond : num; stats_tokenCount : nat }.

Record SessionInfo := {
  messageCount : nat;
  info_createdAt : num;
  hasPastKeyValues : bool
}.

Record SessionData := {
  messages : list Message;
  pastKeyValues : JsVal;
  createdAt : num
}.

(** Options of a chat call; the two callbacks are passed separately. *)
Record ChatGenerationOptions := {
  message : jsstring;
  sessionId : option jsstring;
  systemMessage : option jsstring;
  generationConfig : option (gmap jsstring JsVal)
}.

Record SingleGenerationOptions := {
  prompt : jsstring;
  single_systemMessage : option jsstring;
  single_generationConfig : option (gmap jsstring JsVal)
}.

Record ChatGenerationResult := {
  chat_text : jsstring;
  chat_sessionId : jsstring;
  chat_messageCount : nat;
  chat_tokensPerSecond : num
}.

Record SingleGenerationResult := {
  single_text : jsstring;
  single_tokensPerSecond : num
}.

Record InternalGenerationResult := {
  text : jsstring;
  result_pastKeyValues : JsVal;
  result_tokensPerSecond : num
}.

Inductive WorkerMessageType :=
| T_check | T_initialize | T_generateChat | T_generateSingle | T_interrupt
| T_clearSession | T_getSessionInfo | T_getModels | T_error.

Inductive WorkerMessageStatus :=
| S_success | S_error | S_loading | S_progress | S_ready | S_start
| S_streaming | S_token_stats | S_complete.

(** The payloads the handlers post. *)
Inductive MessageData :=
| DataError (error : jsstring)
| DataEmpty
| DataSessionId (sessionId : jsstring)
| DataStream (d : StreamData)
| DataTokenStats (d : TokenStats)
| DataChatResult (r : ChatGenerationResult)
| DataSingleResult (r : SingleGenerationResult)
| DataNotice (message : jsstring)
| DataSessionCleared (sessionId message : jsstring)
| DataSessionInfo (sessionId : jsstring) (info : option SessionInfo)
| DataModels (models : list (jsstring * ModelConfig))
| DataOther (v : JsVal).

Record WorkerMessage := {
  type : WorkerMessageType;
  status : WorkerMessageStatus;
  data : MessageData
}.

(** The payload of an inbound request, by the option type it has. *)
Inductive RequestData :=
| NoData
| ChatRequest (options : ChatGenerationOptions)
| SingleRequest (options : SingleGenerationOptions)
| SessionRequest (sessionId : option jsstring)
| OtherRequest (v : JsVal).

Record WorkerEventData := { event_type : jsstring; event_data : RequestData }.

(** ** The external collaborators *)

(** What the streamer does while the runtime generates: one call of
    [token_callback_function] per token it is given, one call of
    [callback_function] per piece of text it finalizes. *)
Inductive StreamerCall :=
| TokenCallback
| TextCallback (output : jsstring).

Record GenerateOutput := { sequences : JsVal; past_key_values : JsVal }.

(** The loaded tokenizer. *)
Record Tokenizer := {
  apply_chat_template : list Message -> Outcome (gmap jsstring JsVal);
  batch_decode : JsVal -> Outcome (list jsstring)
}.

(** The loaded model. [generate k args] is the call number [k] of
    [model.generate] in the life of the worker (sampling and the
    runtime's own state make equal arguments give different results):
    the calls it makes to the streamer, then its result or the value it
    throws. *)
Record Model := {
  generate : nat -> gmap jsstring JsVal -> list StreamerCall * Outcome GenerateOutput
}.

(** ** State *)

(** The fields of [GenericLLMPipeline]. *)
Record Pipeline := {
  tokenizer : option Tokenizer;
  model : option Model;
  modelInfo : option ModelConfig;
  config : option (gmap jsstring JsVal);
  sessionHistory : gmap jsstring SessionData;
  currentStoppingCriteria : option N
}.

(** One entry into [_generate]: its first three arguments. *)
Record CoordinatorCall := {
  call_messages : list Message;
  call_pastKeyValues : JsVal;
  call_config : gmap jsstring JsVal
}.

(** One call of [model.generate]: its argument and how it ended. *)
Record RuntimeCall := {
  generate_args : gmap jsstring JsVal;
  generate_outcome : Outcome GenerateOutput
}.

(** What is outside the pipeline object: the messages posted to the main
    thread (oldest first), the number of readings taken from each clock,
    the record of the calls into the coordinator and into the runtime,
    the number of runtime objects constructed, and the stopping criteria
    that were interrupted. *)
Record World := {
  outbox : list WorkerMessage;
  perf_reads : nat;
  date_reads : nat;
  coordinator_calls : list CoordinatorCall;
  runtime_calls : list RuntimeCall;
  objects : N;
  interrupts : list N
}.

Record St := { world : World; pipe : Pipeline }.

(** A callback given to the pipeline: called with its argument, it posts
    the message it builds from it. *)
Definition Callback (A : Type) := A -> WorkerMessage.

(** Computations of the worker: they change the state and return or
    throw; what was changed before a throw stays changed. *)
Definition M (A : Type) := St -> St * Outcome A.

Definition ret {A} (a : A) : M A := fun st => (st, Returned a).

Definition throw {A} (e : Thrown) : M A := fun st => (st, Threw e).

Definition bind {A B} (c : M A) (k : A -> M B) : M B :=
  fun st =>
    match c st with
    | (st', Returned a) => k a st'
    | (st', Threw e) => (st', Threw e)
    end.

Notation "x <- c ;; k" := (bind c (fun x => k))
  (at level 100, c at next level, right associativity).

(** [try { body } catch (error) { handler }] *)
Definition try_catch {A} (body : M A) (handler : Thrown -> M A) : M A :=
  fun st =>
    match body st with
    | (st', Returned a) => (st', Returned a)
    | (st', Threw e) => handler e st'
    end.

Definition lift {A} (o : Outcome A) : M A := fun st => (st, o).

Definition get_pipe : M Pipeline := fun st => (st, Returned (pipe st)).

Definition get_world : M World := fun st => (st, Returned (world st)).

Definition modify_world (f : World -> World) : M unit :=
  fun st => ({| world := f (world st); pipe := pipe st |}, Returned tt).

Definition modify_pipe (f : Pipeline -> Pipeline) : M unit :=
  fun st => ({| world := world st; pipe := f (pipe st) |}, Returned tt).

(** *** Updates of single fields *)

Definition post (m : WorkerMessage) (w : World) : World :=
  {| outbox := outbox w ++ [m]; perf_reads := perf_reads w;
     date_reads := date_reads w; coordinator_calls := coordinator_calls w;
     runtime_calls := runtime_calls w; objects := objects w;
     interrupts := interrupts w |}.

Definition tick_perf (w : World) : World :=
  {| outbox := outbox w; perf_reads := S (perf_reads w);
     date_reads := date_reads w; coordinator_calls := coordinator_calls w;
     runtime_calls := runtime_calls w; objects := objects w;
     interrupts := interrupts w |}.

Definition tick_date (w : World) : World :=
  {| outbox := outbox w; perf_reads := perf_reads w;
     date_reads := S (date_reads w); coordinator_calls := coordinator_calls w;
     runtime_calls := runtime_calls w; objects := objects w;
     interrupts := interrupts w |}.

Definition record_coordinator (c : CoordinatorCall) (w : World) : World :=
  {| outbox := outbox w; perf_reads := perf_reads w;
     date_reads := date_reads w;
     coordinator_calls := coordinator_calls w ++ [c];
     runtime_calls := runtime_calls w; objects := objects w;
     interrupts := interrupts w |}.

Definition record_runtime (c : RuntimeCall) (w : World) : World :=
  {| outbox := outbox w; perf_reads := perf_reads w;
     date_reads := date_reads w; coordinator_calls := coordinator_calls w;
     runtime_calls := runtime_calls w ++ [c]; objects := objects w;
     interrupts := interrupts w |}.

Definition allocate (w : World) : World :=
  {| outbox := outbox w; perf_reads := perf_reads w;
     date_reads := date_reads w; coordinator_calls := coordinator_calls w;
     runtime_calls := runtime_calls w; objects := N.succ (objects w);
     interrupts := interrupts w |}.

Definition record_interrupt (h : N) (w : World) : World :=
  {| outbox := outbox w; perf_reads := perf_reads w;
     date_reads := date_reads w; coordinator_calls := coordinator_calls w;
     runtime_calls := runtime_calls w; objects := objects w;
     interrupts := interrupts w ++ [h] |}.

Definition set_sessionHistory (h : gmap jsstring SessionData) (p : Pipeline) : Pipeline :=
  {| tokenizer := tokenizer p; model := model p; modelInfo := modelInfo p;
     config := config p; sessionHistory := h;
     currentStoppingCriteria := currentStoppingCriteria p |}.

Definition set_currentStoppingCriteria (c : option N) (p : Pipeline) : Pipeline :=
  {| tokenizer := tokenizer p; model := model p; modelInfo := modelInfo p;
     config := config p; sessionHistory := sessionHistory p;
     currentStoppingCriteria := c |}.

(** *** Host operations *)

(** [self.postMessage(m)] *)
Definition postMessage (m : WorkerMessage) : M unit := modify_world (post m).

(** [performance.now()] on a world: the next reading of the clock. *)
Definition read_performance (w : World) : num * World :=
  (performance_now (perf_reads w), tick_perf w).

(** [Date.now()] *)
Definition read_date : M num :=
  fun st => ({| world := tick_date (world st); pipe := pipe st |},
             Returned (Date_now (date_reads (world st)))).

(** [new C(...)] for an object of the runtime: a fresh reference. *)
Definition new_object : M N :=
  fun st => ({| world := allocate (world st); pipe := pipe st |},
             Returned (objects (world st))).

(** ** Constants *)

Definition DEFAULT_MODELS : list (jsstring * ModelConfig) :=
  [ (js "smollm2-1.7b",
     {| id := js "HuggingFaceTB/SmolLM2-1.7B-Instruct";
        dtype := js "q4f16";
        device := js "webgpu";
        size := num_mul (num_mul (num_mul (num_lit (11 # 10)) (num_lit 1024))
                                 (num_lit 1024)) (num_lit 1024);
        description := js "SmolLM2 1.7B - Efficient chat model" |});
    (js "smollm2-360m",
     {| id := js "HuggingFaceTB/SmolLM2-360M-Instruct";
        dtype := js "q4f16";
        device := js "webgpu";
        size := num_mul (num_mul (num_mul (num_lit (3 # 10)) (num_lit 1024))
                                 (num_lit 1024)) (num_lit 1024);
        description := js "SmolLM2 360M - Lightweight chat model" |}) ].

Definition DEFAULT_GENERATION_CONFIG : gmap jsstring JsVal :=
  list_to_map
    [ (js "do_sample", JBool true);
      (js "temperature", JNum (num_lit (7 # 10)));
      (js "top_p", JNum (num_lit (9 # 10)));
      (js "max_new_tokens", JNum (num_lit 1024));
      (js "repetition_penalty", JNum (num_lit (11 # 10))) ].

Definition DEFAULT_SYSTEM_MESSAGE : Message :=
  {| role := system;
     content := js "You are a helpful AI assistant. Provide clear, concise, and accurate responses." |}.

Definition default_session : jsstring := js "default".

Definition not_initialized : Thrown :=
  ThrowError (js "Model not initialized. Call initialize() first.").

(** The [TypeError] of a property read on [null] or [undefined], with
    the message V8 gives it. *)
Definition type_error (value property : string) : Thrown :=
  ThrowError (js "Cannot read properties of " ++ js value ++ js " (reading '"
              ++ js property ++ js "')").

(** ** GenericLLMPipeline *)

(** [systemMessage ? { role: "system", content: systemMessage }
                   : DEFAULT_SYSTEM_MESSAGE] *)
Definition initial_message (sys : option jsstring) : Message :=
  match sys with
  | Some s => if str_truthy s then {| role := system; content := s |}
              else DEFAULT_SYSTEM_MESSAGE
  | None => DEFAULT_SYSTEM_MESSAGE
  end.

(** [getSession(sessionId = 'default', systemMessage?)] *)
Definition getSession (sessionId : option jsstring) (systemMessage : option jsstring)
  : M SessionData :=
  let sessionId := default default_session sessionId in
  p <- get_pipe ;;
  match sessionHistory p !! sessionId with
  | Some session => ret session
  | None =>
      let initialMessage := initial_message systemMessage in
      now <- read_date ;;
      let session := {| messages := [initialMessage];
                        pastKeyValues := JNull;
                        createdAt := now |} in
      _ <- modify_pipe (fun p => set_sessionHistory (<[sessionId := session]> (sessionHistory p)) p) ;;
      ret session
  end.

(** [clearSession(sessionId = 'default')] *)
Definition clearSession (sessionId : option jsstring) : M unit :=
  let sessionId := default default_session sessionId in
  p <- get_pipe ;;
  match sessionHistory p !! sessionId with
  | Some _ => modify_pipe (fun p => set_sessionHistory (delete sessionId (sessionHistory p)) p)
  | None => ret tt
  end.

(** A write through the reference [session] that [getSession] returned:
    the object is the one the map holds under [sessionId]. *)
Definition update_session (sessionId : jsstring) (f : SessionData -> SessionData) : M unit :=
  modify_pipe (fun p => set_sessionHistory (alter f sessionId (sessionHistory p)) p).

(** [session.messages.push(m)] *)
Definition push_message (m : Message) (s : SessionData) : SessionData :=
  {| messages := messages s ++ [m];
     pastKeyValues := pastKeyValues s;
     createdAt := createdAt s |}.

(** [session.pastKeyValues = v] *)
Definition set_pastKeyValues (v : JsVal) (s : SessionData) : SessionData :=
  {| messages := messages s; pastKeyValues := v; createdAt := createdAt s |}.

(** The local variables of [_generate] that its two closures share. *)
Record Locals := {
  startTime : option num;
  numTokens : nat;
  generatedText : jsstring
}.

(** [tokenCallbackFunction]:
    [startTime ??= performance.now();
     if (numTokens++ > 0 && tokenCallback) { ... }] *)
Definition tokenCallbackFunction (tokenCallback : option (Callback TokenStats))
    (l : Locals) (w : World) : Locals * World :=
  let '(start, w1) :=
    match startTime l with
    | Some t => (t, w)
    | None => read_performance w
    end in
  let before := numTokens l in
  let l1 := {| startTime := Some start; numTokens := S before;
               generatedText := generatedText l |} in
  if Nat.ltb 0 before then
    match tokenCallback with
    | Some callback =>
        let '(now, w2) := read_performance w1 in
        let tps := num_mul (num_div (num_of_nat (numTokens l1)) (num_sub now start))
                           (num_of_nat 1000) in
        (l1, post (callback {| tokensPerSecond := tps;
                               stats_tokenCount := numTokens l1 |}) w2)
    | None => (l1, w1)
    end
  else (l1, w1).

(** [streamCallbackFunction] *)
Definition streamCallbackFunction (streamCallback : option (Callback StreamData))
    (output : jsstring) (l : Locals) (w : World) : Locals * World :=
  let l1 := {| startTime := startTime l; numTokens := numTokens l;
               generatedText := generatedText l ++ output |} in
  match streamCallback with
  | Some callback =>
      (l1, post (callback {| token := output; fullText := generatedText l1;
                             tokenCount := numTokens l1 |}) w)
  | None => (l1, w)
  end.

(** The streamer, driven by the runtime. *)
Definition streamer_step (streamCallback : option (Callback StreamData))
    (tokenCallback : option (Callback TokenStats))
    (lw : Locals * World) (c : StreamerCall) : Locals * World :=
  match c with
  | TokenCallback => tokenCallbackFunction tokenCallback (fst lw) (snd lw)
  | TextCallback output => streamCallbackFunction streamCallback output (fst lw) (snd lw)
  end.

Definition run_streamer (streamCallback : option (Callback StreamData))
    (tokenCallback : option (Callback TokenStats))
    (calls : list StreamerCall) (l : Locals) (w : World) : Locals * World :=
  fold_left (streamer_step streamCallback tokenCallback) calls (l, w).

(** The argument of [model.generate]:
    [{...inputs, past_key_values, ...config, streamer, stopping_criteria,
      return_dict_in_generate: true}] *)
Definition generate_arguments (inputs : gmap jsstring JsVal) (pastKeyValues : JsVal)
    (config : gmap jsstring JsVal) (streamer stoppingCriteria : N)
  : gmap jsstring JsVal :=
  <[js "return_dict_in_generate" := JBool true]>
    (<[js "stopping_criteria" := JRef stoppingCriteria]>
       (<[js "streamer" := JRef streamer]>
          (spread (<[js "past_key_values" := pastKeyValues]> inputs) config))).

(** [await this.model.generate(args)] with the streamer's callbacks run
    as the runtime makes them. *)
Definition model_generate (args : gmap jsstring JsVal)
    (streamCallback : option (Callback StreamData))
    (tokenCallback : option (Callback TokenStats)) (l : Locals)
  : M (Locals * GenerateOutput) :=
  fun st =>
    match model (pipe st) with
    | None => (st, Threw (type_error "null" "generate"))
    | Some m =>
        let '(calls, outcome) := generate m (length (runtime_calls (world st))) args in
        let '(l', w') := run_streamer streamCallback tokenCallback calls l (world st) in
        let st' := {| world := record_runtime {| generate_args := args;
                                                 generate_outcome := outcome |} w';
                      pipe := pipe st |} in
        match outcome with
        | Returned result => (st', Returned (l', result))
        | Threw e => (st', Threw e)
        end
    end.

(** [startTime ? (numTokens / (performance.now() - startTime)) * 1000 : 0] *)
Definition final_tps (l : Locals) : M num :=
  match startTime l with
  | Some start =>
      if num_truthy start then
        fun st =>
          let '(now, w) := read_performance (world st) in
          ({| world := w; pipe := pipe st |},
           Returned (num_mul (num_div (num_of_nat (numTokens l)) (num_sub now start))
                             (num_of_nat 1000)))
      else ret (num_of_nat 0)
  | None => ret (num_of_nat 0)
  end.

(** [_generate(messages, pastKeyValues, config, streamCallback, tokenCallback)] *)
Definition _generate (messages : list Message) (pastKeyValues : JsVal)
    (config : gmap jsstring JsVal)
    (streamCallback : option (Callback StreamData))
    (tokenCallback : option (Callback TokenStats))
  : M InternalGenerationResult :=
  _ <- modify_world (record_coordinator {| call_messages := messages;
                                           call_pastKeyValues := pastKeyValues;
                                           call_config := config |}) ;;
  p <- get_pipe ;;
  inputs <- match tokenizer p with
            | Some t => lift (apply_chat_template t messages)
            | None => throw (type_error "null" "apply_chat_template")
            end ;;
  let l0 := {| startTime := None; numTokens := 0; generatedText := [] |} in
  streamer <- new_object ;;
  stoppingCriteria <- new_object ;;
  _ <- modify_pipe (set_currentStoppingCriteria (Some stoppingCriteria)) ;;
  lr <- model_generate (generate_arguments inputs pastKeyValues config streamer stoppingCriteria)
                       streamCallback tokenCallback l0 ;;
  let l := fst lr in
  let result := snd lr in
  decoded <- match tokenizer p with
             | Some t => lift (batch_decode t (sequences result))
             | None => throw (type_error "null" "batch_decode")
             end ;;
  decoded0 <- match decoded with
              | d :: _ => ret d
              | [] => throw (type_error "undefined" "split")
              end ;;
  let finalText := final_text decoded0 (generatedText l) in
  finalTps <- final_tps l ;;
  ret {| text := finalText;
         result_pastKeyValues := past_key_values result;
         result_tokensPerSecond := finalTps |}.

(** [!this.model || !this.tokenizer] *)
Definition uninitialized (p : Pipeline) : bool :=
  match model p, tokenizer p with
  | Some _, Some _ => false
  | _, _ => true
  end.

(** [{ role: "user", content: message }] *)
Definition user_turn (options : ChatGenerationOptions) : Message :=
  {| role := user; content := message options |}.

(** The key of the session a chat call works on: [sessionId = 'default']. *)
Definition session_key (options : ChatGenerationOptions) : jsstring :=
  default default_session (sessionId options).

(** [generateChat(options)] *)
Definition generateChat (options : ChatGenerationOptions)
    (streamCallback : option (Callback StreamData))
    (tokenCallback : option (Callback TokenStats))
  : M ChatGenerationResult :=
  let sessionId := session_key options in
  let generationConfig := default empty (generationConfig options) in
  p <- get_pipe ;;
  if uninitialized p then throw not_initialized
  else
    session <- getSession (Some sessionId) (systemMessage options) ;;
    _ <- update_session sessionId (push_message (user_turn options)) ;;
    response <- _generate (messages session ++ [user_turn options])
                          (pastKeyValues session)
                          (spread (props_of (config p)) generationConfig)
                          streamCallback tokenCallback ;;
    _ <- update_session sessionId
           (fun s => set_pastKeyValues (result_pastKeyValues response)
                       (push_message {| role := assistant; content := text response |} s)) ;;
    p' <- get_pipe ;;
    ret {| chat_text := text response;
           chat_sessionId := sessionId;
           chat_messageCount :=
             match sessionHistory p' !! sessionId with
             | Some s => length (messages s)
             | None => 0
             end;
           chat_tokensPerSecond := result_tokensPerSecond response |}.

(** The temporary message array of a single-mode call. *)
Definition single_messages (options : SingleGenerationOptions) : list Message :=
  match single_systemMessage options with
  | Some s => if str_truthy s then [{| role := system; content := s |}] else []
  | None => []
  end ++ [{| role := user; content := prompt options |}].

(** [generateSingle(options)] *)
Definition generateSingle (options : SingleGenerationOptions)
    (streamCallback : option (Callback StreamData))
    (tokenCallback : option (Callback TokenStats))
  : M SingleGenerationResult :=
  let generationConfig := default empty (single_generationConfig options) in
  p <- get_pipe ;;
  if uninitialized p then throw not_initialized
  else
    response <- _generate (single_messages options) JNull
                          (spread (props_of (config p)) generationConfig)
                          streamCallback tokenCallback ;;
    ret {| single_text := text response;
           single_tokensPerSecond := result_tokensPerSecond response |}.

(** [interrupt()] *)
Definition interrupt : M unit :=
  p <- get_pipe ;;
  match currentStoppingCriteria p with
  | Some h => modify_world (record_interrupt h)
  | None => ret tt
  end.

(** [getAvailableModels()] *)
Definition getAvailableModels : list (jsstring * ModelConfig) := DEFAULT_MODELS.

(** [getSessionInfo(sessionId = 'default')] *)
Definition getSessionInfo (sessionId : option jsstring) (p : Pipeline) : option SessionInfo :=
  match sessionHistory p !! default default_session sessionId with
  | None => None
  | Some session =>
      Some {| messageCount := length (messages session);
              info_createdAt := createdAt session;
              hasPastKeyValues := truthy (pastKeyValues session) |}
  end.

(** ** Message handlers *)

Definition worker_message (t : WorkerMessageType) (s : WorkerMessageStatus) (d : MessageData)
  : WorkerMessage :=
  {| type := t; status := s; data := d |}.

(** [options.sessionId || 'default'] *)
Definition sessionId_or_default (sessionId : option jsstring) : jsstring :=
  match sessionId with
  | Some s => if str_truthy s then s else default_session
  | None => default_session
  end.

(** The callbacks the handlers rebind to outbound events. *)
Definition streaming_event (t : WorkerMessageType) : Callback StreamData :=
  fun d => worker_message t S_streaming (DataStream d).

Definition token_stats_event (t : WorkerMessageType) : Callback TokenStats :=
  fun d => worker_message t S_token_stats (DataTokenStats d).

Definition report_error (t : WorkerMessageType) (error : Thrown) : M unit :=
  postMessage (worker_message t S_error (DataError (describe error))).

Definition handle_generateChat (options : ChatGenerationOptions) : M unit :=
  try_catch
    (_ <- postMessage (worker_message T_generateChat S_start
                         (DataSessionId (sessionId_or_default (sessionId options)))) ;;
     result <- generateChat options (Some (streaming_event T_generateChat))
                            (Some (token_stats_event T_generateChat)) ;;
     postMessage (worker_message T_generateChat S_complete (DataChatResult result)))
    (report_error T_generateChat).

Definition handle_generateSingle (options : SingleGenerationOptions) : M unit :=
  try_catch
    (_ <- postMessage (worker_message T_generateSingle S_start DataEmpty) ;;
     result <- generateSingle options (Some (streaming_event T_generateSingle))
                              (Some (token_stats_event T_generateSingle)) ;;
     postMessage (worker_message T_generateSingle S_complete (DataSingleResult result)))
    (report_error T_generateSingle).

Definition handle_interrupt : M unit :=
  try_catch
    (_ <- interrupt ;;
     postMessage (worker_message T_interrupt S_success
                    (DataNotice (js "Generation interrupted"))))
    (report_error T_interrupt).

Definition handle_clearSession (sessionId : option jsstring) : M unit :=
  try_catch
    (let sessionId := sessionId_or_default sessionId in
     _ <- clearSession (Some sessionId) ;;
     postMessage (worker_message T_clearSession S_success
                    (DataSessionCleared sessionId (js "Session cleared"))))
    (report_error T_clearSession).

Definition handle_getSessionInfo (sessionId : option jsstring) : M unit :=
  try_catch
    (let sessionId := sessionId_or_default sessionId in
     p <- get_pipe ;;
     postMessage (worker_message T_getSessionInfo S_success
                    (DataSessionInfo sessionId (getSessionInfo (Some sessionId) p))))
    (report_error T_getSessionInfo).

Definition handle_getModels : M unit :=
  try_catch
    (postMessage (worker_message T_getModels S_success (DataModels getAvailableModels)))
    (report_error T_getModels).

(** The two handlers outside the generation core, the capability probe
    and the loading of the model, are not modelled: the listener is
    defined, and everything is proved, for whatever they do. *)
Class LoadingHandlers := {
  handle_check : RequestData -> M unit;
  handle_initialize : RequestData -> M unit
}.
Context {LH : LoadingHandlers}.

(** ** The message listener *)

Inductive HandlerName :=
| H_check | H_initialize | H_generateChat | H_generateSingle | H_interrupt
| H_clearSession | H_getSessionInfo | H_getModels.

(** The own properties of the object literal [messageHandlers]. *)
Definition handler_names : list (jsstring * HandlerName) :=
  [ (js "check", H_check); (js "initialize", H_initialize);
    (js "generateChat", H_generateChat); (js "generateSingle", H_generateSingle);
    (js "interrupt", H_interrupt); (js "clearSession", H_clearSession);
    (js "getSessionInfo", H_getSessionInfo); (js "getModels", H_getModels) ].

(** [messageHandlers] is a plain object: a property it does not own is
    looked up in [Object.prototype]. These are the properties found
    there, each with what calling it as [messageHandlers[type](data)]
    does: it returns, or it throws a [TypeError]. None of them posts a
    message or touches the pipeline. *)
Definition object_prototype : list (jsstring * bool) :=
  [ (js "constructor", false); (js "__defineGetter__", true);
    (js "__defineSetter__", true); (js "hasOwnProperty", false);
    (js "__lookupGetter__", false); (js "__lookupSetter__", false);
    (js "isPrototypeOf", false); (js "propertyIsEnumerable", false);
    (js "toString", false); (js "valueOf", false);
    (js "__proto__", true); (js "toLocaleString", false) ].

Fixpoint assoc {A} (k : jsstring) (l : list (jsstring * A)) : option A :=
  match l with
  | [] => None
  | (k', v) :: l' => if bool_decide (k = k') then Some v else assoc k l'
  end.

(** The result of the property read [messageHandlers[type]]. *)
Inductive HandlerLookup :=
| OwnHandler (h : HandlerName)
| Inherited (throws : bool)
| Missing.

Definition messageHandlers (type : jsstring) : HandlerLookup :=
  match assoc type handler_names with
  | Some h => OwnHandler h
  | None =>
      match assoc type object_prototype with
      | Some throws => Inherited throws
      | None => Missing
      end
  end.

(** The call of a handler with the request's payload. A payload that is
    not of the handler's option type is outside the embedding ([None]). *)
Definition call_handler (h : HandlerName) (d : RequestData) : option (M unit) :=
  match h, d with
  | H_check, _ => Some (handle_check d)
  | H_initialize, _ => Some (handle_initialize d)
  | H_generateChat, ChatRequest options => Some (handle_generateChat options)
  | H_generateSingle, SingleRequest options => Some (handle_generateSingle options)
  | H_interrupt, _ => Some handle_interrupt
  | H_clearSession, NoData => Some (handle_clearSession None)
  | H_clearSession, SessionRequest sessionId => Some (handle_clearSession sessionId)
  | H_getSessionInfo, NoData => Some (handle_getSessionInfo None)
  | H_getSessionInfo, SessionRequest sessionId => Some (handle_getSessionInfo sessionId)
  | H_getModels, _ => Some handle_getModels
  | _, _ => None
  end.

(** The [TypeError] of the call [messageHandlers[type](data)] for the
    inherited properties that throw (with the messages V8 gives):
    [__proto__] is [Object.prototype] itself, which is no function;
    [__defineGetter__] and [__defineSetter__] take the payload for the
    name of the property and are given no function. *)
Definition inherited_call_error (type : jsstring) : Thrown :=
  if bool_decide (type = js "__proto__")
  then ThrowError (js "messageHandlers[type] is not a function")
  else ThrowError (js "Object.prototype." ++ type ++ js ": Expecting function").

(** The listener registered with [self.addEventListener("message", ...)]. *)
Definition listener (event : WorkerEventData) : option (M unit) :=
  match messageHandlers (event_type event) with
  | OwnHandler h => call_handler h (event_data event)
  | Inherited throws =>
      Some (if throws then throw (inherited_call_error (event_type event)) else ret tt)
  | Missing =>
      Some (postMessage (worker_message T_error S_error
              (DataError (js "Unknown message type: " ++ event_type event))))
  end.

(** ** Vocabulary of the properties *)

(** The text the streamer finalized during one call of the runtime, in
    order: what [generatedText] accumulates. *)
Fixpoint streamed_text (calls : list StreamerCall) : jsstring :=
  match calls with
  | [] => []
  | TokenCallback :: calls' => streamed_text calls'
  | TextCallback output :: calls' => output ++ streamed_text calls'
  end.

(** The number of tokens the runtime emitted during one call. *)
Fixpoint emitted_tokens (calls : list StreamerCall) : nat :=
  match calls with
  | [] => 0
  | TokenCallback :: calls' => S (emitted_tokens calls')
  | TextCallback _ :: calls' => emitted_tokens calls'
  end.

(** The rate reported at the k-th token of a call that started when the
    clock had been read [r] times: the first token read the clock at
    [r], the k-th at [r + k - 1]. *)
Definition rate_at (r k : nat) : TokenStats :=
  {| tokensPerSecond :=
       num_mul (num_div (num_of_nat k)
                        (num_sub (performance_now (r + k - 1)) (performance_now r)))
               (num_of_nat 1000);
     stats_tokenCount := k |}.

Definition is_token_stats (m : WorkerMessage) : bool :=
  match status m with S_token_stats => true | _ => false end.

(** User and assistant turns in alternation, a user turn first. *)
Fixpoint alternating (l : list Message) : bool :=
  match l with
  | [] => true
  | u :: l' =>
      match l' with
      | a :: l'' =>
          match role u, role a with
          | user, assistant => alternating l''
          | _, _ => false
          end
      | [] => false
      end
  end.

Definition new_session (sys : option jsstring) (st : St) : SessionData :=
  {| messages := [initial_message sys];
     pastKeyValues := JNull;
     createdAt := Date_now (date_reads (world st)) |}.

(** The callbacks post messages and read the performance clock; they
    leave the rest of the world alone. *)
Definition same_records (w w' : World) : Prop :=
  date_reads w' = date_reads w /\
  coordinator_calls w' = coordinator_calls w /\
  runtime_calls w' = runtime_calls w /\
  objects w' = objects w /\
  interrupts w' = interrupts w.

(** The session a chat call works on: the stored one, or a new one. *)
Definition chat_session (o : ChatGenerationOptions) (st : St) : SessionData :=
  match sessionHistory (pipe st) !! session_key o with
  | Some s => s
  | None => new_session (systemMessage o) st
  end.

(** The state in which a chat call enters the coordinator: the session
    is there and holds the user turn. *)
Definition chat_pushed (o : ChatGenerationOptions) (st : St) : St :=
  {| world := match sessionHistory (pipe st) !! session_key o with
              | Some _ => world st
              | None => tick_date (world st)
              end;
     pipe := set_sessionHistory
               (<[session_key o := push_message (user_turn o) (chat_session o st)]>
                  (sessionHistory (pipe st)))
               (pipe st) |}.

(** The settings a chat call passes to the coordinator. *)
Definition chat_settings (o : ChatGenerationOptions) (st : St) : gmap jsstring JsVal :=
  spread (props_of (config (pipe st))) (default empty (generationConfig o)).

(** The options of a chat call with another custom system message. *)
Definition with_systemMessage (sys : option jsstring) (o : ChatGenerationOptions)
  : ChatGenerationOptions :=
  {| message := message o; sessionId := sessionId o; systemMessage := sys;
     generationConfig := generationConfig o |}.

End Worker.

Arguments JsVal : clear implicits.
Arguments js : simpl never.
Arguments final_text : simpl never.
Arguments spread : simpl never.
Arguments generate_arguments : simpl never.
Arguments type_error : simpl never.

(** ** The capability probe and the loading of the model

    [checkWebGPUSupport] and [GenericLLMPipeline.initialize], as
    functions. The host's [navigator.gpu] and the two loaders of the
    transformers library are external and given by classes. *)

(** [Math.min] and [Math.round]. *)
Class JsMath (num : Type) := {
  num_min : num -> num -> num;
  num_round : num -> num
}.

Section Loading.
Context {num : Type} {JN : JsNumber num} {CK : Clocks num} {JM : JsMath num}.

Local Notation "x <- c ;; k" := (bind c (fun x => k))
  (at level 100, c at next level, right associativity).

(** [navigator.gpu]: absent, or an object whose [requestAdapter()]
    resolves to a value or rejects. *)
Class Navigator := { gpu : option (Outcome (JsVal num)) }.
Context {NV : Navigator}.

Record WebGPUSupport := {
  supported : bool;
  adapter : option (JsVal num);
  support_error : option jsstring
}.

(** [checkWebGPUSupport()] *)
Definition checkWebGPUSupport : WebGPUSupport :=
  let body : Outcome WebGPUSupport :=
    match gpu with
    | None => Threw (ThrowError (js "WebGPU is not supported in this browser"))
    | Some requestAdapter =>
        match requestAdapter with
        | Threw e => Threw e
        | Returned a =>
            if truthy a
            then Returned {| supported := true; adapter := Some a; support_error := None |}
            else Threw (ThrowError (js "WebGPU is not supported (no adapter found)"))
        end
    end in
  match body with
  | Returned support => support
  | Threw error =>
      {| supported := false; adapter := None; support_error := Some (describe error) |}
  end.

(** The [model] property of the options of [initialize]: the name of a
    preset, or a descriptor object (with the reference that stands for
    the object where it is kept as a value). *)
Inductive ModelChoice :=
| PresetName (name : jsstring)
| Descriptor (object : N) (fields : ModelConfig (num := num)).

(** [ModelInitializationOptions]: the [model] and the other properties. *)
Record ModelInitializationOptions := {
  init_model : ModelChoice;
  init_settings : gmap jsstring (JsVal num)
}.

(** The own properties of the options object, as [{...modelConfig}]
    spreads them. *)
Definition options_properties (o : ModelInitializationOptions) : gmap jsstring (JsVal num) :=
  <[js "model" := match init_model o with
                  | PresetName name => JStr name
                  | Descriptor object _ => JRef object
                  end]> (init_settings o).

(** The outcome of the two tests on [modelConfig.model]. [DEFAULT_MODELS]
    is a plain object: a name it does not own is looked up in
    [Object.prototype], and a property found there is truthy but no
    descriptor ([Foreign]). *)
Inductive Resolution :=
| Resolved (info : ModelConfig (num := num))
| Foreign
| Invalid.

Definition resolve_model (c : ModelChoice) : Resolution :=
  match c with
  | PresetName name =>
      match assoc name DEFAULT_MODELS with
      | Some info => Resolved info
      | None =>
          match assoc name object_prototype with
          | Some _ => Foreign
          | None => Invalid
          end
      end
  | Descriptor _ fields => Resolved fields
  end.

(** What the loader passes to its progress callback, and what the
    pipeline passes on. *)
Record RawProgress := {
  raw_status : jsstring;
  raw_file : option jsstring;
  raw_loaded : option num
}.

Record ProgressData := {
  progress_status : jsstring;
  loaded : num;
  total : num;
  percentage : num;
  modelName : jsstring;
  file : jsstring
}.

(** [String.prototype.includes] *)
Definition includes (search s : jsstring) : bool :=
  existsb (occurs_at search s) (seq 0 (S (length s))).

(** [wrappedCallback], for the descriptor [this.modelInfo] holds while
    the model loads. *)
Definition wrappedCallback (info : ModelConfig (num := num))
    (progressCallback : option (Callback (num := num) ProgressData))
    (progress : option RawProgress) (w : World (num := num)) : World (num := num) :=
  match progressCallback, progress with
  | Some callback, Some p =>
      match raw_file p with
      | Some f =>
          if includes (js ".onnx") f then
            let loaded := match raw_loaded p with
                          | Some n => if num_truthy n then n else num_lit 0
                          | None => num_lit 0
                          end in
            let total := size info in
            let percentage := num_min (num_mul (num_div loaded total) (num_lit 100))
                                      (num_lit 100) in
            post (callback {| progress_status := raw_status p;
                              loaded := loaded;
                              total := total;
                              percentage := num_round percentage;
                              modelName := match last (split (js "/") (id info)) with
                                           | Some s => if str_truthy s then s else []
                                           | None => []
                                           end;
                              file := f |}) w
          else w
      | None => w
      end
  | _, _ => w
  end.

(** [AutoTokenizer.from_pretrained(id)] and
    [AutoModelForCausalLM.from_pretrained(id, { dtype, device,
    progress_callback })]: the second calls the progress callback as it
    loads. *)
Class Loaders := {
  tokenizer_from_pretrained : jsstring -> Outcome (Tokenizer (num := num));
  model_from_pretrained :
    jsstring -> jsstring -> jsstring ->
    list (option RawProgress) * Outcome (Model (num := num))
}.
Context {LD : Loaders}.

Definition set_config (c : option (gmap jsstring (JsVal num))) (p : Pipeline (num := num))
  : Pipeline (num := num) :=
  {| tokenizer := tokenizer p; model := model p; modelInfo := modelInfo p;
     config := c; sessionHistory := sessionHistory p;
     currentStoppingCriteria := currentStoppingCriteria p |}.

Definition set_modelInfo (i : option (ModelConfig (num := num))) (p : Pipeline (num := num))
  : Pipeline (num := num) :=
  {| tokenizer := tokenizer p; model := model p; modelInfo := i;
     config := config p; sessionHistory := sessionHistory p;
     currentStoppingCriteria := currentStoppingCriteria p |}.

Definition set_tokenizer (t : option (Tokenizer (num := num))) (p : Pipeline (num := num))
  : Pipeline (num := num) :=
  {| tokenizer := t; model := model p; modelInfo := modelInfo p;
     config := config p; sessionHistory := sessionHistory p;
     currentStoppingCriteria := currentStoppingCriteria p |}.

Definition set_model (m : option (Model (num := num))) (p : Pipeline (num := num))
  : Pipeline (num := num) :=
  {| tokenizer := tokenizer p; model := m; modelInfo := modelInfo p;
     config := config p; sessionHistory := sessionHistory p;
     currentStoppingCriteria := currentStoppingCriteria p |}.

Definition invalid_model : Thrown := ThrowError (js "Invalid model configuration").

(** [x || fallback] on strings *)
Definition or_string (x fallback : jsstring) : jsstring :=
  if str_truthy x then x else fallback.

(** The loading of the tokenizer: [if (!this.tokenizer) { ... }] *)
Definition load_tokenizer (info : ModelConfig (num := num)) : M (num := num) unit :=
  p <- get_pipe ;;
  match tokenizer p with
  | Some _ => ret tt
  | None =>
      t <- lift (tokenizer_from_pretrained (id info)) ;;
      modify_pipe (set_tokenizer (Some t))
  end.

(** The loading of the model: [if (!this.model) { ... }], with the
    progress callback run as the loader calls it. *)
Definition load_model (info : ModelConfig (num := num))
    (progressCallback : option (Callback (num := num) ProgressData))
  : M (num := num) unit :=
  p <- get_pipe ;;
  match model p with
  | Some _ => ret tt
  | None =>
      let loading := model_from_pretrained (id info)
                       (or_string (dtype info) (js "q4f16"))
                       (or_string (device info) (js "webgpu")) in
      _ <- modify_world (fun w => fold_left (fun w progress =>
                                    wrappedCallback info progressCallback progress w)
                                  (fst loading) w) ;;
      m <- lift (snd loading) ;;
      modify_pipe (set_model (Some m))
  end.

(** [initialize(modelConfig, progressCallback)]. A preset name that
    [DEFAULT_MODELS] inherits from [Object.prototype] would put a value
    that is no descriptor into [this.modelInfo]: such a call is outside
    the embedding ([None]). *)
Definition initialize (modelConfig : ModelInitializationOptions)
    (progressCallback : option (Callback (num := num) ProgressData))
  : option (M (num := num) (option (Tokenizer (num := num)) * option (Model (num := num)))) :=
  match resolve_model (init_model modelConfig) with
  | Foreign => None
  | resolution =>
      Some
        (_ <- modify_pipe (set_config (Some (spread DEFAULT_GENERATION_CONFIG
                                               (options_properties modelConfig)))) ;;
         info <- match resolution with
                 | Resolved info => ret info
                 | _ => throw invalid_model
                 end ;;
         _ <- modify_pipe (set_modelInfo (Some info)) ;;
         _ <- load_tokenizer info ;;
         _ <- load_model info progressCallback ;;
         p <- get_pipe ;;
         ret (tokenizer p, model p))
  end.

(** ** Vocabulary of the further properties *)

(** The data the streaming observer is called with during a run of the
    streamer that starts with the text [text] and [tokens] tokens. *)
Fixpoint stream_reports (calls : list StreamerCall) (text : jsstring) (tokens : nat)
  : list StreamData :=
  match calls with
  | [] => []
  | TokenCallback :: calls' => stream_reports calls' text (S tokens)
  | TextCallback output :: calls' =>
      {| token := output; fullText := text ++ output; tokenCount := tokens |}
      :: stream_reports calls' (text ++ output) tokens
  end.

(** The readings of the performance clock taken while [n] tokens are
    streamed: one per token with a token-rate observer, one in all
    without. *)
Definition stream_reads (tokenCallback : option (Callback (num := num) (TokenStats (num := num))))
    (n : nat)
  : nat :=
  match n, tokenCallback with
  | O, _ => 0
  | S _, Some _ => n
  | S _, None => 1
  end.

(** The events between the first and the last of a generation request. *)
Definition progress_event (t : WorkerMessageType) (m : WorkerMessage (num := num)) : Prop :=
  type m = t /\ (status m = S_streaming \/ status m = S_token_stats).

(** The last event of a generation request. *)
Definition terminal_event (t : WorkerMessageType) (m : WorkerMessage (num := num)) : Prop :=
  type m = t /\ (status m = S_complete \/ status m = S_error).

(** The progress events of a load that the pipeline passes on: the ones
    of files whose name contains ".onnx". *)
Definition is_onnx (progress : option RawProgress) : bool :=
  match progress with
  | Some p => match raw_file p with
              | Some f => includes (js ".onnx") f
              | None => false
              end
  | None => false
  end.

(** The settings [initialize] stores: [{...DEFAULT_GENERATION_CONFIG,
    ...modelConfig}]. *)
Definition stored_settings (o : ModelInitializationOptions) : gmap jsstring (JsVal num) :=
  spread DEFAULT_GENERATION_CONFIG (options_properties o).

(** The progress data [d] is the one passed on for the raw progress
    event [progress] while the model of descriptor [info] loads. *)
Definition passes_on (info : ModelConfig (num := num)) (d : ProgressData)
    (progress : option RawProgress) : Prop :=
  exists p, progress = Some p /\
    progress_status d = raw_status p /\ raw_file p = Some (file d) /\
    total d = size info.

End Loading.

(** ** Calls in flight

    [generateChat] and [generateSingle] are [async]. A call runs in one
    piece up to [await this.model.generate(...)] in [_generate]; there
    it is suspended while the runtime works, and the event loop goes on:
    the worker has no queue and no guard, so while a call is suspended
    the message listener takes the next request, and the calls of
    several requests overlap. When the runtime call has settled the call
    goes on, again in one piece, to its end: what follows the [await] is
    synchronous, and the callers that await the call resume in the same
    turn.

    Here the calls are cut at that point. A call in flight is what the
    suspended call holds; the runtime makes its calls to the streamer
    one by one, each in a turn of its own, and the call ends after the
    last of them. *)

Section Flights.
Context {num : Type} {JN : JsNumber num} {CK : Clocks num}.

Local Notation "x <- c ;; k" := (bind c (fun x => k))
  (at level 100, c at next level, right associativity).

(** A call suspended in [model.generate]: the key of its session (none
    in single mode; the call holds the session object itself, which is
    the one the store has under the key as long as the key is not
    cleared), its two observers, the local variables of [_generate], the
    argument and the stopping criteria it gave to the runtime, the calls
    the runtime has yet to make to the streamer and how the runtime call
    will end. *)
Record Flight := {
  flight_session : option jsstring;
  flight_streamCallback : option (Callback (num := num) StreamData);
  flight_tokenCallback : option (Callback (num := num) (TokenStats (num := num)));
  flight_locals : Locals (num := num);
  flight_args : gmap jsstring (JsVal num);
  flight_stoppingCriteria : N;
  flight_pending : list StreamerCall;
  flight_outcome : Outcome (GenerateOutput (num := num))
}.

(** The worker between two turns of its event loop: its state and the
    calls in flight, oldest first. *)
Record Running := {
  now : St (num := num);
  in_flight : list Flight
}.

(** A worker with nothing in flight. *)
Definition idle (st : St (num := num)) : Running := {| now := st; in_flight := [] |}.

(** What a turn gives back to its request. *)
Inductive Settled :=
| ChatSettled (r : ChatGenerationResult (num := num))
| SingleSettled (r : SingleGenerationResult (num := num))
| Nothing.

(** [_generate] up to the call of [this.model.generate]: the argument
    and the stopping criteria it has built, and the model it calls. *)
Definition generate_begin (messages : list Message) (pastKeyValues : JsVal num)
    (config : gmap jsstring (JsVal num))
  : M (num := num) (gmap jsstring (JsVal num) * N * Model (num := num)) :=
  _ <- modify_world (record_coordinator {| call_messages := messages;
                                           call_pastKeyValues := pastKeyValues;
                                           call_config := config |}) ;;
  p <- get_pipe ;;
  inputs <- match tokenizer p with
            | Some t => lift (apply_chat_template t messages)
            | None => throw (type_error "null" "apply_chat_template")
            end ;;
  streamer <- new_object ;;
  stoppingCriteria <- new_object ;;
  _ <- modify_pipe (set_currentStoppingCriteria (Some stoppingCriteria)) ;;
  match model p with
  | Some m => ret (generate_arguments inputs pastKeyValues config streamer stoppingCriteria,
                   stoppingCriteria, m)
  | None => throw (type_error "null" "generate")
  end.

(** [generateChat] up to the call of [this.model.generate]. *)
Definition chat_begin (options : ChatGenerationOptions (num := num))
  : M (num := num) (gmap jsstring (JsVal num) * N * Model (num := num)) :=
  let sessionId := session_key options in
  let generationConfig := default empty (generationConfig options) in
  p <- get_pipe ;;
  if uninitialized p then throw not_initialized
  else
    session <- getSession (Some sessionId) (systemMessage options) ;;
    _ <- update_session sessionId (push_message (user_turn options)) ;;
    generate_begin (messages session ++ [user_turn options])
                   (pastKeyValues session)
                   (spread (props_of (config p)) generationConfig).

(** [generateSingle] up to the call of [this.model.generate]. *)
Definition single_begin (options : SingleGenerationOptions (num := num))
  : M (num := num) (gmap jsstring (JsVal num) * N * Model (num := num)) :=
  let generationConfig := default empty (single_generationConfig options) in
  p <- get_pipe ;;
  if uninitialized p then throw not_initialized
  else
    generate_begin (single_messages options) JNull
                   (spread (props_of (config p)) generationConfig).

(** The call of [this.model.generate] at the end of a beginning: the
    runtime call is the next in the life of the worker, after the ones
    that have ended and the ones in flight. A beginning that throws
    rejects its call at once. *)
Definition launch (session : option jsstring)
    (streamCallback : option (Callback (num := num) StreamData))
    (tokenCallback : option (Callback (num := num) (TokenStats (num := num))))
    (beginning : M (num := num) (gmap jsstring (JsVal num) * N * Model (num := num)))
    (a : Running) : Running * Outcome Settled :=
  match beginning (now a) with
  | (st, Returned (args, stoppingCriteria, m)) =>
      let run := generate m (length (runtime_calls (world st)) + length (in_flight a)) args in
      ({| now := st;
          in_flight :=
            in_flight a ++
              [{| flight_session := session;
                  flight_streamCallback := streamCallback;
                  flight_tokenCallback := tokenCallback;
                  flight_locals := {| startTime := None; numTokens := 0;
                                      generatedText := [] |};
                  flight_args := args;
                  flight_stoppingCriteria := stoppingCriteria;
                  flight_pending := fst run;
                  flight_outcome := snd run |}] |},
       Returned Nothing)
  | (st, Threw e) => ({| now := st; in_flight := in_flight a |}, Threw e)
  end.

(** The next call the runtime makes to the streamer of a call in flight. *)
Definition progress (fl : Flight) (c : StreamerCall) (rest : list StreamerCall)
    (w : World (num := num)) : Flight * World (num := num) :=
  let lw := streamer_step (flight_streamCallback fl) (flight_tokenCallback fl)
              (flight_locals fl, w) c in
  ({| flight_session := flight_session fl;
      flight_streamCallback := flight_streamCallback fl;
      flight_tokenCallback := flight_tokenCallback fl;
      flight_locals := fst lw;
      flight_args := flight_args fl;
      flight_stoppingCriteria := flight_stoppingCriteria fl;
      flight_pending := rest;
      flight_outcome := flight_outcome fl |},
   snd lw).

(** [_generate] from the point where the runtime call has settled. *)
Definition generate_end (fl : Flight) : M (num := num) (InternalGenerationResult (num := num)) :=
  _ <- modify_world (record_runtime {| generate_args := flight_args fl;
                                       generate_outcome := flight_outcome fl |}) ;;
  result <- lift (flight_outcome fl) ;;
  p <- get_pipe ;;
  decoded <- match tokenizer p with
             | Some t => lift (batch_decode t (sequences result))
             | None => throw (type_error "null" "batch_decode")
             end ;;
  decoded0 <- match decoded with
              | d :: _ => ret d
              | [] => throw (type_error "undefined" "split")
              end ;;
  let finalText := final_text decoded0 (generatedText (flight_locals fl)) in
  finalTps <- final_tps (flight_locals fl) ;;
  ret {| text := finalText;
         result_pastKeyValues := past_key_values result;
         result_tokensPerSecond := finalTps |}.

(** [generateChat] from the point where [_generate] has returned. *)
Definition chat_end (sessionId : jsstring) (response : InternalGenerationResult (num := num))
  : M (num := num) (ChatGenerationResult (num := num)) :=
  _ <- update_session sessionId
         (fun s => set_pastKeyValues (result_pastKeyValues response)
                     (push_message {| role := assistant; content := text response |} s)) ;;
  p' <- get_pipe ;;
  ret {| chat_text := text response;
         chat_sessionId := sessionId;
         chat_messageCount :=
           match sessionHistory p' !! sessionId with
           | Some s => length (messages s)
           | None => 0
           end;
         chat_tokensPerSecond := result_tokensPerSecond response |}.

(** The rest of a call whose runtime call has settled. *)
Definition finish (fl : Flight) : M (num := num) Settled :=
  response <- generate_end fl ;;
  match flight_session fl with
  | Some sessionId =>
      result <- chat_end sessionId response ;;
      ret (ChatSettled result)
  | None =>
      ret (SingleSettled {| single_text := text response;
                            single_tokensPerSecond := result_tokensPerSecond response |})
  end.

(** An interrupt reaches the call in flight that holds the stopping
    criteria it signals: from then on the runtime does with that call
    what it does with an interrupted one. *)
Definition interrupted (h : option N)
    (reaction : list StreamerCall * Outcome (GenerateOutput (num := num)))
    (fl : Flight) : Flight :=
  if bool_decide (h = Some (flight_stoppingCriteria fl)) then
    {| flight_session := flight_session fl;
       flight_streamCallback := flight_streamCallback fl;
       flight_tokenCallback := flight_tokenCallback fl;
       flight_locals := flight_locals fl;
       flight_args := flight_args fl;
       flight_stoppingCriteria := flight_stoppingCriteria fl;
       flight_pending := fst reaction;
       flight_outcome := snd reaction |}
  else fl.

(** The number of chat calls in flight on a session key. *)
Definition flights_on (key : jsstring) (a : Running) : nat :=
  length (List.filter (fun fl => bool_decide (flight_session fl = Some key)) (in_flight a)).

(** The turns of the event loop: a chat or single call begins; the
    runtime makes the next streamer call of the call in flight number
    [i]; the call in flight number [i], whose runtime call has made all
    its streamer calls, ends; a session is cleared; the current stopping
    criteria is interrupted, with what the runtime then does to the call
    it belongs to. *)
Inductive Event :=
| ChatBegin (options : ChatGenerationOptions (num := num))
    (streamCallback : option (Callback (num := num) StreamData))
    (tokenCallback : option (Callback (num := num) (TokenStats (num := num))))
| SingleBegin (options : SingleGenerationOptions (num := num))
    (streamCallback : option (Callback (num := num) StreamData))
    (tokenCallback : option (Callback (num := num) (TokenStats (num := num))))
| Progress (i : nat)
| Finish (i : nat)
| ClearSession (sessionId : option jsstring)
| Interrupt (reaction : list StreamerCall * Outcome (GenerateOutput (num := num))).

Definition settled_unit (o : Outcome unit) : Outcome Settled :=
  match o with
  | Returned _ => Returned Nothing
  | Threw e => Threw e
  end.

(** One turn. A turn that cannot be taken gives [None]: a streamer call
    or an end of a call that is not in flight, a streamer call when none
    is left, an end before the last streamer call. Clearing a session
    that a call in flight holds detaches the object from the store: that
    turn is outside the embedding ([None]). *)
Definition step (e : Event) (a : Running) : option (Running * Outcome Settled) :=
  match e with
  | ChatBegin options streamCallback tokenCallback =>
      Some (launch (Some (session_key options)) streamCallback tokenCallback
              (chat_begin options) a)
  | SingleBegin options streamCallback tokenCallback =>
      Some (launch None streamCallback tokenCallback (single_begin options) a)
  | Progress i =>
      match in_flight a !! i with
      | Some fl =>
          match flight_pending fl with
          | c :: rest =>
              let flw := progress fl c rest (world (now a)) in
              Some ({| now := {| world := snd flw; pipe := pipe (now a) |};
                       in_flight := <[i := fst flw]> (in_flight a) |},
                    Returned Nothing)
          | [] => None
          end
      | None => None
      end
  | Finish i =>
      match in_flight a !! i with
      | Some fl =>
          match flight_pending fl with
          | [] =>
              let ended := finish fl (now a) in
              Some ({| now := fst ended; in_flight := delete i (in_flight a) |},
                    snd ended)
          | _ :: _ => None
          end
      | None => None
      end
  | ClearSession sessionId =>
      if bool_decide (flights_on (default default_session sessionId) a = 0) then
        let cleared := clearSession sessionId (now a) in
        Some ({| now := fst cleared; in_flight := in_flight a |},
              settled_unit (snd cleared))
      else None
  | Interrupt reaction =>
      let signalled := interrupt (now a) in
      Some ({| now := fst signalled;
               in_flight := map (interrupted (currentStoppingCriteria (pipe (now a))) reaction)
                                (in_flight a) |},
            settled_unit (snd signalled))
  end.

(** Turns one after another, as long as they can be taken. *)
Fixpoint turns (es : list Event) (a : Running) : option Running :=
  match es with
  | [] => Some a
  | e :: es' =>
      match step e a with
      | Some (a', _) => turns es' a'
      | None => None
      end
  end.

(** A call with nothing in between: it begins, the runtime makes all its
    streamer calls, it ends. *)
Definition uninterrupted (e : Event) (st : St (num := num))
  : option (St (num := num) * Outcome Settled) :=
  match step e (idle st) with
  | Some (a, Returned _) =>
      match in_flight a !! 0 with
      | Some fl =>
          match turns (replicate (length (flight_pending fl)) (Progress 0)) a with
          | Some a' =>
              match step (Finish 0) a' with
              | Some (a'', r) => Some (now a'', r)
              | None => None
              end
          | None => None
          end
      | None => None
      end
  | Some (a, Threw e) => Some (now a, Threw e)
  | None => None
  end.

(** ** Vocabulary of the properties of a session's history *)

(** What is counted for a session key along the turns: the chat calls on
    the key that returned, the ones that threw, and whether one of them
    began while another was in flight. *)
Record Tally := {
  completed : nat;
  threw : nat;
  overlapped : bool
}.

Definition no_calls : Tally := {| completed := 0; threw := 0; overlapped := false |}.

(** The tally after the turn [e], taken from [a] with outcome [r]. *)
Definition count (key : jsstring) (a : Running) (e : Event) (r : Outcome Settled)
    (t : Tally) : Tally :=
  match e with
  | ChatBegin options _ _ =>
      if bool_decide (session_key options = key) then
        match r with
        | Returned _ =>
            {| completed := completed t; threw := threw t;
               overlapped := overlapped t || Nat.ltb 0 (flights_on key a) |}
        | Threw _ =>
            {| completed := completed t; threw := S (threw t);
               overlapped := overlapped t |}
        end
      else t
  | Finish i =>
      match in_flight a !! i with
      | Some fl =>
          if bool_decide (flight_session fl = Some key) then
            match r with
            | Returned _ =>
                {| completed := S (completed t); threw := threw t;
                   overlapped := overlapped t |}
            | Threw _ =>
                {| completed := completed t; threw := S (threw t);
                   overlapped := overlapped t |}
            end
          else t
      | None => t
      end
  | _ => t
  end.

(** The turn clears the session of the key. *)
Definition clears (key : jsstring) (e : Event) : bool :=
  match e with
  | ClearSession sessionId => bool_decide (default default_session sessionId = key)
  | _ => false
  end.

(** The histories of a session key: turns, of any request and
    overlapping as they come, none of which clears the key; with the
    tally they leave. *)
Fixpoint history (key : jsstring) (es : list Event) (a : Running) (t : Tally)
  : option (Running * Tally) :=
  match es with
  | [] => Some (a, t)
  | e :: es' =>
      if clears key e then None
      else
        match step e a with
        | Some (a', r) => history key es' a' (count key a e r t)
        | None => None
        end
  end.

(** The shape of the messages of a session with tally [t] and [p] chat
    calls in flight: the system message, then one message for each call
    in flight, two for each call that returned and one for each that
    threw, none of them a system message; and as long as no call threw
    and none began while another was in flight, user and assistant turns
    in alternation, followed by the user turn of the call in flight. *)
Definition history_shape (t : Tally) (p : nat) (msgs : list Message) : Prop :=
  exists m rest,
    msgs = m :: rest /\ role m = system /\
    length rest = 2 * completed t + threw t + p /\
    Forall (fun x => role x <> system) rest /\
    (threw t = 0 -> overlapped t = false ->
     exists settled pending,
       rest = settled ++ pending /\ alternating settled = true /\
       length pending = p /\ p <= 1 /\
       Forall (fun x => role x = user) pending).

(** What holds of the session of [key] along a history. *)
Definition history_invariant (key : jsstring) (t : Tally) (a : Running) : Prop :=
  uninitialized (pipe (now a)) = false /\
  match sessionHistory (pipe (now a)) !! key with
  | Some s => history_shape t (flights_on key a) (messages s)
  | None => completed t = 0 /\ threw t = 0 /\ flights_on key a = 0
  end.

(** The outcome of [generateChat] and of [generateSingle], as what a
    turn gives back. *)
Definition chat_settled (o : Outcome (ChatGenerationResult (num := num))) : Outcome Settled :=
  match o with
  | Returned r => Returned (ChatSettled r)
  | Threw e => Threw e
  end.

Definition single_settled (o : Outcome (SingleGenerationResult (num := num)))
  : Outcome Settled :=
  match o with
  | Returned r => Returned (SingleSettled r)
  | Threw e => Threw e
  end.

End Flights.

(** ** A concrete host, for the examples

    Numbers are rationals, the clocks tick every 5 and every 1
    milliseconds, the tokenizer echoes a fixed transcript, and the model
    runtime fails on its first call and succeeds from then on. *)

#[export] Instance Q_JsNumber : JsNumber Q := {|
  num_lit q := q;
  num_sub := Qminus;
  num_div := Qdiv;
  num_mul := Qmult;
  num_truthy q := negb (Qeq_bool q 0)
|}.

#[export] Instance example_clocks : Clocks Q := {|
  performance_now k := inject_Z (100 + 5 * Z.of_nat k);
  Date_now k := inject_Z (1700000000000 + Z.of_nat k)
|}.

#[export] Instance example_loading : LoadingHandlers (num := Q) := {|
  handle_check _ := ret tt;
  handle_initialize _ := ret tt
|}.

Definition example_transcript : jsstring :=
  js "system" ++ [10%N] ++ js "Be brief." ++ [10%N] ++
  js "user" ++ [10%N] ++ js "Hi" ++ [10%N] ++
  js "assistant" ++ [10%N] ++ js "  Hello!" ++ [10%N].

Definition example_tokenizer : Tokenizer (num := Q) := {|
  apply_chat_template _ := Returned (<[js "input_ids" := JRef 1%N]> empty);
  batch_decode _ := Returned [example_transcript]
|}.

Definition example_stream : list StreamerCall :=
  [ TokenCallback; TextCallback (js "Hel");
    TokenCallback; TextCallback (js "lo");
    TokenCallback; TextCallback (js "!") ].

Definition flaky_model : Model (num := Q) := {|
  generate k _ :=
    match k with
    | O => ([TokenCallback; TextCallback (js "He")],
            Threw (ThrowError (js "device lost")))
    | S _ => (example_stream,
              Returned {| sequences := JRef 7%N;
                          past_key_values := JRef (100 + N.of_nat k)%N |})
    end
|}.

Definition empty_world : World (num := Q) := {|
  outbox := []; perf_reads := 0; date_reads := 0;
  coordinator_calls := []; runtime_calls := []; objects := 0%N;
  interrupts := []
|}.

(** A worker whose model is loaded and that has no session yet. *)
Definition loaded_state : St (num := Q) := {|
  world := empty_world;
  pipe := {| tokenizer := Some example_tokenizer;
             model := Some flaky_model;
             modelInfo := None;
             config := Some DEFAULT_GENERATION_CONFIG;
             sessionHistory := empty;
             currentStoppingCriteria := None |}
|}.

(** A worker that has not loaded a model. *)
Definition fresh_state : St (num := Q) := {|
  world := empty_world;
  pipe := {| tokenizer := None; model := None; modelInfo := None;
             config := None; sessionHistory := empty;
             currentStoppingCriteria := None |}
|}.

Definition hi_options : ChatGenerationOptions (num := Q) := {|
  message := js "Hi";
  sessionId := None;
  systemMessage := Some (js "Be brief.");
  generationConfig := Some (<[js "max_new_tokens" := JNum (256 : Q)]> empty)
|}.

Definition hi_prompt : SingleGenerationOptions (num := Q) := {|
  prompt := js "Hi";
  single_systemMessage := None;
  single_generationConfig := None
|}.

(** The state after a first chat call, which failed in the runtime, and
    after a second one, which completed. *)
Definition after_failed_call : St (num := Q) :=
  fst (generateChat hi_options None None loaded_state).

Definition after_completed_call : St (num := Q) :=
  fst (generateChat hi_options None None after_failed_call).

(** A loaded worker with the default session in the store. *)
Definition seeded_state : St (num := Q) := {|
  world := empty_world;
  pipe := {| tokenizer := Some example_tokenizer;
             model := Some flaky_model;
             modelInfo := None;
             config := Some DEFAULT_GENERATION_CONFIG;
             sessionHistory :=
               <[default_session := {| messages := [DEFAULT_SYSTEM_MESSAGE];
                                       pastKeyValues := JNull;
                                       createdAt := 0%Q |}]> empty;
             currentStoppingCriteria := None |}
|}.

(** A loaded worker whose settings are the two of the specification's
    example. *)
Definition two_settings_state : St (num := Q) := {|
  world := empty_world;
  pipe := {| tokenizer := Some example_tokenizer;
             model := Some flaky_model;
             modelInfo := None;
             config := Some (list_to_map
                        [ (js "temperature", JNum (num_lit (7 # 10)));
                          (js "max_new_tokens", JNum (num_lit 1024)) ]);
             sessionHistory := empty;
             currentStoppingCriteria := None |}
|}.

(** [Math.min] and [Math.round] on rationals. *)
#[export] Instance Q_JsMath : JsMath Q := {|
  num_min a b := if Qle_bool a b then a else b;
  num_round q := inject_Z (Qfloor (q + (1 # 2)))
|}.

(** A browser with a WebGPU adapter. *)
#[export] Instance example_navigator : Navigator (num := Q) := {|
  gpu := Some (Returned (JRef 3%N))
|}.

(** What the loader reports while the model loads: three files, one of
    them a weight file, and a call without argument. *)
Definition example_progress : list (option (RawProgress (num := Q))) :=
  [ Some {| raw_status := js "progress"; raw_file := Some (js "config.json");
            raw_loaded := Some (100 : Q) |};
    Some {| raw_status := js "progress"; raw_file := Some (js "onnx/model_q4f16.onnx");
            raw_loaded := Some (1024 : Q) |};
    None;
    Some {| raw_status := js "done"; raw_file := Some (js "onnx/model_q4f16.onnx");
            raw_loaded := None |} ].

(** Loaders that succeed. *)
#[export] Instance example_loaders : Loaders (num := Q) := {|
  tokenizer_from_pretrained _ := Returned example_tokenizer;
  model_from_pretrained _ _ _ := (example_progress, Returned flaky_model)
|}.

(** Loaders whose tokenizer loads and whose model does not. *)
Definition offline_loaders : Loaders (num := Q) := {|
  tokenizer_from_pretrained _ := Returned example_tokenizer;
  model_from_pretrained _ _ _ :=
    (firstn 1 example_progress, Threw (ThrowError (js "Failed to fetch")))
|}.

Definition small_model_options : ModelInitializationOptions (num := Q) := {|
  init_model := PresetName (js "smollm2-360m");
  init_settings := <[js "temperature" := JNum (2 # 10 : Q)]> empty
|}.

Definition unknown_model_options : ModelInitializationOptions (num := Q) := {|
  init_model := PresetName (js "gpt-17");
  init_settings := empty
|}.

(** The progress observer of the [initialize] handler. *)
Definition loading_event : Callback (num := Q) (ProgressData (num := Q)) :=
  fun d => worker_message T_initialize S_progress (DataNotice (file d)).

(** A chat request whose session id is the empty string. *)
Definition empty_id_options : ChatGenerationOptions (num := Q) := {|
  message := js "Hi";
  sessionId := Some [];
  systemMessage := None;
  generationConfig := None
|}.

(** The messages of a first chat call with the default system message. *)
Definition hi_messages : list Message :=
  [DEFAULT_SYSTEM_MESSAGE; user_turn hi_options].

(** The events of the streaming observer, told from the others. *)
Definition is_streaming (m : WorkerMessage (num := Q)) : bool :=
  match status m with S_streaming => true | _ => false end.

(** The descriptor of the preset "smollm2-360m". *)
Definition small_model : ModelConfig (num := Q) := {|
  id := js "HuggingFaceTB/SmolLM2-360M-Instruct";
  dtype := js "q4f16";
  device := js "webgpu";
  size := num_mul (num_mul (num_mul (num_lit (3 # 10)) (num_lit 1024))
                           (num_lit 1024)) (num_lit 1024);
  description := js "SmolLM2 360M - Lightweight chat model"
|}.

(** A model runtime that never fails; the cache it returns names the
    call. *)
Definition steady_model : Model (num := Q) := {|
  generate k _ :=
    ([TokenCallback; TextCallback (js "Hello!")],
     Returned {| sequences := JRef 7%N;
                 past_key_values := JRef (100 + N.of_nat k)%N |})
|}.

(** A worker that has loaded it and has no session yet. *)
Definition steady_state : St (num := Q) := {|
  world := empty_world;
  pipe := {| tokenizer := Some example_tokenizer;
             model := Some steady_model;
             modelInfo := None;
             config := Some DEFAULT_GENERATION_CONFIG;
             sessionHistory := empty;
             currentStoppingCriteria := None |}
|}.

(** The request "Hi" on the default session. *)
Definition hi_call : Event (num := Q) := ChatBegin hi_options None None.

(** Two requests on the default session, the second sent while the
    first is suspended in the runtime: both calls run to their end. *)
Definition overlapping_calls : list (Event (num := Q)) :=
  [ hi_call; hi_call;
    Progress 0; Progress 0; Progress 1; Progress 1;
    Finish 0; Finish 0 ].

(** The same two requests, the second sent after the first has ended. *)
Definition calls_in_turn : list (Event (num := Q)) :=
  [ hi_call; Progress 0; Progress 0; Finish 0;
    hi_call; Progress 0; Progress 0; Finish 0 ].

(** A request on the default session whose runtime call fails, then one
    that completes. *)
Definition failed_then_completed : list (Event (num := Q)) :=
  [ hi_call; Progress 0; Progress 0; Finish 0;
    hi_call; Progress 0; Progress 0; Progress 0; Progress 0; Progress 0; Progress 0;
    Finish 0 ].

(** The worker after the turns [es], taken from the state [st] with
    nothing in flight. *)
Definition after_turns (es : list (Event (num := Q))) (st : St (num := Q))
  : Running (num := Q) :=
  default (idle st) (turns es (idle st)).

(** The tally of a history, the number of chat calls it leaves in flight
    on the key, the roles of the messages of the key's session, and
    whether the messages after the first alternate. *)
Definition outline (key : jsstring) (h : option (Running (num := Q) * Tally))
  : option (Tally * nat * list Role * bool) :=
  match h with
  | Some (a, t) =>
      match sessionHistory (pipe (now a)) !! key with
      | Some s => Some (t, flights_on key a, map role (messages s),
                        alternating (tail (messages s)))
      | None => None
      end
  | None => None
  end.









(** * Properties

    ** Scanning, splitting and the last occurrence *)

Lemma strip_prefix_Some p s r : strip_prefix p s = Some r <-> s = p ++ r.
Proof.
  revert s. induction p as [|a p IH]; intros s; simpl.
  - split; [intros [= ->]; reflexivity | intros ->; reflexivity].
  - destruct s as [|b s]; [split; [discriminate | intros [=]]|].
    destruct (N.eqb_spec a b) as [->|Hne].
    + rewrite IH. split; [intros ->; reflexivity | intros [= ->]; reflexivity].
    + split; [discriminate | intros [= -> _]; congruence].
Qed.

Lemma strip_prefix_None p s : strip_prefix p s = None -> forall r, s <> p ++ r.
Proof.
  intros H r Hs. apply strip_prefix_Some in Hs. congruence.
Qed.

Lemma split_scan_nonempty fuel sep piece s : split_scan fuel sep piece s <> [].
Proof.
  revert piece s. induction fuel as [|f IH]; intros piece s; simpl.
  - discriminate.
  - destruct s as [|c s']; [discriminate|].
    destruct (strip_prefix sep (c :: s')); [discriminate | apply IH].
Qed.

Lemma last_cons_nonempty {A} (x : A) (l : list A) : l <> [] -> last (x :: l) = last l.
Proof. destruct l; [congruence | reflexivity]. Qed.

(** Without an occurrence the scan yields one piece. *)
Lemma split_scan_no_occurrence fuel sep piece s :
  sep <> [] -> length s <= fuel -> ~ occurs_in sep s ->
  split_scan fuel sep piece s = [piece ++ s].
Proof.
  intros Hsep. revert piece s.
  induction fuel as [|f IH]; intros piece s Hlen Hno; simpl; [reflexivity|].
  destruct s as [|c s']; [reflexivity|].
  destruct (strip_prefix sep (c :: s')) as [rest|] eqn:Hp.
  - apply strip_prefix_Some in Hp. exfalso. apply Hno.
    exists [], rest. exact Hp.
  - rewrite IH.
    + rewrite <- app_assoc. reflexivity.
    + simpl in Hlen. lia.
    + intros (pre & post & ->). apply Hno.
      exists (c :: pre), post. reflexivity.
Qed.

(** Two occurrences of a border-free separator do not overlap. *)
Lemma border_free_no_overlap sep pre rest post :
  ~ bordered sep ->
  sep ++ rest = pre ++ sep ++ post ->
  pre = [] \/ exists pre', pre = sep ++ pre' /\ rest = pre' ++ sep ++ post.
Proof.
  intros Hnb Heq.
  destruct (app_eq_app _ _ _ _ Heq) as [l [[Hs Hr]|[Hs Hr]]].
  - (* sep = pre ++ l *)
    destruct pre as [|p pre]; [left; reflexivity|].
    destruct l as [|x l].
    + rewrite app_nil_r in Hs. simpl in Hr.
      right. exists []. rewrite app_nil_r. split; [congruence|].
      simpl. rewrite <- Hr. reflexivity.
    + exfalso.
      (* l is a suffix of sep and, by Hr, a prefix of it *)
      symmetry in Hr.
      destruct (app_eq_app _ _ _ _ Hr) as [l2 [[Hs2 Hr2]|[Hs2 Hr2]]].
      * (* x :: l = sep ++ l2: too long *)
        assert (Hl : length sep = length (p :: pre) + length (x :: l))
          by (rewrite Hs at 1; apply length_app).
        rewrite Hs2, length_app in Hl. simpl in Hl. lia.
      * destruct l2 as [|y l2].
        -- rewrite app_nil_r in Hs2.
           assert (Hl : length sep = length (p :: pre) + length (x :: l))
             by (rewrite Hs at 1; apply length_app).
           rewrite <- Hs2 in Hl. simpl in Hl. lia.
        -- apply Hnb. exists (x :: l), (y :: l2), (p :: pre).
           repeat split; [discriminate | discriminate | exact Hs2 | exact Hs].
  - (* pre = sep ++ l *)
    right. exists l. split; [exact Hs | exact Hr].
Qed.

(** With a border-free separator the last piece of the scan is the text
    after an occurrence that no other occurrence follows. *)
Lemma split_scan_last fuel sep piece pre post :
  sep <> [] -> ~ bordered sep -> ~ occurs_in sep post ->
  length (pre ++ sep ++ post) <= fuel ->
  last (split_scan fuel sep piece (pre ++ sep ++ post)) = Some post.
Proof.
  intros Hsep Hnb Hno. revert piece pre.
  induction fuel as [|f IH]; intros piece pre Hlen.
  - exfalso. rewrite !length_app in Hlen. destruct sep; [congruence|simpl in Hlen; lia].
  - destruct (pre ++ sep ++ post) as [|c s'] eqn:Hs.
    { exfalso. destruct pre; [destruct sep; [congruence|discriminate]|discriminate]. }
    simpl.
    destruct (strip_prefix sep (c :: s')) as [rest|] eqn:Hp.
    + apply strip_prefix_Some in Hp.
      rewrite last_cons_nonempty by apply split_scan_nonempty.
      assert (Hrest : length rest <= f).
      { assert (Hl : length (c :: s') = length sep + length rest)
          by (rewrite Hp; apply length_app).
        simpl in Hlen. destruct sep; [congruence|]. simpl in Hl. lia. }
      rewrite <- Hs in Hp. symmetry in Hp.
      destruct (border_free_no_overlap _ _ _ _ Hnb Hp) as [->|(pre' & -> & ->)].
      * simpl in Hp. apply app_inv_head in Hp. subst rest.
        rewrite split_scan_no_occurrence by assumption. reflexivity.
      * apply IH. exact Hrest.
    + destruct pre as [|p pre].
      * exfalso. simpl in Hs. eapply strip_prefix_None; [exact Hp|].
        symmetry. exact Hs.
      * simpl in Hs. injection Hs as -> <-.
        apply IH. simpl in Hlen. lia.
Qed.

Lemma border_free_sound sep : border_free sep = true -> ~ bordered sep.
Proof.
  intros Hbf (u & v & w & Hu & Hv & Huv & Hwu).
  unfold border_free in Hbf. rewrite forallb_forall in Hbf.
  assert (Hlen : length sep = length u + length v)
    by (rewrite Huv at 1; apply length_app).
  assert (Hlen' : length sep = length w + length u)
    by (rewrite Hwu at 1; apply length_app).
  assert (Hu' : 0 < length u) by (destruct u; [congruence | simpl; lia]).
  assert (Hv' : 0 < length v) by (destruct v; [congruence | simpl; lia]).
  specialize (Hbf (length w)).
  rewrite negb_true_iff, bool_decide_eq_false in Hbf.
  apply Hbf.
  - apply in_seq. lia.
  - replace (length sep - length w) with (length u) by lia.
    rewrite Hwu at 1. rewrite drop_app_length.
    rewrite Huv. rewrite take_app_length. reflexivity.
Qed.

Lemma occurs_at_app a sep b : occurs_at sep (a ++ sep ++ b) (length a) = true.
Proof.
  unfold occurs_at. apply bool_decide_eq_true.
  rewrite drop_app_length, take_app_length. reflexivity.
Qed.

Lemma occurs_at_split sep s i :
  sep <> [] -> occurs_at sep s i = true ->
  i < length s /\ s = take i s ++ sep ++ drop (i + length sep) s.
Proof.
  intros Hsep H. unfold occurs_at in H. apply bool_decide_eq_true in H.
  assert (Hi : i < length s).
  { destruct (decide (i < length s)) as [|Hge]; [assumption|].
    rewrite drop_ge in H by lia. rewrite take_nil in H. congruence. }
  split; [exact Hi|].
  rewrite <- (take_drop i s) at 1. f_equal.
  rewrite <- (take_drop (length sep) (drop i s)) at 1.
  rewrite H at 1. f_equal. rewrite drop_drop. reflexivity.
Qed.

Lemma last_occurrence_below_Some sep s n i :
  last_occurrence_below sep s n = Some i ->
  i < n /\ occurs_at sep s i = true /\
  forall j, i < j < n -> occurs_at sep s j = false.
Proof.
  induction n as [|k IH]; simpl; [discriminate|].
  destruct (occurs_at sep s k) eqn:Hk.
  - intros [= <-]. repeat split; [lia | exact Hk | intros j Hj; lia].
  - intros H. destruct (IH H) as (Hi & Ho & Hmax).
    repeat split; [lia | exact Ho |].
    intros j Hj. destruct (decide (j = k)) as [->|]; [exact Hk | apply Hmax; lia].
Qed.

Lemma last_occurrence_below_None sep s n :
  last_occurrence_below sep s n = None ->
  forall j, j < n -> occurs_at sep s j = false.
Proof.
  induction n as [|k IH]; simpl; [intros _ j Hj; lia|].
  destruct (occurs_at sep s k) eqn:Hk; [discriminate|].
  intros H j Hj. destruct (decide (j = k)) as [->|]; [exact Hk | apply IH; [exact H | lia]].
Qed.

(** The last piece of [split] is the text after the last occurrence. *)
Lemma last_split_after_last_occurrence sep s :
  sep <> [] -> ~ bordered sep ->
  last (split sep s) = Some (after_last_occurrence sep s).
Proof.
  intros Hsep Hnb. unfold split, after_last_occurrence, last_occurrence.
  destruct sep as [|c0 sep0] eqn:Esep; [congruence|]. rewrite <- Esep in *.
  clear Esep.
  destruct (last_occurrence_below sep s (S (length s))) as [i|] eqn:Hl.
  - apply last_occurrence_below_Some in Hl as (_ & Hocc & Hmax).
    destruct (occurs_at_split _ _ _ Hsep Hocc) as (Hi & Hs).
    set (post := drop (i + length sep) s) in *.
    assert (Hno : ~ occurs_in sep post).
    { intros (a & b & Hab).
      assert (Ht : occurs_at sep s (length (take i s ++ sep ++ a)) = true).
      { rewrite Hs at 1. rewrite Hab.
        replace (take i s ++ sep ++ a ++ sep ++ b)
          with ((take i s ++ sep ++ a) ++ sep ++ b)
          by (rewrite <- !app_assoc; reflexivity).
        apply occurs_at_app. }
      rewrite Hmax in Ht; [discriminate|].
      assert (Hls : length s = i + length sep + length a + length sep + length b).
      { rewrite Hs at 1. rewrite Hab. rewrite !length_app, length_take. lia. }
      rewrite !length_app, length_take.
      destruct sep; [congruence|]. simpl in *. lia. }
    rewrite Hs at 2.
    apply split_scan_last; try assumption.
    rewrite <- Hs. reflexivity.
  - rewrite split_scan_no_occurrence; [reflexivity | exact Hsep | reflexivity |].
    intros (a & b & Hab).
    assert (Ht : occurs_at sep s (length a) = true)
      by (rewrite Hab; apply occurs_at_app).
    rewrite (last_occurrence_below_None _ _ _ Hl) in Ht; [discriminate|].
    rewrite Hab, !length_app. lia.
Qed.

Lemma assistant_marker_border_free : ~ bordered assistant_marker.
Proof. apply border_free_sound. vm_compute. reflexivity. Qed.

Lemma assistant_marker_nonempty : assistant_marker <> [].
Proof. discriminate. Qed.

(** The code's final text is the specification's. *)
Lemma final_text_refines decoded0 generatedText :
  final_text decoded0 generatedText = final_text_spec decoded0 generatedText.
Proof.
  unfold final_text, final_text_spec.
  rewrite (last_split_after_last_occurrence _ _ assistant_marker_nonempty
             assistant_marker_border_free).
  simpl. destruct (trim _); reflexivity.
Qed.

(** ** The pipeline *)

Section WorkerProperties.
Context {num : Type} {JN : JsNumber num} {CK : Clocks num}.
Context {LH : LoadingHandlers (num := num)}.

Local Abbreviation St := (St (num := num)).
Local Abbreviation World := (World (num := num)).
Local Abbreviation Pipeline := (Pipeline (num := num)).
Local Abbreviation Props := (gmap jsstring (JsVal num)).
Local Abbreviation Locals := (Locals (num := num)).
Local Abbreviation SessionData := (SessionData (num := num)).
Local Abbreviation ChatGenerationOptions := (ChatGenerationOptions (num := num)).
Local Abbreviation SingleGenerationOptions := (SingleGenerationOptions (num := num)).
Local Abbreviation StreamObserver := (option (Callback (num := num) StreamData)).
Local Abbreviation RateObserver := (option (Callback (num := num) TokenStats)).

Ltac run :=
  unfold bind, ret, throw, lift, get_pipe, get_world, modify_world,
    modify_pipe, try_catch, postMessage, report_error, new_object, read_date,
    update_session in *;
  simpl in *.

Lemma St_eta (st : St) : {| world := world st; pipe := pipe st |} = st.
Proof. destruct st; reflexivity. Qed.

Lemma set_sessionHistory_id (p : Pipeline) : set_sessionHistory (sessionHistory p) p = p.
Proof. destruct p; reflexivity. Qed.

(** *** Object spread *)

Lemma spread_lookup (a b : Props) k :
  spread a b !! k = match b !! k with Some v => Some v | None => a !! k end.
Proof.
  unfold spread. destruct (b !! k) as [v|] eqn:Hb.
  - apply lookup_union_Some_l. exact Hb.
  - rewrite lookup_union_r by exact Hb. reflexivity.
Qed.

(** *** The session store *)

Lemma alter_present {A} (f : A -> A) (m : gmap jsstring A) k x :
  m !! k = Some x -> alter f k m = <[k := f x]> m.
Proof.
  intros H. apply map_eq. intros j. destruct (decide (k = j)) as [->|Hne].
  - rewrite lookup_alter_eq, lookup_insert_eq, H. reflexivity.
  - rewrite lookup_alter_ne, lookup_insert_ne by exact Hne. reflexivity.
Qed.

Lemma getSession_existing key sys (st : St) s :
  sessionHistory (pipe st) !! key = Some s ->
  getSession (Some key) sys st = (st, Returned s).
Proof.
  intros H. unfold getSession. run. rewrite H. reflexivity.
Qed.

Lemma getSession_fresh key sys (st : St) :
  sessionHistory (pipe st) !! key = None ->
  getSession (Some key) sys st =
    ({| world := tick_date (world st);
        pipe := set_sessionHistory (<[key := new_session sys st]> (sessionHistory (pipe st)))
                  (pipe st) |},
     Returned (new_session sys st)).
Proof.
  intros H. unfold getSession. run. rewrite H. reflexivity.
Qed.

Lemma initial_message_role sys : role (initial_message sys) = system.
Proof.
  unfold initial_message. destruct sys as [s|]; [destruct (str_truthy s)|]; reflexivity.
Qed.

(** *** The streamer's callbacks *)

Lemma same_records_refl (w : World) : same_records w w.
Proof. repeat split. Qed.

Lemma same_records_trans (w1 w2 w3 : World) :
  same_records w1 w2 -> same_records w2 w3 -> same_records w1 w3.
Proof.
  unfold same_records. intros (?&?&?&?&?) (?&?&?&?&?).
  repeat split; congruence.
Qed.

Lemma streamer_step_records (sc : StreamObserver) (tc : RateObserver) (lw : Locals * World) c :
  same_records (snd lw) (snd (streamer_step sc tc lw c)).
Proof.
  destruct lw as [l w], c as [|output]; simpl.
  - unfold tokenCallbackFunction.
    destruct (startTime l); simpl; destruct (Nat.ltb 0 (numTokens l));
      destruct tc; simpl; repeat split.
  - unfold streamCallbackFunction. destruct sc; simpl; repeat split.
Qed.

Lemma run_streamer_records (sc : StreamObserver) (tc : RateObserver) calls (l : Locals) (w : World) :
  same_records w (snd (run_streamer sc tc calls l w)).
Proof.
  unfold run_streamer.
  change w with (snd (l, w)) at 1. generalize (l, w) as lw.
  induction calls as [|c calls IH]; intros lw; simpl.
  - apply same_records_refl.
  - eapply same_records_trans; [apply streamer_step_records | apply IH].
Qed.

Lemma streamer_step_text (sc : StreamObserver) (tc : RateObserver) (lw : Locals * World) c :
  generatedText (fst (streamer_step sc tc lw c)) =
  generatedText (fst lw) ++ streamed_text [c].
Proof.
  destruct lw as [l w], c as [|output]; simpl.
  - unfold tokenCallbackFunction.
    destruct (startTime l); simpl; destruct (Nat.ltb 0 (numTokens l));
      destruct tc; simpl; rewrite app_nil_r; reflexivity.
  - unfold streamCallbackFunction. rewrite app_nil_r.
    destruct sc; reflexivity.
Qed.

(** [generatedText] accumulates the streamed text. *)
Lemma run_streamer_text (sc : StreamObserver) (tc : RateObserver) calls (l : Locals) (w : World) :
  generatedText (fst (run_streamer sc tc calls l w)) =
  generatedText l ++ streamed_text calls.
Proof.
  unfold run_streamer.
  change l with (fst (l, w)) at 2. generalize (l, w) as lw.
  induction calls as [|c calls IH]; intros lw; simpl.
  - rewrite app_nil_r. reflexivity.
  - rewrite IH, streamer_step_text. rewrite <- app_assoc. f_equal.
    destruct c; simpl; [reflexivity|]. rewrite app_nil_r. reflexivity.
Qed.

(** *** The coordinator *)

(** What a call of the coordinator leaves alone in the pipeline, and the
    entry it adds to the record of its calls. *)
Lemma generate_frame msgs cache cfg sc tc (st st' : St) r :
  _generate msgs cache cfg sc tc st = (st', r) ->
  tokenizer (pipe st') = tokenizer (pipe st) /\
  model (pipe st') = model (pipe st) /\
  config (pipe st') = config (pipe st) /\
  sessionHistory (pipe st') = sessionHistory (pipe st) /\
  coordinator_calls (world st') =
    coordinator_calls (world st) ++
      [{| call_messages := msgs; call_pastKeyValues := cache; call_config := cfg |}].
Proof.
  unfold _generate, model_generate, final_tps. run.
  destruct (tokenizer (pipe st)) as [t|] eqn:Et; simpl;
    [|intros [= <- <-]; simpl; repeat split; assumption].
  destruct (apply_chat_template t msgs) as [inputs|e]; simpl;
    [|intros [= <- <-]; simpl; repeat split; assumption].
  destruct (model (pipe st)) as [m|] eqn:Em; simpl;
    [|intros [= <- <-]; simpl; repeat split; assumption].
  match goal with |- context [generate m ?k ?a] =>
    destruct (generate m k a) as [calls outcome] end.
  match goal with |- context [run_streamer sc tc calls ?l ?w] =>
    pose proof (run_streamer_records sc tc calls l w) as Hrec;
    destruct (run_streamer sc tc calls l w) as [l' w'] end.
  destruct Hrec as (_ & Hc & _). simpl in Hc.
  destruct outcome as [out|e]; simpl;
    [|intros [= <- <-]; simpl; repeat split; assumption].
  destruct (batch_decode t (sequences out)) as [decoded|e]; simpl;
    [|intros [= <- <-]; simpl; repeat split; assumption].
  destruct decoded as [|d ds]; simpl;
    [intros [= <- <-]; simpl; repeat split; assumption|].
  destruct (startTime l') as [start|]; simpl;
    [destruct (num_truthy start); simpl|];
    intros [= <- <-]; simpl; repeat split; assumption.
Qed.

(** A call of the coordinator that returns went through the template,
    the runtime and the decoder. *)
Lemma generate_returned msgs cache cfg sc tc (st st' : St) r :
  _generate msgs cache cfg sc tc st = (st', Returned r) ->
  exists t m inputs calls out d ds,
    tokenizer (pipe st) = Some t /\
    model (pipe st) = Some m /\
    apply_chat_template t msgs = Returned inputs /\
    generate m (length (runtime_calls (world st)))
      (generate_arguments inputs cache cfg (objects (world st))
         (N.succ (objects (world st)))) = (calls, Returned out) /\
    runtime_calls (world st') =
      runtime_calls (world st) ++
        [{| generate_args :=
              generate_arguments inputs cache cfg (objects (world st))
                (N.succ (objects (world st)));
            generate_outcome := Returned out |}] /\
    batch_decode t (sequences out) = Returned (d :: ds) /\
    text r = final_text d (streamed_text calls) /\
    result_pastKeyValues r = past_key_values out.
Proof.
  unfold _generate, model_generate, final_tps. run.
  destruct (tokenizer (pipe st)) as [t|]; simpl; [|discriminate].
  destruct (apply_chat_template t msgs) as [inputs|e] eqn:Ht; simpl; [|discriminate].
  destruct (model (pipe st)) as [m|]; simpl; [|discriminate].
  match goal with |- context [generate m ?k ?a] =>
    destruct (generate m k a) as [calls outcome] eqn:Hg end.
  match goal with |- context [run_streamer sc tc calls ?l ?w] =>
    pose proof (run_streamer_records sc tc calls l w) as Hrec;
    pose proof (run_streamer_text sc tc calls l w) as Htext;
    destruct (run_streamer sc tc calls l w) as [l' w'] end.
  destruct Hrec as (_ & _ & Hr & _). simpl in Hr, Htext.
  destruct outcome as [out|e]; simpl; [|discriminate].
  destruct (batch_decode t (sequences out)) as [decoded|e] eqn:Hd; simpl; [|discriminate].
  destruct decoded as [|d ds]; simpl; [discriminate|].
  intros H. exists t, m, inputs, calls, out, d, ds.
  assert (Hres : text r = final_text d (streamed_text calls) /\
                 result_pastKeyValues r = past_key_values out /\
                 runtime_calls (world st') = runtime_calls w' ++
                   [{| generate_args :=
                         generate_arguments inputs cache cfg (objects (world st))
                           (N.succ (objects (world st)));
                       generate_outcome := Returned out |}]).
  { rewrite <- Htext.
    destruct (startTime l') as [start|]; simpl in H;
      [destruct (num_truthy start); simpl in H|];
      injection H as <- <-; simpl; repeat split. }
  destruct Hres as (H1 & H2 & H3). rewrite Hr in H3.
  repeat split; assumption.
Qed.

(** *** Chat mode *)

Lemma uninitialized_false (p : Pipeline) :
  uninitialized p = false <-> exists t m, tokenizer p = Some t /\ model p = Some m.
Proof.
  unfold uninitialized. destruct (model p) as [m|], (tokenizer p) as [t|]; split;
    try discriminate; try (intros (? & ? & ? & ?); discriminate).
  - intros _. exists t, m. split; reflexivity.
  - reflexivity.
Qed.

Lemma generateChat_uninitialized o sc tc (st : St) :
  uninitialized (pipe st) = true ->
  generateChat o sc tc st = (st, Threw not_initialized).
Proof.
  intros H. unfold generateChat. run. rewrite H. reflexivity.
Qed.

Lemma generateChat_run o sc tc (st st' : St) r :
  uninitialized (pipe st) = false ->
  generateChat o sc tc st = (st', r) ->
  exists st3 gr,
    _generate (messages (chat_session o st) ++ [user_turn o])
              (pastKeyValues (chat_session o st)) (chat_settings o st) sc tc
              (chat_pushed o st) = (st3, gr) /\
    match gr with
    | Threw e => st' = st3 /\ r = Threw e
    | Returned resp =>
        sessionHistory (pipe st') =
          <[session_key o :=
              set_pastKeyValues (result_pastKeyValues resp)
                (push_message {| role := assistant; content := text resp |}
                   (push_message (user_turn o) (chat_session o st)))]>
            (sessionHistory (pipe st)) /\
        world st' = world st3 /\
        tokenizer (pipe st') = tokenizer (pipe st3) /\
        model (pipe st') = model (pipe st3) /\
        config (pipe st') = config (pipe st3) /\
        r = Returned {| chat_text := text resp;
                        chat_sessionId := session_key o;
                        chat_messageCount := S (S (length (messages (chat_session o st))));
                        chat_tokensPerSecond := result_tokensPerSecond resp |}
    end.
Proof.
  intros Hinit. unfold generateChat. run. rewrite Hinit.
  unfold chat_pushed, chat_session, chat_settings.
  destruct (sessionHistory (pipe st) !! session_key o) as [s|] eqn:Hs.
  - rewrite (getSession_existing _ _ _ _ Hs). simpl.
    rewrite (alter_present _ _ _ _ Hs).
    match goal with |- context [_generate ?a ?b ?c ?d ?e ?f] =>
      destruct (_generate a b c d e f) as [st3 gr] eqn:Hg end.
    intros H. exists st3, gr. split; [first [reflexivity | exact Hg]|].
    destruct (generate_frame _ _ _ _ _ _ _ _ Hg) as (Ht & Hm & Hc & Hh & _).
    simpl in Hh.
    destruct gr as [resp|e]; injection H as <- <-; [|split; reflexivity].
    simpl. rewrite Hh.
    rewrite (alter_present _ _ _ _ (lookup_insert_eq _ _ _)), insert_insert_eq.
    rewrite lookup_insert_eq. simpl. rewrite !length_app. simpl.
    repeat split. f_equal. f_equal. lia.
  - rewrite (getSession_fresh _ _ _ Hs). simpl.
    rewrite (alter_present _ _ _ _ (lookup_insert_eq _ _ _)), insert_insert_eq.
    match goal with |- context [_generate ?a ?b ?c ?d ?e ?f] =>
      destruct (_generate a b c d e f) as [st3 gr] eqn:Hg end.
    intros H. exists st3, gr. split; [first [reflexivity | exact Hg]|].
    destruct (generate_frame _ _ _ _ _ _ _ _ Hg) as (Ht & Hm & Hc & Hh & _).
    simpl in Hh.
    destruct gr as [resp|e]; injection H as <- <-; [|split; reflexivity].
    simpl. rewrite Hh.
    rewrite (alter_present _ _ _ _ (lookup_insert_eq _ _ _)), insert_insert_eq.
    rewrite lookup_insert_eq. simpl.
    repeat split.
Qed.

(** What a chat call on a loaded model does to the pipeline: the session
    of its key gets the user turn and, when the call returns, the
    assistant turn and the cache; nothing else changes. *)
Lemma generateChat_pipe o sc tc (st st' : St) r :
  uninitialized (pipe st) = false ->
  generateChat o sc tc st = (st', r) ->
  uninitialized (pipe st') = false /\
  config (pipe st') = config (pipe st) /\
  exists s',
    sessionHistory (pipe st') = <[session_key o := s']> (sessionHistory (pipe st)) /\
    createdAt s' = createdAt (chat_session o st) /\
    match r with
    | Threw _ =>
        messages s' = messages (chat_session o st) ++ [user_turn o] /\
        pastKeyValues s' = pastKeyValues (chat_session o st)
    | Returned res =>
        messages s' = messages (chat_session o st) ++
                      [user_turn o; {| role := assistant; content := chat_text res |}]
    end.
Proof.
  intros Hinit H.
  destruct (generateChat_run _ _ _ _ _ _ Hinit H) as (st3 & gr & Hg & Hr).
  destruct (generate_frame _ _ _ _ _ _ _ _ Hg) as (Ht & Hm & Hc & Hh & _).
  simpl in Ht, Hm, Hc, Hh.
  destruct gr as [resp|e].
  - destruct Hr as (Hs & _ & Ht' & Hm' & Hc' & ->).
    split; [|split].
    + unfold uninitialized in *. rewrite Hm', Ht', Hm, Ht. exact Hinit.
    + congruence.
    + eexists. split; [exact Hs|]. simpl. split; [reflexivity|].
      rewrite <- app_assoc. reflexivity.
  - destruct Hr as (-> & ->).
    split; [|split].
    + unfold uninitialized in *. rewrite Hm, Ht. exact Hinit.
    + exact Hc.
    + eexists. split; [exact Hh|]. simpl. repeat split.
Qed.

(** *** The token-rate accounting *)

(** The invariant of the streamer's run, after [j] tokens of a call that
    began when the clock had been read [r0] times. *)
Lemma run_streamer_rates (sc : StreamObserver) (cb : Callback TokenStats)
    (P : WorkerMessage -> bool) r0 ob0 calls :
  (forall d, P (cb d) = true) ->
  (forall f d, sc = Some f -> P (f d) = false) ->
  forall (l : Locals) (w : World) j posted0,
    numTokens l = j ->
    perf_reads w = r0 + j ->
    startTime l = (if Nat.eqb j 0 then None else Some (performance_now r0)) ->
    outbox w = ob0 ++ posted0 ->
    List.filter P posted0 = map (fun k => cb (rate_at r0 k)) (seq 2 (j - 1)) ->
    exists posted,
      outbox (snd (run_streamer sc (Some cb) calls l w)) = ob0 ++ posted /\
      List.filter P posted =
        map (fun k => cb (rate_at r0 k)) (seq 2 (j + emitted_tokens calls - 1)).
Proof.
  intros Hcb Hsc. unfold run_streamer.
  induction calls as [|c calls IH]; intros l w j posted0 Hn Hp Hs Ho Hf; simpl.
  - exists posted0. rewrite Nat.add_0_r. split; assumption.
  - destruct c as [|output]; simpl.
    + unfold tokenCallbackFunction. rewrite Hs, Hn.
      destruct j as [|j']; simpl.
      * match goal with |- context [seq 2 ?n] =>
          replace n with (1 + emitted_tokens calls - 1) by lia end.
        apply (IH _ _ 1 posted0); simpl; try assumption; try reflexivity.
        -- lia.
        -- rewrite Hp, Nat.add_0_r. reflexivity.
      * match goal with |- context [seq 2 ?n] =>
          replace n with (S (S j') + emitted_tokens calls - 1) by lia end.
        apply (IH _ _ (S (S j')) (posted0 ++
                 [cb {| tokensPerSecond :=
                          num_mul (num_div (num_of_nat (S (S j')))
                                     (num_sub (performance_now (perf_reads w))
                                              (performance_now r0)))
                                  (num_of_nat 1000);
                        stats_tokenCount := S (S j') |}]));
          simpl; try reflexivity.
        -- lia.
        -- rewrite Ho, <- app_assoc. reflexivity.
        -- rewrite List.filter_app, Hf. simpl. rewrite Hcb.
           rewrite Nat.sub_0_r.
           change (cb (rate_at r0 2) :: map (fun k => cb (rate_at r0 k)) (seq 3 j'))
             with (map (fun k => cb (rate_at r0 k)) (seq 2 (S j'))).
           rewrite (seq_S j' 2), map_app. cbn [map Nat.add].
           f_equal. f_equal. f_equal. unfold rate_at. rewrite Hp.
           replace (r0 + S (S j') - 1) with (r0 + S j') by lia. reflexivity.
    + unfold streamCallbackFunction.
      destruct sc as [f|]; simpl.
      * apply (IH _ _ j (posted0 ++
                 [f {| token := output; fullText := generatedText l ++ output;
                       tokenCount := numTokens l |}])); simpl; try assumption.
        -- rewrite Ho, <- app_assoc. reflexivity.
        -- rewrite List.filter_app, Hf. simpl.
           rewrite (Hsc f _ eq_refl). rewrite app_nil_r. reflexivity.
      * apply (IH _ _ j posted0); simpl; assumption.
Qed.

(** The messages a call of the coordinator posts are the ones its
    streamer posts. *)
Lemma generate_outbox msgs cache cfg sc tc (st : St) tk m inputs calls outcome :
  tokenizer (pipe st) = Some tk ->
  model (pipe st) = Some m ->
  apply_chat_template tk msgs = Returned inputs ->
  generate m (length (runtime_calls (world st)))
    (generate_arguments inputs cache cfg (objects (world st))
       (N.succ (objects (world st)))) = (calls, outcome) ->
  exists (l : Locals) (w : World),
    outbox w = outbox (world st) /\ perf_reads w = perf_reads (world st) /\
    startTime l = None /\ numTokens l = 0 /\
    outbox (world (fst (_generate msgs cache cfg sc tc st))) =
      outbox (snd (run_streamer sc tc calls l w)).
Proof.
  intros Ht Hm Hi Hg.
  unfold _generate, model_generate, final_tps. run.
  rewrite Ht. simpl. rewrite Hi. simpl. rewrite Hm. simpl. rewrite Hg.
  match goal with |- context [run_streamer sc tc calls ?l ?w] =>
    exists l, w; repeat split;
    destruct (run_streamer sc tc calls l w) as [l' w'] end.
  destruct outcome as [out|e]; simpl; [|reflexivity].
  destruct (batch_decode tk (sequences out)) as [decoded|e]; simpl; [|reflexivity].
  destruct decoded as [|d ds]; simpl; [reflexivity|].
  destruct (startTime l') as [start|]; simpl;
    [destruct (num_truthy start); simpl|]; reflexivity.
Qed.


(** *** Single mode and the handlers *)

Lemma generateSingle_uninitialized o sc tc (st : St) :
  uninitialized (pipe st) = true ->
  generateSingle o sc tc st = (st, Threw not_initialized).
Proof.
  intros H. unfold generateSingle. run. rewrite H. reflexivity.
Qed.

Lemma generateSingle_run o sc tc (st st' : St) r :
  uninitialized (pipe st) = false ->
  generateSingle o sc tc st = (st', r) ->
  exists gr,
    _generate (single_messages o) JNull
      (spread (props_of (config (pipe st))) (default empty (single_generationConfig o)))
      sc tc st = (st', gr).
Proof.
  intros Hinit. unfold generateSingle, single_messages. run. rewrite Hinit.
  match goal with |- context [_generate ?a ?b ?c ?d ?e ?f] =>
    destruct (_generate a b c d e f) as [st3 gr] end.
  destruct gr as [resp|e]; intros [= <- <-]; eexists; reflexivity.
Qed.

Lemma generateSingle_sessions o sc tc (st : St) :
  sessionHistory (pipe (fst (generateSingle o sc tc st))) = sessionHistory (pipe st).
Proof.
  destruct (uninitialized (pipe st)) eqn:Hinit.
  - rewrite generateSingle_uninitialized by exact Hinit. reflexivity.
  - destruct (generateSingle o sc tc st) as [st' r] eqn:H.
    destruct (generateSingle_run _ _ _ _ _ _ Hinit H) as (gr & Hg).
    apply generate_frame in Hg. simpl. apply Hg.
Qed.

Lemma handle_generateSingle_pipe o (st : St) :
  pipe (fst (handle_generateSingle o st)) =
  pipe (fst (generateSingle o (Some (streaming_event T_generateSingle))
               (Some (token_stats_event T_generateSingle))
               {| world := post (worker_message T_generateSingle S_start DataEmpty) (world st);
                  pipe := pipe st |})).
Proof.
  unfold handle_generateSingle. run.
  match goal with |- context [generateSingle ?a ?b ?c ?d] =>
    destruct (generateSingle a b c d) as [st' r] end.
  destruct r; reflexivity.
Qed.

(** C5. A single-mode call leaves the session store as it was, whether
    it returns or throws: the store after the call is the store before,
    so [getSessionInfo] gives the same answer for every session id; the
    same holds for the request [generateSingle] served by its handler. *)
Theorem generateSingle_leaves_session_store o sc tc (st : St) :
  sessionHistory (pipe (fst (generateSingle o sc tc st))) = sessionHistory (pipe st) /\
  (forall id, getSessionInfo id (pipe (fst (generateSingle o sc tc st))) =
              getSessionInfo id (pipe st)) /\
  (forall id, getSessionInfo id (pipe (fst (handle_generateSingle o st))) =
              getSessionInfo id (pipe st)).
Proof.
  split; [apply generateSingle_sessions|]. split; intros id; unfold getSessionInfo.
  - rewrite generateSingle_sessions. reflexivity.
  - rewrite handle_generateSingle_pipe, generateSingle_sessions. reflexivity.
Qed.

(** C6. A generation call made before a model is loaded, in chat or in
    single mode, throws the error "Model not initialized. Call
    initialize() first." and leaves the whole state as it was; served by
    its handler, the request posts the start event and then the error
    event, and the pipeline, with its sessions, is untouched. *)
Theorem uninitialized_call_rejected (st : St) :
  uninitialized (pipe st) = true ->
  (forall o sc tc, generateChat o sc tc st = (st, Threw not_initialized)) /\
  (forall o sc tc, generateSingle o sc tc st = (st, Threw not_initialized)) /\
  (forall o,
     pipe (fst (handle_generateChat o st)) = pipe st /\
     outbox (world (fst (handle_generateChat o st))) =
       outbox (world st) ++
         [ worker_message T_generateChat S_start
             (DataSessionId (sessionId_or_default (sessionId o)));
           worker_message T_generateChat S_error
             (DataError (js "Model not initialized. Call initialize() first.")) ]) /\
  (forall o,
     pipe (fst (handle_generateSingle o st)) = pipe st /\
     outbox (world (fst (handle_generateSingle o st))) =
       outbox (world st) ++
         [ worker_message T_generateSingle S_start DataEmpty;
           worker_message T_generateSingle S_error
             (DataError (js "Model not initialized. Call initialize() first.")) ]).
Proof.
  intros H. split; [|split; [|split]].
  - intros. apply generateChat_uninitialized. exact H.
  - intros. apply generateSingle_uninitialized. exact H.
  - intros o. unfold handle_generateChat. run.
    rewrite generateChat_uninitialized by exact H. simpl.
    rewrite <- app_assoc. split; reflexivity.
  - intros o. unfold handle_generateSingle. run.
    rewrite generateSingle_uninitialized by exact H. simpl.
    rewrite <- app_assoc. split; reflexivity.
Qed.

Lemma getSession_stored id sys (st : St) s :
  sessionHistory (pipe st) !! default default_session id = Some s ->
  getSession id sys st = (st, Returned s).
Proof.
  intros H. unfold getSession. run. rewrite H. reflexivity.
Qed.

(** C10. On a session that is in the store, [getSession] returns the
    stored session and changes nothing, whatever custom system message
    it is given; a chat call on that session does the same with any
    custom system message as with any other, and the session's earlier
    messages stay, in order, at the front of its sequence. *)
Theorem existing_session_ignores_system_message id sys (st : St) s :
  sessionHistory (pipe st) !! default default_session id = Some s ->
  getSession id sys st = (st, Returned s) /\
  (forall o sc tc,
     session_key o = default default_session id ->
     generateChat (with_systemMessage sys o) sc tc st = generateChat o sc tc st) /\
  (forall o sc tc,
     session_key o = default default_session id ->
     uninitialized (pipe st) = false ->
     exists s' more,
       sessionHistory (pipe (fst (generateChat (with_systemMessage sys o) sc tc st)))
         !! default default_session id = Some s' /\
       messages s' = messages s ++ more).
Proof.
  intros Hs. split; [apply getSession_stored; exact Hs|]. split.
  - intros o sc tc Hk. rewrite <- Hk in Hs.
    unfold generateChat. run.
    destruct (uninitialized (pipe st)); [reflexivity|].
    change (session_key (with_systemMessage sys o)) with (session_key o).
    rewrite !(getSession_existing _ _ _ _ Hs). reflexivity.
  - intros o sc tc Hk Hinit.
    destruct (generateChat (with_systemMessage sys o) sc tc st) as [st' r] eqn:H.
    destruct (generateChat_pipe _ _ _ _ _ _ Hinit H) as (_ & _ & s' & Hh & _ & Hm).
    change (session_key (with_systemMessage sys o)) with (session_key o) in *.
    unfold chat_session in Hm.
    change (session_key (with_systemMessage sys o)) with (session_key o) in *.
    rewrite Hk, Hs in Hm. simpl. rewrite Hh, Hk, lookup_insert_eq.
    exists s'. destruct r; [eexists|exists [user_turn (with_systemMessage sys o)]];
      split; try reflexivity; apply Hm.
Qed.

(** C4. During a call of the coordinator with a token-rate observer,
    when the runtime emits n tokens the observer is called n - 1 times,
    in order, for the tokens 2, ..., n and not for the first: the call
    for token k has token count k and the rate
    k / (clock at token k - clock at the first token) * 1000.
    The calls are read off the outbox: [P] tells the messages the rate
    observer posts from the ones the streaming observer posts. *)
Theorem rate_observer_invocations msgs cache cfg (sc : StreamObserver)
    (cb : Callback TokenStats) (P : WorkerMessage -> bool)
    (st : St) tk m inputs calls outcome :
  tokenizer (pipe st) = Some tk ->
  model (pipe st) = Some m ->
  apply_chat_template tk msgs = Returned inputs ->
  generate m (length (runtime_calls (world st)))
    (generate_arguments inputs cache cfg (objects (world st))
       (N.succ (objects (world st)))) = (calls, outcome) ->
  (forall d, P (cb d) = true) ->
  (forall f d, sc = Some f -> P (f d) = false) ->
  exists posted,
    outbox (world (fst (_generate msgs cache cfg sc (Some cb) st))) =
      outbox (world st) ++ posted /\
    List.filter P posted =
      map (fun k => cb (rate_at (perf_reads (world st)) k))
          (seq 2 (emitted_tokens calls - 1)).
Proof.
  intros Ht Hm Hi Hg Hcb Hsc.
  destruct (generate_outbox msgs cache cfg sc (Some cb) st tk m inputs calls outcome
              Ht Hm Hi Hg) as (l & w & Ho & Hp & Hs & Hn & Hout).
  rewrite Hout.
  destruct (run_streamer_rates sc cb P (perf_reads (world st)) (outbox (world st))
              calls Hcb Hsc l w 0 []) as (posted & H1 & H2).
  - exact Hn.
  - rewrite Hp. lia.
  - exact Hs.
  - rewrite Ho, app_nil_r. reflexivity.
  - reflexivity.
  - exists posted. split; assumption.
Qed.

(** C8. When a call of the coordinator returns, the runtime returned
    sequences that the tokenizer decoded to at least one text, and the
    final text is what follows the last occurrence of the marker
    "assistant\n" in the first decoded text (the whole of it when the
    marker does not occur), trimmed of white space at both ends; when
    that is empty, it is the text streamed during the call. *)
Theorem final_text_after_last_marker msgs cache cfg sc tc (st st' : St) r :
  _generate msgs cache cfg sc tc st = (st', Returned r) ->
  exists tk m inputs calls out d ds,
    tokenizer (pipe st) = Some tk /\
    model (pipe st) = Some m /\
    apply_chat_template tk msgs = Returned inputs /\
    generate m (length (runtime_calls (world st)))
      (generate_arguments inputs cache cfg (objects (world st))
         (N.succ (objects (world st)))) = (calls, Returned out) /\
    batch_decode tk (sequences out) = Returned (d :: ds) /\
    text r = final_text_spec d (streamed_text calls).
Proof.
  intros H.
  destruct (generate_returned _ _ _ _ _ _ _ _ H)
    as (tk & m & inputs & calls & out & d & ds & Ht & Hm & Hi & Hg & _ & Hd & Htext & _).
  exists tk, m, inputs, calls, out, d, ds.
  repeat split; try assumption.
  rewrite Htext, final_text_refines. reflexivity.
Qed.

(** *** The record of the coordinator's calls *)

Lemma generateChat_initialized o sc tc (st st' : St) r :
  generateChat o sc tc st = (st', Returned r) -> uninitialized (pipe st) = false.
Proof.
  destruct (uninitialized (pipe st)) eqn:H; [|reflexivity].
  rewrite generateChat_uninitialized by exact H. discriminate.
Qed.

Lemma chat_pushed_records o (st : St) :
  coordinator_calls (world (chat_pushed o st)) = coordinator_calls (world st) /\
  runtime_calls (world (chat_pushed o st)) = runtime_calls (world st) /\
  objects (world (chat_pushed o st)) = objects (world st) /\
  outbox (world (chat_pushed o st)) = outbox (world st).
Proof.
  unfold chat_pushed. simpl.
  destruct (sessionHistory (pipe st) !! session_key o); repeat split.
Qed.

(** A chat call on a loaded model enters the coordinator once, with the
    session's messages and the user turn, the session's cache, and the
    merged settings. *)
Lemma generateChat_coordinator o sc tc (st st' : St) r :
  uninitialized (pipe st) = false ->
  generateChat o sc tc st = (st', r) ->
  coordinator_calls (world st') =
    coordinator_calls (world st) ++
      [{| call_messages := messages (chat_session o st) ++ [user_turn o];
          call_pastKeyValues := pastKeyValues (chat_session o st);
          call_config := chat_settings o st |}].
Proof.
  intros Hinit H.
  destruct (generateChat_run _ _ _ _ _ _ Hinit H) as (st3 & gr & Hg & Hr).
  destruct (generate_frame _ _ _ _ _ _ _ _ Hg) as (_ & _ & _ & _ & Hc).
  destruct (chat_pushed_records o st) as (Hc0 & _).
  rewrite Hc0 in Hc.
  destruct gr as [resp|e].
  - destruct Hr as (_ & -> & _). exact Hc.
  - destruct Hr as (-> & _). exact Hc.
Qed.

Lemma generateSingle_coordinator o sc tc (st st' : St) r :
  uninitialized (pipe st) = false ->
  generateSingle o sc tc st = (st', r) ->
  coordinator_calls (world st') =
    coordinator_calls (world st) ++
      [{| call_messages := single_messages o;
          call_pastKeyValues := JNull;
          call_config := spread (props_of (config (pipe st)))
                                (default empty (single_generationConfig o)) |}].
Proof.
  intros Hinit H.
  destruct (generateSingle_run _ _ _ _ _ _ Hinit H) as (gr & Hg).
  apply generate_frame in Hg. apply Hg.
Qed.

(** C7. The settings a generation call on a loaded model passes to the
    coordinator are the pipeline's settings overridden key by key by the
    settings of the call: a key of the call's settings has the call's
    value, any other key has the pipeline's. With the pipeline's
    settings {temperature: 0.7, max_new_tokens: 1024} and the call's
    {max_new_tokens: 256}, temperature is 0.7 and max_new_tokens 256. *)
Theorem effective_settings_override (st : St) :
  uninitialized (pipe st) = false ->
  (forall o sc tc, exists c,
     coordinator_calls (world (fst (generateChat o sc tc st))) =
       coordinator_calls (world st) ++ [c] /\
     forall k, call_config c !! k =
       match default empty (generationConfig o) !! k with
       | Some v => Some v
       | None => props_of (config (pipe st)) !! k
       end) /\
  (forall o sc tc, exists c,
     coordinator_calls (world (fst (generateSingle o sc tc st))) =
       coordinator_calls (world st) ++ [c] /\
     forall k, call_config c !! k =
       match default empty (single_generationConfig o) !! k with
       | Some v => Some v
       | None => props_of (config (pipe st)) !! k
       end) /\
  (config (pipe st) =
     Some (list_to_map [ (js "temperature", JNum (num_lit (7 # 10)));
                         (js "max_new_tokens", JNum (num_lit 1024)) ]) ->
   forall o sc tc,
     generationConfig o = Some (list_to_map [ (js "max_new_tokens", JNum (num_lit 256)) ]) ->
     exists c,
       last (coordinator_calls (world (fst (generateChat o sc tc st)))) = Some c /\
       call_config c =
         list_to_map [ (js "temperature", JNum (num_lit (7 # 10)));
                       (js "max_new_tokens", JNum (num_lit 256)) ]).
Proof.
  intros Hinit. split; [|split].
  - intros o sc tc. destruct (generateChat o sc tc st) as [st' r] eqn:H.
    eexists. split; [apply (generateChat_coordinator _ _ _ _ _ _ Hinit H)|].
    intros k. simpl. unfold chat_settings. apply spread_lookup.
  - intros o sc tc. destruct (generateSingle o sc tc st) as [st' r] eqn:H.
    eexists. split; [apply (generateSingle_coordinator _ _ _ _ _ _ Hinit H)|].
    intros k. simpl. apply spread_lookup.
  - intros Hc o sc tc Ho. destruct (generateChat o sc tc st) as [st' r] eqn:H.
    eexists. split.
    + simpl. rewrite (generateChat_coordinator _ _ _ _ _ _ Hinit H).
      apply last_snoc.
    + simpl. unfold chat_settings. rewrite Hc, Ho. simpl.
      apply map_eq. intros k. rewrite spread_lookup.
      destruct (decide (k = js "max_new_tokens")) as [->|Hk].
      * rewrite lookup_insert_eq.
        rewrite lookup_insert_ne by discriminate.
        rewrite lookup_insert_eq. reflexivity.
      * rewrite (lookup_insert_ne _ (js "max_new_tokens") k) by congruence.
        rewrite lookup_empty.
        destruct (decide (k = js "temperature")) as [->|Hk'].
        -- rewrite !lookup_insert_eq. reflexivity.
        -- rewrite !lookup_insert_ne by congruence. reflexivity.
Qed.

(** *** Failure of the runtime *)

Lemma generate_runtime_threw msgs cache cfg sc tc (st : St) tk m inputs calls e :
  tokenizer (pipe st) = Some tk ->
  model (pipe st) = Some m ->
  apply_chat_template tk msgs = Returned inputs ->
  generate m (length (runtime_calls (world st)))
    (generate_arguments inputs cache cfg (objects (world st))
       (N.succ (objects (world st)))) = (calls, Threw e) ->
  snd (_generate msgs cache cfg sc tc st) = Threw e.
Proof.
  intros Ht Hm Hi Hg.
  unfold _generate, model_generate, final_tps. run.
  rewrite Ht. simpl. rewrite Hi. simpl. rewrite Hm. simpl. rewrite Hg.
  match goal with |- context [run_streamer sc tc calls ?l ?w] =>
    destruct (run_streamer sc tc calls l w) as [l' w'] end.
  reflexivity.
Qed.

Lemma handle_generateChat_threw o (st st' : St) e :
  generateChat o (Some (streaming_event T_generateChat))
    (Some (token_stats_event T_generateChat))
    {| world := post (worker_message T_generateChat S_start
                        (DataSessionId (sessionId_or_default (sessionId o))))
                     (world st);
       pipe := pipe st |} = (st', Threw e) ->
  handle_generateChat o st =
    ({| world := post (worker_message T_generateChat S_error (DataError (describe e)))
                      (world st');
        pipe := pipe st' |}, Returned tt).
Proof.
  intros H. unfold handle_generateChat. run. rewrite H. reflexivity.
Qed.

(** C1, as the code has it. When the runtime throws during a chat
    request on a session that is in the store, the handler reports the
    error as the last event it posts, and the session keeps its cache
    and its creation time and every other session is as before; the
    session's messages are the earlier ones followed by the user turn
    of the failed call. *)
Theorem chat_runtime_failure_keeps_user_turn o (st : St) tk m s inputs calls e :
  tokenizer (pipe st) = Some tk ->
  model (pipe st) = Some m ->
  sessionHistory (pipe st) !! session_key o = Some s ->
  apply_chat_template tk (messages s ++ [user_turn o]) = Returned inputs ->
  generate m (length (runtime_calls (world st)))
    (generate_arguments inputs (pastKeyValues s) (chat_settings o st)
       (objects (world st)) (N.succ (objects (world st)))) = (calls, Threw e) ->
  last (outbox (world (fst (handle_generateChat o st)))) =
    Some (worker_message T_generateChat S_error (DataError (describe e))) /\
  sessionHistory (pipe (fst (handle_generateChat o st))) =
    <[session_key o := {| messages := messages s ++ [user_turn o];
                          pastKeyValues := pastKeyValues s;
                          createdAt := createdAt s |}]>
      (sessionHistory (pipe st)).
Proof.
  intros Ht Hm Hs Hi Hg.
  set (st_s := {| world := post (worker_message T_generateChat S_start
                                  (DataSessionId (sessionId_or_default (sessionId o))))
                               (world st);
                  pipe := pipe st |}).
  assert (Hinit : uninitialized (pipe st_s) = false)
    by (apply uninitialized_false; exists tk, m; split; assumption).
  destruct (generateChat o (Some (streaming_event T_generateChat))
              (Some (token_stats_event T_generateChat)) st_s) as [st' r] eqn:H.
  destruct (generateChat_run _ _ _ _ _ _ Hinit H) as (st3 & gr & Hgen & Hr).
  assert (Hsess : chat_session o st_s = s)
    by (unfold chat_session; simpl; rewrite Hs; reflexivity).
  rewrite Hsess in Hgen.
  assert (Hthrew : gr = Threw e).
  { change gr with (snd (st3, gr)). rewrite <- Hgen.
    apply (generate_runtime_threw _ _ _ _ _ _ tk m inputs calls e).
    - exact Ht.
    - exact Hm.
    - exact Hi.
    - unfold chat_pushed. simpl. rewrite Hs. simpl. exact Hg. }
  subst gr. destruct Hr as (-> & ->).
  rewrite (handle_generateChat_threw _ _ _ _ H). simpl.
  split; [apply last_snoc|].
  destruct (generate_frame _ _ _ _ _ _ _ _ Hgen) as (_ & _ & _ & Hh & _).
  rewrite Hh. simpl. rewrite Hsess. reflexivity.
Qed.

(** *** The listener *)

(** A type that is neither a handler nor a property of
    [Object.prototype] is answered with one error event naming it. *)
Lemma unknown_type_reported ty d (st : St) :
  messageHandlers ty = Missing ->
  exists c,
    listener {| event_type := ty; event_data := d |} = Some c /\
    c st = ({| world := post (worker_message T_error S_error
                               (DataError (js "Unknown message type: " ++ ty)))
                             (world st);
               pipe := pipe st |}, Returned tt).
Proof.
  intros H. unfold listener. simpl. rewrite H. eexists. split; reflexivity.
Qed.

(** C9 at the type "toString". The property read
    [messageHandlers["toString"]] finds [Object.prototype.toString],
    which is truthy: the listener calls it as the handler, it returns,
    and no event is posted; the state is as before the request. *)
Theorem inherited_property_request_dropped d (st : St) :
  messageHandlers (js "toString") = Inherited false /\
  exists c,
    listener {| event_type := js "toString"; event_data := d |} = Some c /\
    c st = (st, Returned tt).
Proof.
  split; [reflexivity|]. eexists. split; reflexivity.
Qed.

(** A request whose type is a property of [Object.prototype] posts
    nothing. *)
Lemma inherited_type_dropped ty throws d (st : St) :
  messageHandlers ty = Inherited throws ->
  exists c r,
    listener {| event_type := ty; event_data := d |} = Some c /\
    c st = (st, r).
Proof.
  intros H. unfold listener. simpl. rewrite H.
  destruct throws; eexists _, _; split; reflexivity.
Qed.


(** ** Further properties of the pipeline and of the handlers *)

(** X1. [clearSession] never throws and removes the session of its key
    and nothing else: the other sessions, the loaded model, the settings
    and the world are as before; on a key that has no session the state
    is unchanged. *)
Theorem clearSession_removes_only_its_key id (st : St) :
  snd (clearSession id st) = Returned tt /\
  world (fst (clearSession id st)) = world st /\
  sessionHistory (pipe (fst (clearSession id st))) =
    delete (default default_session id) (sessionHistory (pipe st)) /\
  set_sessionHistory (sessionHistory (pipe st)) (pipe (fst (clearSession id st))) = pipe st /\
  (sessionHistory (pipe st) !! default default_session id = None ->
   fst (clearSession id st) = st).
Proof.
  unfold clearSession. run.
  destruct (sessionHistory (pipe st) !! default default_session id) as [s|] eqn:Hs; simpl.
  - repeat split; [destruct (pipe st); reflexivity | discriminate].
  - repeat split.
    + rewrite delete_id by exact Hs. reflexivity.
    + apply set_sessionHistory_id.
Qed.

(** X2. After a session is cleared, the next chat call on its key on a
    loaded model starts afresh: the coordinator gets the system message
    and the user turn only, and the null cache, whatever the cleared
    session held. *)
Theorem cleared_session_starts_afresh o sc tc (st : St) :
  uninitialized (pipe st) = false ->
  coordinator_calls
    (world (fst (generateChat o sc tc (fst (clearSession (Some (session_key o)) st))))) =
  coordinator_calls (world st) ++
    [{| call_messages := [initial_message (systemMessage o); user_turn o];
        call_pastKeyValues := JNull;
        call_config := chat_settings o st |}].
Proof.
  intros Hinit.
  destruct (clearSession_removes_only_its_key (Some (session_key o)) st)
    as (_ & Hw & Hh & Hp & _).
  set (st1 := fst (clearSession (Some (session_key o)) st)) in *.
  assert (Hp1 : pipe st1 = set_sessionHistory (sessionHistory (pipe st1)) (pipe st)).
  { rewrite <- Hp. destruct (pipe st1); reflexivity. }
  assert (Hinit1 : uninitialized (pipe st1) = false) by (rewrite Hp1; exact Hinit).
  destruct (generateChat o sc tc st1) as [st' r] eqn:H.
  simpl. rewrite (generateChat_coordinator _ _ _ _ _ _ Hinit1 H).
  fold st1. rewrite Hw. f_equal. f_equal.
  unfold chat_session, chat_settings. simpl in Hh. rewrite Hh, lookup_delete_eq.
  rewrite Hp1. reflexivity.
Qed.

Lemma generateChat_other_sessions o sc tc (st : St) key :
  key <> session_key o ->
  sessionHistory (pipe (fst (generateChat o sc tc st))) !! key =
  sessionHistory (pipe st) !! key.
Proof.
  intros Hk. destruct (uninitialized (pipe st)) eqn:Hinit.
  - rewrite generateChat_uninitialized by exact Hinit. reflexivity.
  - destruct (generateChat o sc tc st) as [st' r] eqn:H.
    destruct (generateChat_pipe _ _ _ _ _ _ Hinit H) as (_ & _ & s' & Hh & _).
    simpl. rewrite Hh. apply lookup_insert_ne. congruence.
Qed.

(** X3. A chat call, whether it returns or throws, changes no session
    but the one of its key. *)
Theorem chat_call_touches_one_session o sc tc (st : St) key :
  key <> session_key o ->
  sessionHistory (pipe (fst (generateChat o sc tc st))) !! key =
  sessionHistory (pipe st) !! key.
Proof. apply generateChat_other_sessions. Qed.

(** X4. When a chat call returns, [getSessionInfo] for the session id of
    the result reports the message count of the result, the creation
    time the session had, and a cache exactly when the value the runtime
    returned as [past_key_values] is truthy; and the session's last
    message is the assistant turn with the text of the result. *)
Theorem completed_chat_session_info o sc tc (st st' : St) r :
  generateChat o sc tc st = (st', Returned r) ->
  exists rc out s',
    last (runtime_calls (world st')) = Some rc /\
    generate_outcome rc = Returned out /\
    getSessionInfo (Some (chat_sessionId r)) (pipe st') =
      Some {| messageCount := chat_messageCount r;
              info_createdAt := createdAt (chat_session o st);
              hasPastKeyValues := truthy (past_key_values out) |} /\
    sessionHistory (pipe st') !! chat_sessionId r = Some s' /\
    last (messages s') = Some {| role := assistant; content := chat_text r |}.
Proof.
  intros H1.
  pose proof (generateChat_initialized _ _ _ _ _ _ H1) as Hinit.
  destruct (generateChat_run _ _ _ _ _ _ Hinit H1) as (st3 & gr & Hg & Hr).
  destruct gr as [resp|e]; [|destruct Hr as (_ & Hr); discriminate].
  destruct Hr as (Hs & Hw & _ & _ & _ & Hres). injection Hres as ->.
  destruct (generate_returned _ _ _ _ _ _ _ _ Hg)
    as (tk & m & inputs & calls & out & d & ds & _ & _ & _ & _ & Hrt & _ & _ & Hcache).
  eexists _, out, _. split; [rewrite Hw, Hrt; apply last_snoc|].
  split; [reflexivity|]. unfold getSessionInfo. simpl.
  rewrite Hs, lookup_insert_eq. simpl. rewrite Hcache.
  split; [|split; [reflexivity|]].
  - f_equal. f_equal. rewrite !length_app. simpl. lia.
  - apply last_snoc.
Qed.

(** *** The streaming observer and the final rate *)

Lemma streamer_step_stream (f : Callback StreamData) (tc : RateObserver)
    (P : WorkerMessage -> bool) (lw : Locals * World) c :
  (forall d, P (f d) = true) ->
  (forall g d, tc = Some g -> P (g d) = false) ->
  exists extra,
    outbox (snd (streamer_step (Some f) tc lw c)) = outbox (snd lw) ++ extra /\
    List.filter P extra =
      map f (stream_reports [c] (generatedText (fst lw)) (numTokens (fst lw))) /\
    generatedText (fst (streamer_step (Some f) tc lw c)) =
      generatedText (fst lw) ++ streamed_text [c] /\
    numTokens (fst (streamer_step (Some f) tc lw c)) =
      numTokens (fst lw) + emitted_tokens [c].
Proof.
  intros Hf Hg. destruct lw as [l w], c as [|output]; simpl.
  - unfold tokenCallbackFunction.
    destruct (startTime l); simpl; destruct (Nat.ltb 0 (numTokens l));
      destruct tc as [g|]; simpl;
      first [ solve [exists []; rewrite ?app_nil_r; repeat split; lia]
            | solve [eexists [_]; simpl; erewrite Hg by reflexivity;
                     rewrite ?app_nil_r; repeat split; lia] ].
  - unfold streamCallbackFunction. simpl.
    eexists [_]. simpl. rewrite Hf, ?app_nil_r. repeat split. lia.
Qed.

Lemma run_streamer_stream (f : Callback StreamData) (tc : RateObserver)
    (P : WorkerMessage -> bool) calls :
  (forall d, P (f d) = true) ->
  (forall g d, tc = Some g -> P (g d) = false) ->
  forall (l : Locals) (w : World),
  exists posted,
    outbox (snd (run_streamer (Some f) tc calls l w)) = outbox w ++ posted /\
    List.filter P posted = map f (stream_reports calls (generatedText l) (numTokens l)).
Proof.
  intros Hf Hg. unfold run_streamer.
  induction calls as [|c calls IH]; intros l w; simpl.
  - exists []. rewrite app_nil_r. split; reflexivity.
  - destruct (streamer_step_stream f tc P (l, w) c Hf Hg) as (extra & Ho & Hx & Ht & Hn).
    destruct (streamer_step (Some f) tc (l, w) c) as [l1 w1] eqn:Hstep.
    destruct (IH l1 w1) as (posted & Hp & Hfil).
    exists (extra ++ posted). simpl in Ho, Ht, Hn. split.
    + rewrite Hp, Ho, app_assoc. reflexivity.
    + rewrite List.filter_app, Hfil, Hx, Ht, Hn.
      destruct c as [|output]; simpl.
      * rewrite app_nil_r. replace (numTokens l + 1) with (S (numTokens l)) by lia.
        reflexivity.
      * rewrite app_nil_r, Nat.add_0_r. reflexivity.
Qed.

(** The state in which the coordinator starts the streamer. *)
Lemma generate_streamer_start msgs cache cfg sc tc (st : St) tk m inputs calls outcome :
  tokenizer (pipe st) = Some tk ->
  model (pipe st) = Some m ->
  apply_chat_template tk msgs = Returned inputs ->
  generate m (length (runtime_calls (world st)))
    (generate_arguments inputs cache cfg (objects (world st))
       (N.succ (objects (world st)))) = (calls, outcome) ->
  exists (w : World),
    outbox w = outbox (world st) /\ perf_reads w = perf_reads (world st) /\
    outbox (world (fst (_generate msgs cache cfg sc tc st))) =
      outbox (snd (run_streamer sc tc calls
                     {| startTime := None; numTokens := 0; generatedText := [] |} w)).
Proof.
  intros Ht Hm Hi Hg.
  unfold _generate, model_generate, final_tps. run.
  rewrite Ht. simpl. rewrite Hi. simpl. rewrite Hm. simpl. rewrite Hg.
  match goal with |- context [run_streamer sc tc calls ?l ?w] =>
    exists w; repeat split;
    destruct (run_streamer sc tc calls l w) as [l' w'] end.
  destruct outcome as [out|e]; simpl; [|reflexivity].
  destruct (batch_decode tk (sequences out)) as [decoded|e]; simpl; [|reflexivity].
  destruct decoded as [|d ds]; simpl; [reflexivity|].
  destruct (startTime l') as [start|]; simpl;
    [destruct (num_truthy start); simpl|]; reflexivity.
Qed.

(** X5. During a call of the coordinator with a streaming observer, the
    observer is called once for every piece of text the streamer
    finalizes, in order, with the piece, the text accumulated so far
    (this piece included) and the number of tokens emitted so far. The
    calls are read off the outbox: [P] tells the messages the streaming
    observer posts from the ones the token-rate observer posts. *)
Theorem stream_observer_invocations msgs cache cfg (f : Callback StreamData)
    (tc : RateObserver) (P : WorkerMessage -> bool)
    (st : St) tk m inputs calls outcome :
  tokenizer (pipe st) = Some tk ->
  model (pipe st) = Some m ->
  apply_chat_template tk msgs = Returned inputs ->
  generate m (length (runtime_calls (world st)))
    (generate_arguments inputs cache cfg (objects (world st))
       (N.succ (objects (world st)))) = (calls, outcome) ->
  (forall d, P (f d) = true) ->
  (forall g d, tc = Some g -> P (g d) = false) ->
  exists posted,
    outbox (world (fst (_generate msgs cache cfg (Some f) tc st))) =
      outbox (world st) ++ posted /\
    List.filter P posted = map f (stream_reports calls [] 0).
Proof.
  intros Ht Hm Hi Hg Hf Htc.
  destruct (generate_streamer_start msgs cache cfg (Some f) tc st tk m inputs calls outcome
              Ht Hm Hi Hg) as (w & Ho & _ & Hout).
  rewrite Hout.
  destruct (run_streamer_stream f tc P calls Hf Htc
              {| startTime := None; numTokens := 0; generatedText := [] |} w)
    as (posted & H1 & H2).
  exists posted. rewrite H1, Ho. split; [reflexivity | exact H2].
Qed.

Lemma run_streamer_clock (sc : StreamObserver) (tc : RateObserver) r0 calls :
  forall (l : Locals) (w : World) j,
    numTokens l = j ->
    startTime l = (if Nat.eqb j 0 then None else Some (performance_now r0)) ->
    perf_reads w = r0 + stream_reads tc j ->
    numTokens (fst (run_streamer sc tc calls l w)) = j + emitted_tokens calls /\
    startTime (fst (run_streamer sc tc calls l w)) =
      (if Nat.eqb (j + emitted_tokens calls) 0 then None else Some (performance_now r0)) /\
    perf_reads (snd (run_streamer sc tc calls l w)) =
      r0 + stream_reads tc (j + emitted_tokens calls).
Proof.
  unfold run_streamer.
  induction calls as [|c calls IH]; intros l w j Hn Hs Hp; simpl.
  - rewrite Nat.add_0_r. repeat split; assumption.
  - destruct c as [|output]; simpl.
    + replace (j + S (emitted_tokens calls)) with (S j + emitted_tokens calls) by lia.
      unfold tokenCallbackFunction. rewrite Hs, Hn.
      destruct j as [|j']; simpl.
      * apply (IH _ _ 1); simpl; [reflexivity| |].
        -- rewrite Hp. simpl. rewrite Nat.add_0_r. reflexivity.
        -- rewrite Hp. simpl. destruct tc; lia.
      * destruct tc as [g|]; simpl; apply (IH _ _ (S (S j'))); simpl; try reflexivity.
        -- rewrite Hp. simpl. lia.
        -- rewrite Hp. simpl. lia.
    + unfold streamCallbackFunction.
      destruct sc as [f|]; simpl; apply (IH _ _ j); simpl; assumption.
Qed.

(** X6. The rate a returned call of the coordinator reports. When the
    runtime emitted no token it is 0 and the performance clock was not
    read. When it emitted n tokens, the clock is read once more at the
    end and the rate is n / (that reading - the reading at the first
    token) * 1000; it is 0 when the reading at the first token is
    itself falsy (0), which the code takes for no start time. *)
Theorem final_rate msgs cache cfg sc tc (st st' : St) r tk m inputs calls outcome :
  tokenizer (pipe st) = Some tk ->
  model (pipe st) = Some m ->
  apply_chat_template tk msgs = Returned inputs ->
  generate m (length (runtime_calls (world st)))
    (generate_arguments inputs cache cfg (objects (world st))
       (N.succ (objects (world st)))) = (calls, outcome) ->
  _generate msgs cache cfg sc tc st = (st', Returned r) ->
  (emitted_tokens calls = 0 ->
     result_tokensPerSecond r = num_of_nat 0 /\
     perf_reads (world st') = perf_reads (world st)) /\
  (0 < emitted_tokens calls ->
     result_tokensPerSecond r =
       (if num_truthy (performance_now (perf_reads (world st)))
        then num_mul (num_div (num_of_nat (emitted_tokens calls))
                        (num_sub (performance_now
                                    (perf_reads (world st)
                                     + stream_reads tc (emitted_tokens calls)))
                                 (performance_now (perf_reads (world st)))))
                     (num_of_nat 1000)
        else num_of_nat 0)).
Proof.
  intros Ht Hm Hi Hg.
  unfold _generate, model_generate, final_tps. run.
  rewrite Ht. simpl. rewrite Hi. simpl. rewrite Hm. simpl. rewrite Hg.
  match goal with |- context [run_streamer sc tc calls ?l ?w] =>
    destruct (run_streamer_clock sc tc (perf_reads (world st)) calls l w 0)
      as (Hn & Hs & Hp); [reflexivity | reflexivity | simpl; lia|];
    destruct (run_streamer sc tc calls l w) as [l' w'] end.
  simpl in Hn, Hs, Hp.
  destruct outcome as [out|e]; simpl; [|discriminate].
  destruct (batch_decode tk (sequences out)) as [decoded|e]; simpl; [|discriminate].
  destruct decoded as [|d ds]; simpl; [discriminate|].
  intros H. rewrite Hs in H.
  destruct (emitted_tokens calls) as [|n'] eqn:En; simpl in H.
  - injection H as <- <-. simpl. split; [intros _|intros Hlt; lia].
    split; [reflexivity|]. rewrite Hp. simpl. lia.
  - split; [discriminate|]. intros _.
    destruct (num_truthy (performance_now (perf_reads (world st)))); simpl in H;
      injection H as <- <-; simpl; [|reflexivity].
    rewrite Hn, Hp. reflexivity.
Qed.

(** *** The events of a generation request *)

Lemma streamer_step_posts (sc : StreamObserver) (tc : RateObserver)
    (Q : WorkerMessage -> Prop) (lw : Locals * World) c :
  (forall f d, sc = Some f -> Q (f d)) ->
  (forall g d, tc = Some g -> Q (g d)) ->
  exists extra,
    outbox (snd (streamer_step sc tc lw c)) = outbox (snd lw) ++ extra /\
    Forall Q extra.
Proof.
  intros Hsc Htc. destruct lw as [l w], c as [|output]; simpl.
  - unfold tokenCallbackFunction.
    destruct (startTime l); simpl; destruct (Nat.ltb 0 (numTokens l));
      destruct tc as [g|]; simpl;
      first [ solve [exists []; rewrite ?app_nil_r; split; [reflexivity | constructor]]
            | solve [eexists [_]; split; [reflexivity|];
                     constructor; [apply (Htc g); reflexivity | constructor]] ].
  - unfold streamCallbackFunction. destruct sc as [f|]; simpl.
    + eexists [_]. split; [reflexivity|].
      constructor; [apply (Hsc f); reflexivity | constructor].
    + exists []. rewrite app_nil_r. split; [reflexivity | constructor].
Qed.

Lemma run_streamer_posts (sc : StreamObserver) (tc : RateObserver)
    (Q : WorkerMessage -> Prop) calls :
  (forall f d, sc = Some f -> Q (f d)) ->
  (forall g d, tc = Some g -> Q (g d)) ->
  forall (l : Locals) (w : World),
  exists posted,
    outbox (snd (run_streamer sc tc calls l w)) = outbox w ++ posted /\
    Forall Q posted.
Proof.
  intros Hsc Htc. unfold run_streamer.
  induction calls as [|c calls IH]; intros l w; simpl.
  - exists []. rewrite app_nil_r. split; [reflexivity | constructor].
  - destruct (streamer_step_posts sc tc Q (l, w) c Hsc Htc) as (extra & Ho & Hx).
    destruct (streamer_step sc tc (l, w) c) as [l1 w1].
    destruct (IH l1 w1) as (posted & Hp & Hq).
    exists (extra ++ posted). simpl in Ho. split.
    + rewrite Hp, Ho, app_assoc. reflexivity.
    + apply Forall_app. split; assumption.
Qed.

(** A call of the coordinator posts what its two observers post, and
    nothing else. *)
Lemma generate_posts msgs cache cfg (sc : StreamObserver) (tc : RateObserver)
    (Q : WorkerMessage -> Prop) (st : St) :
  (forall f d, sc = Some f -> Q (f d)) ->
  (forall g d, tc = Some g -> Q (g d)) ->
  exists posted,
    outbox (world (fst (_generate msgs cache cfg sc tc st))) = outbox (world st) ++ posted /\
    Forall Q posted.
Proof.
  intros Hsc Htc.
  assert (Hnil : forall (w : list WorkerMessage), exists posted, w = w ++ posted /\ Forall Q posted)
    by (intros w; exists []; rewrite app_nil_r; split; [reflexivity | constructor]).
  unfold _generate, model_generate, final_tps. run.
  destruct (tokenizer (pipe st)) as [t|]; simpl; [|apply Hnil].
  destruct (apply_chat_template t msgs) as [inputs|e]; simpl; [|apply Hnil].
  destruct (model (pipe st)) as [m|]; simpl; [|apply Hnil].
  match goal with |- context [generate m ?k ?a] =>
    destruct (generate m k a) as [calls outcome] end.
  match goal with |- context [run_streamer sc tc calls ?l ?w] =>
    destruct (run_streamer_posts sc tc Q calls Hsc Htc l w) as (posted & Hp & Hq);
    destruct (run_streamer sc tc calls l w) as [l' w'] end.
  simpl in Hp. exists posted. split; [|exact Hq].
  destruct outcome as [out|e]; simpl; [|exact Hp].
  destruct (batch_decode t (sequences out)) as [decoded|e]; simpl; [|exact Hp].
  destruct decoded as [|d ds]; simpl; [exact Hp|].
  destruct (startTime l') as [start|]; simpl;
    [destruct (num_truthy start); simpl|]; exact Hp.
Qed.

Lemma generateChat_posts o (sc : StreamObserver) (tc : RateObserver)
    (Q : WorkerMessage -> Prop) (st : St) :
  (forall f d, sc = Some f -> Q (f d)) ->
  (forall g d, tc = Some g -> Q (g d)) ->
  exists posted,
    outbox (world (fst (generateChat o sc tc st))) = outbox (world st) ++ posted /\
    Forall Q posted.
Proof.
  intros Hsc Htc. destruct (uninitialized (pipe st)) eqn:Hinit.
  - rewrite generateChat_uninitialized by exact Hinit.
    exists []. rewrite app_nil_r. split; [reflexivity | constructor].
  - destruct (generateChat o sc tc st) as [st' r] eqn:H.
    destruct (generateChat_run _ _ _ _ _ _ Hinit H) as (st3 & gr & Hg & Hr).
    destruct (generate_posts (messages (chat_session o st) ++ [user_turn o])
                (pastKeyValues (chat_session o st)) (chat_settings o st) sc tc Q
                (chat_pushed o st) Hsc Htc) as (posted & Hp & Hq).
    destruct (chat_pushed_records o st) as (_ & _ & _ & Ho).
    rewrite Hg, Ho in Hp. simpl in Hp.
    exists posted. split; [|exact Hq]. simpl.
    destruct gr as [resp|e].
    + destruct Hr as (_ & -> & _). exact Hp.
    + destruct Hr as (-> & _). exact Hp.
Qed.

Lemma generateSingle_posts o (sc : StreamObserver) (tc : RateObserver)
    (Q : WorkerMessage -> Prop) (st : St) :
  (forall f d, sc = Some f -> Q (f d)) ->
  (forall g d, tc = Some g -> Q (g d)) ->
  exists posted,
    outbox (world (fst (generateSingle o sc tc st))) = outbox (world st) ++ posted /\
    Forall Q posted.
Proof.
  intros Hsc Htc. destruct (uninitialized (pipe st)) eqn:Hinit.
  - rewrite generateSingle_uninitialized by exact Hinit.
    exists []. rewrite app_nil_r. split; [reflexivity | constructor].
  - destruct (generateSingle o sc tc st) as [st' r] eqn:H.
    destruct (generateSingle_run _ _ _ _ _ _ Hinit H) as (gr & Hg).
    destruct (generate_posts (single_messages o) JNull
                (spread (props_of (config (pipe st)))
                   (default empty (single_generationConfig o))) sc tc Q st Hsc Htc)
      as (posted & Hp & Hq).
    rewrite Hg in Hp. exists posted. split; assumption.
Qed.

(** X7. A generation request never lets an exception out of its handler,
    and it posts, in this order: the start event, then streaming and
    token-rate events only, then exactly one last event, which is the
    completion or the error. This holds in chat and in single mode, on
    every state. *)
Theorem generation_request_events (st : St) :
  (forall o, exists mid last_event,
     snd (handle_generateChat o st) = Returned tt /\
     outbox (world (fst (handle_generateChat o st))) =
       outbox (world st) ++
         worker_message T_generateChat S_start
           (DataSessionId (sessionId_or_default (sessionId o)))
         :: mid ++ [last_event] /\
     Forall (progress_event T_generateChat) mid /\
     terminal_event T_generateChat last_event) /\
  (forall o, exists mid last_event,
     snd (handle_generateSingle o st) = Returned tt /\
     outbox (world (fst (handle_generateSingle o st))) =
       outbox (world st) ++
         worker_message T_generateSingle S_start DataEmpty :: mid ++ [last_event] /\
     Forall (progress_event T_generateSingle) mid /\
     terminal_event T_generateSingle last_event).
Proof.
  split; intros o.
  - match goal with |- context [DataSessionId ?x] =>
      set (st_s := {| world := post (worker_message T_generateChat S_start (DataSessionId x))
                                    (world st);
                      pipe := pipe st |}) end.
    destruct (generateChat_posts o (Some (streaming_event T_generateChat))
                (Some (token_stats_event T_generateChat))
                (progress_event T_generateChat) st_s) as (mid & Hp & Hq).
    { intros f d [= <-]. split; [reflexivity | left; reflexivity]. }
    { intros g d [= <-]. split; [reflexivity | right; reflexivity]. }
    unfold handle_generateChat. run. fold st_s.
    destruct (generateChat o _ _ st_s) as [st' r]. simpl in Hp.
    destruct r as [res|e]; simpl; eexists mid, _;
      (split; [reflexivity|]); rewrite Hp; simpl; rewrite <- !app_assoc; simpl;
      (split; [reflexivity|]); (split; [exact Hq|]);
      split; [reflexivity | left; reflexivity | reflexivity | right; reflexivity].
  - set (st_s := {| world := post (worker_message T_generateSingle S_start DataEmpty)
                                  (world st);
                    pipe := pipe st |}).
    destruct (generateSingle_posts o (Some (streaming_event T_generateSingle))
                (Some (token_stats_event T_generateSingle))
                (progress_event T_generateSingle) st_s) as (mid & Hp & Hq).
    { intros f d [= <-]. split; [reflexivity | left; reflexivity]. }
    { intros g d [= <-]. split; [reflexivity | right; reflexivity]. }
    unfold handle_generateSingle. run. fold st_s.
    destruct (generateSingle o _ _ st_s) as [st' r]. simpl in Hp.
    destruct r as [res|e]; simpl; eexists mid, _;
      (split; [reflexivity|]); rewrite Hp; simpl; rewrite <- !app_assoc; simpl;
      (split; [reflexivity|]); (split; [exact Hq|]);
      split; [reflexivity | left; reflexivity | reflexivity | right; reflexivity].
Qed.

(** *** Interruption *)

(** A call of the coordinator that gets its prompt from the template
    constructs two objects, the streamer and the stopping criteria, and
    makes the second the current one. *)
Lemma generate_stopping_criteria msgs cache cfg sc tc (st : St) tk inputs :
  tokenizer (pipe st) = Some tk ->
  apply_chat_template tk msgs = Returned inputs ->
  currentStoppingCriteria (pipe (fst (_generate msgs cache cfg sc tc st))) =
    Some (N.succ (objects (world st))) /\
  objects (world (fst (_generate msgs cache cfg sc tc st))) =
    N.succ (N.succ (objects (world st))) /\
  tokenizer (pipe (fst (_generate msgs cache cfg sc tc st))) = Some tk /\
  (forall m, model (pipe st) = Some m ->
     exists rc,
       last (runtime_calls (world (fst (_generate msgs cache cfg sc tc st)))) = Some rc /\
       generate_args rc =
         generate_arguments inputs cache cfg (objects (world st))
           (N.succ (objects (world st)))).
Proof.
  intros Ht Hi.
  unfold _generate, model_generate, final_tps. run.
  rewrite Ht. simpl. rewrite Hi. simpl.
  destruct (model (pipe st)) as [m|]; simpl;
    [|repeat split; try assumption; intros ? [=]].
  match goal with |- context [generate m ?k ?a] =>
    destruct (generate m k a) as [calls outcome] end.
  match goal with |- context [run_streamer sc tc calls ?l ?w] =>
    pose proof (run_streamer_records sc tc calls l w) as Hrec;
    destruct (run_streamer sc tc calls l w) as [l' w'] end.
  destruct Hrec as (_ & _ & _ & Hobj & _). simpl in Hobj.
  assert (Hfin :
            Some (N.succ (objects (world st))) = Some (N.succ (objects (world st))) /\
            objects w' = N.succ (N.succ (objects (world st))) /\
            tokenizer (pipe st) = Some tk) by (repeat split; assumption).
  destruct Hfin as (F1 & F2 & F3).
  destruct outcome as [out|e]; simpl;
    [|repeat split; try assumption; intros ? _; eexists;
      split; [apply last_snoc | reflexivity]].
  destruct (batch_decode tk (sequences out)) as [decoded|e]; simpl;
    [|repeat split; try assumption; intros ? _; eexists;
      split; [apply last_snoc | reflexivity]].
  destruct decoded as [|d ds]; simpl;
    [repeat split; try assumption; intros ? _; eexists;
      split; [apply last_snoc | reflexivity]|].
  destruct (startTime l') as [start|]; simpl;
    [destruct (num_truthy start); simpl|];
    repeat split; try assumption; intros ? _; eexists;
      split; first [apply last_snoc | reflexivity].
Qed.

Lemma generate_arguments_stopping_criteria (inputs : Props) (cache : JsVal num) (cfg : Props) s c :
  generate_arguments inputs cache cfg s c !! js "stopping_criteria" = Some (JRef c).
Proof.
  unfold generate_arguments.
  rewrite lookup_insert_ne by discriminate. apply lookup_insert_eq.
Qed.

(** X8. [interrupt] signals the stopping criteria of the latest call of
    the coordinator only. After two calls that got their prompt from the
    template, the two stopping criteria are different objects, the
    current one is the second call's, which is the one the runtime was
    given in that call, and [interrupt] signals it and not the first. *)
Theorem interrupt_reaches_latest_call msgs1 cache1 cfg1 sc1 tc1 msgs2 cache2 cfg2 sc2 tc2
    (st : St) tk m inputs1 inputs2 :
  tokenizer (pipe st) = Some tk ->
  model (pipe st) = Some m ->
  apply_chat_template tk msgs1 = Returned inputs1 ->
  apply_chat_template tk msgs2 = Returned inputs2 ->
  exists h1 h2 rc,
    currentStoppingCriteria (pipe (fst (_generate msgs1 cache1 cfg1 sc1 tc1 st))) = Some h1 /\
    currentStoppingCriteria
      (pipe (fst (_generate msgs2 cache2 cfg2 sc2 tc2
                    (fst (_generate msgs1 cache1 cfg1 sc1 tc1 st))))) = Some h2 /\
    h1 <> h2 /\
    last (runtime_calls
            (world (fst (_generate msgs2 cache2 cfg2 sc2 tc2
                           (fst (_generate msgs1 cache1 cfg1 sc1 tc1 st)))))) = Some rc /\
    generate_args rc !! js "stopping_criteria" = Some (JRef h2) /\
    interrupts
      (world (fst (interrupt
                     (fst (_generate msgs2 cache2 cfg2 sc2 tc2
                             (fst (_generate msgs1 cache1 cfg1 sc1 tc1 st))))))) =
    interrupts
      (world (fst (_generate msgs2 cache2 cfg2 sc2 tc2
                     (fst (_generate msgs1 cache1 cfg1 sc1 tc1 st))))) ++ [h2].
Proof.
  intros Ht Hm Hi1 Hi2.
  destruct (generate_stopping_criteria msgs1 cache1 cfg1 sc1 tc1 st tk inputs1 Ht Hi1)
    as (Hc1 & Ho1 & Ht1 & _).
  destruct (_generate msgs1 cache1 cfg1 sc1 tc1 st) as [st1 r1] eqn:H1.
  destruct (generate_frame _ _ _ _ _ _ _ _ H1) as (_ & Hm1 & _).
  simpl in *.
  destruct (generate_stopping_criteria msgs2 cache2 cfg2 sc2 tc2 st1 tk inputs2 Ht1 Hi2)
    as (Hc2 & _ & _ & Hrc).
  destruct (Hrc m) as (rc & Hl & Ha); [rewrite Hm1; exact Hm|].
  destruct (_generate msgs2 cache2 cfg2 sc2 tc2 st1) as [st2 r2] eqn:H2.
  simpl in *.
  exists (N.succ (objects (world st))), (N.succ (objects (world st1))), rc.
  split; [exact Hc1|]. split; [exact Hc2|]. split; [rewrite Ho1; lia|].
  split; [exact Hl|]. split; [rewrite Ha; apply generate_arguments_stopping_criteria|].
  unfold interrupt. run. rewrite Hc2. reflexivity.
Qed.

(** X9. [interrupt] before any call of the coordinator has set a
    stopping criteria changes nothing, and its handler still answers
    with one success event. *)
Theorem interrupt_without_generation (st : St) :
  currentStoppingCriteria (pipe st) = None ->
  interrupt st = (st, Returned tt) /\
  handle_interrupt st =
    ({| world := post (worker_message T_interrupt S_success
                         (DataNotice (js "Generation interrupted"))) (world st);
        pipe := pipe st |}, Returned tt).
Proof.
  intros H. unfold handle_interrupt, interrupt. run. rewrite H. simpl.
  split; reflexivity.
Qed.

(** *** The argument of the runtime *)

(** X10. In the argument the coordinator gives to the runtime, the
    streamer, the stopping criteria and [return_dict_in_generate] are
    always the call's own, whatever the settings hold; every other
    property is taken from the settings first, so a setting named
    [past_key_values] replaces the cache, and only then from the cache
    and the tokenized input. *)
Theorem runtime_argument_precedence (inputs : Props) (cache : JsVal num) (cfg : Props) s c :
  generate_arguments inputs cache cfg s c !! js "streamer" = Some (JRef s) /\
  generate_arguments inputs cache cfg s c !! js "stopping_criteria" = Some (JRef c) /\
  generate_arguments inputs cache cfg s c !! js "return_dict_in_generate" =
    Some (JBool true) /\
  (forall k,
     k <> js "streamer" -> k <> js "stopping_criteria" ->
     k <> js "return_dict_in_generate" ->
     generate_arguments inputs cache cfg s c !! k =
       match cfg !! k with
       | Some v => Some v
       | None => if decide (k = js "past_key_values") then Some cache else inputs !! k
       end).
Proof.
  unfold generate_arguments. split; [|split; [|split]].
  - rewrite !lookup_insert_ne by discriminate. apply lookup_insert_eq.
  - rewrite lookup_insert_ne by discriminate. apply lookup_insert_eq.
  - apply lookup_insert_eq.
  - intros k H1 H2 H3. rewrite !lookup_insert_ne by congruence.
    rewrite spread_lookup. destruct (cfg !! k); [reflexivity|].
    destruct (decide (k = js "past_key_values")) as [->|Hk].
    + apply lookup_insert_eq.
    + apply lookup_insert_ne. congruence.
Qed.

(** X11. A single-mode call on a loaded model enters the coordinator
    with the null cache and with messages made of its own prompt (and
    its system message when that is a non-empty string), whatever
    sessions the store holds. *)
Theorem single_call_uses_no_session o sc tc (st : St) :
  uninitialized (pipe st) = false ->
  exists c,
    coordinator_calls (world (fst (generateSingle o sc tc st))) =
      coordinator_calls (world st) ++ [c] /\
    call_pastKeyValues c = JNull /\
    call_messages c =
      match single_systemMessage o with
      | Some (c0 :: s) => [{| role := system; content := c0 :: s |}]
      | _ => []
      end ++ [{| role := user; content := prompt o |}].
Proof.
  intros Hinit. destruct (generateSingle o sc tc st) as [st' r] eqn:H.
  eexists. split; [apply (generateSingle_coordinator _ _ _ _ _ _ Hinit H)|].
  split; [reflexivity|]. simpl. unfold single_messages.
  destruct (single_systemMessage o) as [[|c0 s]|]; reflexivity.
Qed.

(** *** The listener and the simple handlers *)

Lemma handle_generateChat_pipe o (st : St) :
  pipe (fst (handle_generateChat o st)) =
  pipe (fst (generateChat o (Some (streaming_event T_generateChat))
               (Some (token_stats_event T_generateChat))
               {| world := post (worker_message T_generateChat S_start
                                   (DataSessionId (sessionId_or_default (sessionId o))))
                                (world st);
                  pipe := pipe st |})).
Proof.
  unfold handle_generateChat. run.
  match goal with |- context [generateChat ?a ?b ?c ?d] =>
    destruct (generateChat a b c d) as [st' r] end.
  destruct r; reflexivity.
Qed.

(** X12. A chat request whose session id is the empty string announces
    the session "default" in its start event, but works on the session
    stored under the empty string: on a loaded model that session is in
    the store afterwards and the session "default" is as it was. *)
Theorem empty_session_id_start_event o (st : St) :
  sessionId o = Some [] ->
  uninitialized (pipe st) = false ->
  (exists rest,
     outbox (world (fst (handle_generateChat o st))) =
       outbox (world st) ++
         worker_message T_generateChat S_start (DataSessionId (js "default")) :: rest) /\
  is_Some (sessionHistory (pipe (fst (handle_generateChat o st))) !! []) /\
  sessionHistory (pipe (fst (handle_generateChat o st))) !! js "default" =
    sessionHistory (pipe st) !! js "default".
Proof.
  intros Hid Hinit. split; [|split].
  - destruct (generateChat_posts o (Some (streaming_event T_generateChat))
                (Some (token_stats_event T_generateChat)) (fun _ => True)
                {| world := post (worker_message T_generateChat S_start
                                    (DataSessionId (sessionId_or_default (sessionId o))))
                                 (world st);
                   pipe := pipe st |}) as (posted & Hp & _); [auto | auto |].
    unfold handle_generateChat. run.
    match goal with |- context [generateChat ?a ?b ?c ?d] =>
      destruct (generateChat a b c d) as [st' r] end.
    simpl in Hp. rewrite Hid in *. simpl in *.
    destruct r; simpl; rewrite Hp, <- !app_assoc; simpl; eexists; reflexivity.
  - rewrite handle_generateChat_pipe.
    match goal with |- context [generateChat ?a ?b ?c ?d] =>
      destruct (generateChat a b c d) as [st' r] eqn:H end.
    apply generateChat_pipe in H; [|exact Hinit].
    destruct H as (_ & _ & s' & Hh & _).
    simpl in *. rewrite Hh. unfold session_key. rewrite Hid. simpl.
    rewrite lookup_insert_eq. eexists. reflexivity.
  - rewrite handle_generateChat_pipe.
    rewrite generateChat_other_sessions; [reflexivity|].
    unfold session_key. rewrite Hid. discriminate.
Qed.

(** X13. No [clearSession] request and no [getSessionInfo] request
    reaches the session stored under the empty string: the handlers
    replace an empty id by "default", so the session a chat request with
    the empty id works on survives every [clearSession] request, and
    what a [getSessionInfo] request posts is the id and the information
    of the session of a key that is not the empty one. *)
Theorem empty_id_session_out_of_reach sid (st : St) :
  sessionHistory (pipe (fst (handle_clearSession sid st))) !! [] =
    sessionHistory (pipe st) !! [] /\
  exists key,
    key <> [] /\
    handle_getSessionInfo sid st =
      ({| world := post (worker_message T_getSessionInfo S_success
                           (DataSessionInfo key (getSessionInfo (Some key) (pipe st))))
                        (world st);
          pipe := pipe st |}, Returned tt).
Proof.
  assert (Hkey : sessionId_or_default sid <> []).
  { unfold sessionId_or_default. destruct sid as [[|c s]|]; discriminate. }
  split.
  - unfold handle_clearSession, clearSession. run.
    destruct (sessionHistory (pipe st) !! sessionId_or_default sid); simpl;
      [apply lookup_delete_ne; exact Hkey | reflexivity].
  - exists (sessionId_or_default sid).
    split; [exact Hkey|]. unfold handle_getSessionInfo. run. reflexivity.
Qed.

(** X14. The requests [clearSession], [getSessionInfo], [interrupt] and
    [getModels] are each answered with exactly one event, of the
    request's type and with status success, and their handlers never
    throw; [getSessionInfo], [interrupt] and [getModels] leave the
    pipeline as it was, so asking for the information of a session that
    does not exist does not create it. *)
Theorem simple_requests_one_success_event sid (st : St) :
  (exists d,
     snd (handle_clearSession sid st) = Returned tt /\
     outbox (world (fst (handle_clearSession sid st))) =
       outbox (world st) ++ [worker_message T_clearSession S_success d]) /\
  (exists d,
     snd (handle_getSessionInfo sid st) = Returned tt /\
     pipe (fst (handle_getSessionInfo sid st)) = pipe st /\
     outbox (world (fst (handle_getSessionInfo sid st))) =
       outbox (world st) ++ [worker_message T_getSessionInfo S_success d]) /\
  (exists d,
     snd (handle_interrupt st) = Returned tt /\
     pipe (fst (handle_interrupt st)) = pipe st /\
     outbox (world (fst (handle_interrupt st))) =
       outbox (world st) ++ [worker_message T_interrupt S_success d]) /\
  (exists d,
     snd (handle_getModels st) = Returned tt /\
     pipe (fst (handle_getModels st)) = pipe st /\
     outbox (world (fst (handle_getModels st))) =
       outbox (world st) ++ [worker_message T_getModels S_success d]).
Proof.
  split; [|split; [|split]].
  - unfold handle_clearSession, clearSession. run.
    destruct (sessionHistory (pipe st) !! sessionId_or_default sid); simpl;
      eexists; split; reflexivity.
  - unfold handle_getSessionInfo. run. eexists. repeat split.
  - unfold handle_interrupt, interrupt. run.
    destruct (currentStoppingCriteria (pipe st)); simpl; eexists; repeat split.
  - unfold handle_getModels. run. eexists. repeat split.
Qed.

(** X15. A request whose type is neither a handler of [messageHandlers]
    nor a property of [Object.prototype] is answered with exactly one
    event, of type error and status error, whose text is "Unknown
    message type: " followed by the type; the pipeline is untouched and
    the listener returns. *)
Theorem unknown_type_gets_one_error ty d (st : St) :
  messageHandlers ty = Missing ->
  exists c,
    listener {| event_type := ty; event_data := d |} = Some c /\
    snd (c st) = Returned tt /\
    pipe (fst (c st)) = pipe st /\
    outbox (world (fst (c st))) =
      outbox (world st) ++
        [worker_message T_error S_error
           (DataError (js "Unknown message type: " ++ ty))].
Proof.
  intros H. destruct (unknown_type_reported ty d st H) as (c & Hl & Hc).
  exists c. rewrite Hc. repeat split. exact Hl.
Qed.

(** *** The final text *)

Lemma trim_start_suffix s : exists pre, s = pre ++ trim_start s.
Proof.
  induction s as [|c s IH]; simpl.
  - exists []. reflexivity.
  - destruct (is_white_space c).
    + destruct IH as (pre & Hpre). exists (c :: pre). simpl. rewrite <- Hpre. reflexivity.
    + exists []. reflexivity.
Qed.

Lemma trim_start_head s c t : trim_start s = c :: t -> is_white_space c = false.
Proof.
  induction s as [|x s IH]; simpl; [discriminate|].
  destruct (is_white_space x) eqn:Hx; [exact IH|].
  intros [= <- _]. exact Hx.
Qed.

Lemma trim_start_fixed c t : is_white_space c = false -> trim_start (c :: t) = c :: t.
Proof. intros H. simpl. rewrite H. reflexivity. Qed.

Lemma trim_start_idempotent s : trim_start (trim_start s) = trim_start s.
Proof.
  destruct (trim_start s) as [|c t] eqn:H; [reflexivity|].
  apply trim_start_fixed. apply (trim_start_head _ _ _ H).
Qed.

Lemma trim_end_prefix s : exists post, s = trim_end s ++ post.
Proof.
  unfold trim_end. destruct (trim_start_suffix (rev s)) as (pre & Hpre).
  exists (rev pre). rewrite <- rev_app_distr, <- Hpre. symmetry. apply rev_involutive.
Qed.

Lemma trim_idempotent s : trim (trim s) = trim s.
Proof.
  unfold trim.
  assert (Hstart : trim_start (trim_end (trim_start s)) = trim_end (trim_start s)).
  { destruct (trim_end_prefix (trim_start s)) as (post & Hpost).
    destruct (trim_end (trim_start s)) as [|c t] eqn:He; [reflexivity|].
    apply trim_start_fixed. apply (trim_start_head s c (t ++ post)).
    rewrite Hpost. reflexivity. }
  rewrite Hstart. unfold trim_end at 1.
  unfold trim_end at 1. rewrite rev_involutive, trim_start_idempotent. reflexivity.
Qed.

Lemma trim_infix s : exists a b, s = a ++ trim s ++ b.
Proof.
  unfold trim. destruct (trim_start_suffix s) as (a & Ha).
  destruct (trim_end_prefix (trim_start s)) as (b & Hb).
  exists a, b. rewrite <- Hb. exact Ha.
Qed.

Lemma after_last_occurrence_clean sep s :
  sep <> [] -> ~ occurs_in sep (after_last_occurrence sep s).
Proof.
  intros Hsep. unfold after_last_occurrence, last_occurrence.
  destruct (last_occurrence_below sep s (S (length s))) as [i|] eqn:Hl.
  - apply last_occurrence_below_Some in Hl as (_ & Hocc & Hmax).
    destruct (occurs_at_split _ _ _ Hsep Hocc) as (Hi & Hs).
    intros (a & b & Hab).
    assert (Ht : occurs_at sep s (length (take i s ++ sep ++ a)) = true).
    { rewrite Hs at 1. rewrite Hab.
      replace (take i s ++ sep ++ a ++ sep ++ b)
        with ((take i s ++ sep ++ a) ++ sep ++ b)
        by (rewrite <- !app_assoc; reflexivity).
      apply occurs_at_app. }
    rewrite Hmax in Ht; [discriminate|].
    assert (Hls : length s = i + length sep + length a + length sep + length b).
    { rewrite Hs at 1. rewrite Hab. rewrite !length_app, length_take. lia. }
    rewrite !length_app, length_take.
    destruct sep; [congruence|]. simpl in *. lia.
  - intros (a & b & Hab).
    assert (Ht : occurs_at sep s (length a) = true)
      by (rewrite Hab; apply occurs_at_app).
    rewrite (last_occurrence_below_None _ _ _ Hl) in Ht; [discriminate|].
    rewrite Hab, !length_app. lia.
Qed.

(** X16. The final text of a call is either the text streamed during the
    call, or a text that is not empty, has no white space at either end
    and does not contain the marker "assistant\n". *)
Theorem final_text_is_clean_or_streamed decoded0 generatedText :
  final_text decoded0 generatedText = generatedText \/
  (final_text decoded0 generatedText <> [] /\
   trim (final_text decoded0 generatedText) = final_text decoded0 generatedText /\
   ~ occurs_in assistant_marker (final_text decoded0 generatedText)).
Proof.
  rewrite final_text_refines. unfold final_text_spec.
  destruct (trim (after_last_occurrence assistant_marker decoded0)) as [|c t] eqn:Ht;
    [left; reflexivity|]. right.
  split; [discriminate|]. rewrite <- Ht. split; [apply trim_idempotent|].
  intros (a & b & Hab).
  destruct (trim_infix (after_last_occurrence assistant_marker decoded0)) as (a' & b' & Hin).
  apply (after_last_occurrence_clean assistant_marker decoded0 assistant_marker_nonempty).
  exists (a' ++ a), (b ++ b'). rewrite Hin at 1. rewrite Hab.
  rewrite <- !app_assoc. reflexivity.
Qed.

(** *** Calls in flight *)

Local Abbreviation Running := (Running (num := num)).
Local Abbreviation Flight := (Flight (num := num)).
Local Abbreviation Event := (Event (num := num)).
Local Abbreviation Settled := (Settled (num := num)).

(** Counting the flights of a key in a list of flights. *)

Lemma filter_length_app {A} (P : A -> bool) l x :
  length (List.filter P (l ++ [x])) =
  length (List.filter P l) + (if P x then 1 else 0).
Proof.
  rewrite List.filter_app, length_app. simpl. destruct (P x); reflexivity.
Qed.

Lemma filter_length_delete {A} (P : A -> bool) (l : list A) i x :
  l !! i = Some x ->
  length (List.filter P (delete i l)) + (if P x then 1 else 0) =
  length (List.filter P l).
Proof.
  revert i. induction l as [|y l IH]; intros [|i] H; try discriminate.
  - injection H as ->. simpl. destruct (P x); simpl; lia.
  - simpl in H. specialize (IH i H).
    change (delete (S i) (y :: l)) with (y :: delete i l).
    simpl. destruct (P y); simpl; lia.
Qed.

Lemma filter_length_insert {A} (P : A -> bool) (l : list A) i x y :
  l !! i = Some x -> P y = P x ->
  length (List.filter P (<[i := y]> l)) = length (List.filter P l).
Proof.
  revert i. induction l as [|z l IH]; intros [|i] H Hy; try discriminate.
  - injection H as ->. simpl. rewrite Hy. destruct (P x); reflexivity.
  - simpl in H. simpl. destruct (P z); simpl; rewrite (IH i H Hy); reflexivity.
Qed.

Lemma filter_length_map {A} (P : A -> bool) (f : A -> A) (l : list A) :
  (forall x, P (f x) = P x) ->
  length (List.filter P (map f l)) = length (List.filter P l).
Proof.
  intros Hf. induction l as [|x l IH]; [reflexivity|].
  simpl. rewrite Hf. destruct (P x); simpl; rewrite IH; reflexivity.
Qed.

Lemma filter_length_present {A} (P : A -> bool) (l : list A) i x :
  l !! i = Some x -> P x = true -> 0 < length (List.filter P l).
Proof.
  intros H Hx. pose proof (filter_length_delete P l i x H) as Hd.
  rewrite Hx in Hd. lia.
Qed.

(** The beginning of a call of the coordinator. *)
Lemma generate_begin_frame msgs cache cfg (st st' : St) r :
  generate_begin msgs cache cfg st = (st', r) ->
  tokenizer (pipe st') = tokenizer (pipe st) /\
  model (pipe st') = model (pipe st) /\
  sessionHistory (pipe st') = sessionHistory (pipe st) /\
  runtime_calls (world st') = runtime_calls (world st) /\
  coordinator_calls (world st') =
    coordinator_calls (world st) ++
      [{| call_messages := msgs; call_pastKeyValues := cache; call_config := cfg |}].
Proof.
  unfold generate_begin. run.
  destruct (tokenizer (pipe st)) as [t|] eqn:Et; simpl;
    [|intros [= <- <-]; simpl; repeat split; assumption].
  destruct (apply_chat_template t msgs) as [inputs|e]; simpl;
    [|intros [= <- <-]; simpl; repeat split; assumption].
  destruct (model (pipe st)) as [m|] eqn:Em; simpl;
    intros [= <- <-]; simpl; repeat split; assumption.
Qed.

Lemma chat_begin_run o (st : St) :
  uninitialized (pipe st) = false ->
  chat_begin o st =
    generate_begin (messages (chat_session o st) ++ [user_turn o])
      (pastKeyValues (chat_session o st)) (chat_settings o st) (chat_pushed o st).
Proof.
  intros Hinit. unfold chat_begin. run. rewrite Hinit.
  unfold chat_pushed, chat_session, chat_settings.
  destruct (sessionHistory (pipe st) !! session_key o) as [s|] eqn:Hs.
  - rewrite (getSession_existing _ _ _ _ Hs). simpl.
    rewrite (alter_present _ _ _ _ Hs). reflexivity.
  - rewrite (getSession_fresh _ _ _ Hs). simpl.
    rewrite (alter_present _ _ _ _ (lookup_insert_eq _ _ _)), insert_insert_eq.
    reflexivity.
Qed.

Lemma begin_chat_effect o sc tc (a a' : Running) (r : Outcome Settled) :
  uninitialized (pipe (now a)) = false ->
  step (ChatBegin o sc tc) a = Some (a', r) ->
  uninitialized (pipe (now a')) = false /\
  sessionHistory (pipe (now a')) =
    <[session_key o := push_message (user_turn o) (chat_session o (now a))]>
      (sessionHistory (pipe (now a))) /\
  runtime_calls (world (now a')) = runtime_calls (world (now a)) /\
  coordinator_calls (world (now a')) =
    coordinator_calls (world (now a)) ++
      [{| call_messages := messages (chat_session o (now a)) ++ [user_turn o];
          call_pastKeyValues := pastKeyValues (chat_session o (now a));
          call_config := chat_settings o (now a) |}] /\
  match r with
  | Returned _ =>
      exists fl, in_flight a' = in_flight a ++ [fl] /\
                 flight_session fl = Some (session_key o)
  | Threw _ => in_flight a' = in_flight a
  end.
Proof.
  intros Hinit H. simpl in H. unfold launch in H.
  rewrite (chat_begin_run _ _ Hinit) in H.
  match type of H with context [generate_begin ?m ?c ?g ?s] =>
    destruct (generate_begin m c g s) as [st1 gr] eqn:Hg end.
  destruct (generate_begin_frame _ _ _ _ _ _ Hg) as (Ht & Hm & Hs & Hr & Hc).
  destruct (chat_pushed_records o (now a)) as (Hc0 & Hr0 & _).
  assert (Hfields : uninitialized (pipe st1) = false /\
            sessionHistory (pipe st1) =
              <[session_key o := push_message (user_turn o) (chat_session o (now a))]>
                (sessionHistory (pipe (now a))) /\
            runtime_calls (world st1) = runtime_calls (world (now a)) /\
            coordinator_calls (world st1) =
              coordinator_calls (world (now a)) ++
                [{| call_messages := messages (chat_session o (now a)) ++ [user_turn o];
                    call_pastKeyValues := pastKeyValues (chat_session o (now a));
                    call_config := chat_settings o (now a) |}]).
  { split; [unfold uninitialized in *; rewrite Hm, Ht; exact Hinit|].
    split; [rewrite Hs; reflexivity|].
    split; [rewrite Hr; exact Hr0|]. rewrite Hc, Hc0. reflexivity. }
  destruct Hfields as (F1 & F2 & F3 & F4).
  destruct gr as [[[args h] m]|e]; injection H as <- <-; simpl;
    repeat split; try assumption.
  eexists. split; reflexivity.
Qed.

Lemma begin_single_effect o sc tc (a a' : Running) (r : Outcome Settled) :
  step (SingleBegin o sc tc) a = Some (a', r) ->
  tokenizer (pipe (now a')) = tokenizer (pipe (now a)) /\
  model (pipe (now a')) = model (pipe (now a)) /\
  sessionHistory (pipe (now a')) = sessionHistory (pipe (now a)) /\
  match r with
  | Returned _ =>
      exists fl, in_flight a' = in_flight a ++ [fl] /\ flight_session fl = None
  | Threw _ => in_flight a' = in_flight a
  end.
Proof.
  intros H. simpl in H. unfold launch, single_begin in H. run.
  destruct (uninitialized (pipe (now a))).
  - injection H as <- <-. simpl. repeat split.
  - match type of H with context [generate_begin ?m ?c ?g ?s] =>
      destruct (generate_begin m c g s) as [st1 gr] eqn:Hg end.
    destruct (generate_begin_frame _ _ _ _ _ _ Hg) as (Ht & Hm & Hs & _).
    destruct a as [st fls]. simpl in *.
    destruct gr as [[[args h] m]|e]; injection H as <- <-; simpl;
      repeat split; try assumption.
    eexists. split; reflexivity.
Qed.

Lemma finish_effect (fl : Flight) (st st' : St) (r : Outcome Settled) :
  finish fl st = (st', r) ->
  tokenizer (pipe st') = tokenizer (pipe st) /\
  model (pipe st') = model (pipe st) /\
  coordinator_calls (world st') = coordinator_calls (world st) /\
  runtime_calls (world st') =
    runtime_calls (world st) ++
      [{| generate_args := flight_args fl; generate_outcome := flight_outcome fl |}] /\
  match r with
  | Returned _ =>
      exists out reply,
        flight_outcome fl = Returned out /\
        sessionHistory (pipe st') =
          match flight_session fl with
          | Some key =>
              alter (fun s => set_pastKeyValues (past_key_values out)
                                (push_message {| role := assistant; content := reply |} s))
                    key (sessionHistory (pipe st))
          | None => sessionHistory (pipe st)
          end
  | Threw _ => sessionHistory (pipe st') = sessionHistory (pipe st)
  end.
Proof.
  unfold finish, generate_end, chat_end, final_tps. run.
  destruct (flight_outcome fl) as [out|e]; simpl;
    [|intros [= <- <-]; simpl; repeat split].
  destruct (tokenizer (pipe st)) as [t|] eqn:Et; simpl;
    [|intros [= <- <-]; simpl; repeat split; assumption].
  destruct (batch_decode t (sequences out)) as [decoded|e]; simpl;
    [|intros [= <- <-]; simpl; repeat split; assumption].
  destruct decoded as [|d ds]; simpl;
    [intros [= <- <-]; simpl; repeat split; assumption|].
  destruct (startTime (flight_locals fl)) as [start|]; simpl;
    [destruct (num_truthy start); simpl|];
    destruct (flight_session fl) as [key|]; simpl;
    intros [= <- <-]; simpl; repeat split; try assumption;
    first [ exists out, []; split; reflexivity
          | eexists _, _; split; reflexivity ].
Qed.

(** The shape of a session's messages, turn by turn. *)

Lemma alternating_app rest u a :
  role u = user -> role a = assistant ->
  alternating rest = true -> alternating (rest ++ [u; a]) = true.
Proof.
  intros Hu Ha. remember (length rest) as n eqn:Hn. revert rest Hn.
  induction n as [n IH] using lt_wf_ind. intros rest Hn H.
  destruct rest as [|x [|y rest']]; simpl in *.
  - rewrite Hu, Ha. reflexivity.
  - discriminate.
  - destruct (role x); try discriminate. destruct (role y); try discriminate.
    apply (IH (length rest')); [lia | reflexivity | exact H].
Qed.

Lemma shape_new (t : Tally) sys :
  completed t = 0 -> threw t = 0 ->
  history_shape t 0 [initial_message sys].
Proof.
  intros Hc Hf. exists (initial_message sys), [].
  split; [reflexivity|]. split; [apply initial_message_role|].
  split; [rewrite Hc, Hf; reflexivity|]. split; [constructor|].
  intros _ _. exists [], []. repeat split; [lia | constructor].
Qed.

Lemma shape_begin (t : Tally) p msgs u :
  role u = user ->
  history_shape t p msgs ->
  history_shape {| completed := completed t; threw := threw t;
                   overlapped := overlapped t || Nat.ltb 0 p |}
                (p + 1) (msgs ++ [u]).
Proof.
  intros Hu (m & rest & -> & Hm & Hl & Hf & Halt).
  exists m, (rest ++ [u]). split; [reflexivity|]. split; [exact Hm|].
  split; [rewrite length_app, Hl; simpl; lia|].
  split; [apply Forall_app; split; [exact Hf|]; repeat constructor; congruence|].
  simpl. intros H0 Hov. apply orb_false_elim in Hov as (Hov & Hp).
  apply Nat.ltb_ge in Hp.
  destruct (Halt H0 Hov) as (settled & pending & -> & Hs & Hlen & _ & _).
  assert (pending = []) by (destruct pending; [reflexivity | simpl in Hlen; lia]).
  subst pending. rewrite app_nil_r.
  exists settled, [u]. repeat split; [exact Hs | simpl; lia | lia |].
  repeat constructor. exact Hu.
Qed.

Lemma shape_begin_threw (t : Tally) p msgs u :
  role u = user ->
  history_shape t p msgs ->
  history_shape {| completed := completed t; threw := S (threw t);
                   overlapped := overlapped t |} p (msgs ++ [u]).
Proof.
  intros Hu (m & rest & -> & Hm & Hl & Hf & Halt).
  exists m, (rest ++ [u]). split; [reflexivity|]. split; [exact Hm|].
  split; [rewrite length_app, Hl; simpl; lia|].
  split; [apply Forall_app; split; [exact Hf|]; repeat constructor; congruence|].
  simpl. discriminate.
Qed.

Lemma shape_finish (t : Tally) p msgs a :
  role a = assistant ->
  history_shape t (S p) msgs ->
  history_shape {| completed := S (completed t); threw := threw t;
                   overlapped := overlapped t |} p (msgs ++ [a]).
Proof.
  intros Ha (m & rest & -> & Hm & Hl & Hf & Halt).
  exists m, (rest ++ [a]). split; [reflexivity|]. split; [exact Hm|].
  split; [rewrite length_app, Hl; simpl; lia|].
  split; [apply Forall_app; split; [exact Hf|]; repeat constructor; congruence|].
  simpl. intros H0 Hov.
  destruct (Halt H0 Hov) as (settled & pending & -> & Hs & Hlen & Hp & Hu).
  destruct pending as [|u [|u' pending]]; simpl in Hlen; try lia.
  assert (p = 0) by lia. subst p.
  exists (settled ++ [u; a]), []. rewrite app_nil_r, <- app_assoc.
  repeat split; [|lia|constructor].
  apply alternating_app; [|exact Ha|exact Hs].
  apply Forall_inv in Hu. exact Hu.
Qed.

Lemma shape_finish_threw (t : Tally) p msgs :
  history_shape t (S p) msgs ->
  history_shape {| completed := completed t; threw := S (threw t);
                   overlapped := overlapped t |} p msgs.
Proof.
  intros (m & rest & -> & Hm & Hl & Hf & Halt).
  exists m, rest. split; [reflexivity|]. split; [exact Hm|].
  split; [rewrite Hl; simpl; lia|]. split; [exact Hf|].
  simpl. discriminate.
Qed.

Lemma interrupted_session h reaction (fl : Flight) :
  flight_session (interrupted h reaction fl) = flight_session fl.
Proof. unfold interrupted. destruct (bool_decide _); reflexivity. Qed.

Lemma step_finish i (a a' : Running) (r : Outcome Settled) :
  step (Finish i) a = Some (a', r) ->
  exists fl,
    in_flight a !! i = Some fl /\
    flight_pending fl = [] /\
    finish fl (now a) = (now a', r) /\
    in_flight a' = delete i (in_flight a).
Proof.
  unfold step. destruct (in_flight a !! i) as [fl|]; [|discriminate].
  destruct (flight_pending fl) eqn:Hp; [|discriminate].
  intros [= <- <-]. exists fl. split; [reflexivity|]. split; [exact Hp|].
  split; [|reflexivity]. simpl. destruct (finish fl (now a)); reflexivity.
Qed.

(** Every turn that does not clear the key keeps the invariant. *)
Lemma history_step key (t : Tally) (a a' : Running) (e : Event) (r : Outcome Settled) :
  history_invariant key t a ->
  clears key e = false ->
  step e a = Some (a', r) ->
  history_invariant key (count key a e r t) a'.
Proof.
  intros (Hinit & Hinv) Hclear H.
  destruct e as [o sc tc | o sc tc | i | i | id | reaction].
  - destruct (begin_chat_effect _ _ _ _ _ _ Hinit H) as (Hinit' & Hs & _ & _ & Hfl).
    split; [exact Hinit'|]. rewrite Hs. unfold count, flights_on.
    case_bool_decide as Hk.
    + subst key. rewrite lookup_insert_eq.
      assert (Hshape : history_shape t (flights_on (session_key o) a)
                         (messages (chat_session o (now a)))).
      { unfold chat_session.
        destruct (sessionHistory (pipe (now a)) !! session_key o) as [s|];
          [exact Hinv|].
        destruct Hinv as (Hc & Hf & ->). apply shape_new; assumption. }
      destruct r as [x|err].
      * destruct Hfl as (fl & -> & Hfs).
        rewrite filter_length_app, Hfs, bool_decide_eq_true_2 by reflexivity.
        apply shape_begin; [reflexivity | exact Hshape].
      * rewrite Hfl. apply shape_begin_threw; [reflexivity | exact Hshape].
    + rewrite lookup_insert_ne by exact Hk.
      assert (Hsame : length (List.filter
                                (fun fl : Flight => bool_decide (flight_session fl = Some key))
                                (in_flight a')) = flights_on key a).
      { destruct r as [x|err]; [|rewrite Hfl; reflexivity].
        destruct Hfl as (fl & -> & Hfs).
        rewrite filter_length_app, Hfs, bool_decide_eq_false_2 by congruence.
        unfold flights_on. lia. }
      rewrite Hsame. exact Hinv.
  - destruct (begin_single_effect _ _ _ _ _ _ H) as (Ht & Hm & Hs & Hfl).
    split; [unfold uninitialized in *; rewrite Hm, Ht; exact Hinit|].
    rewrite Hs. simpl.
    assert (Hsame : flights_on key a' = flights_on key a).
    { unfold flights_on. destruct r as [x|err]; [|rewrite Hfl; reflexivity].
      destruct Hfl as (fl & -> & Hfs).
      rewrite filter_length_app, Hfs, bool_decide_eq_false_2 by discriminate. lia. }
    rewrite Hsame. exact Hinv.
  - simpl in H. destruct (in_flight a !! i) as [fl|] eqn:Hi; [|discriminate].
    destruct (flight_pending fl) as [|c rest]; [discriminate|].
    assert (Hsame : pipe (now a') = pipe (now a) /\ flights_on key a' = flights_on key a).
    { injection H as <- _. split; [reflexivity|].
      unfold flights_on. simpl. apply (filter_length_insert _ _ _ fl); [exact Hi|].
      reflexivity. }
    destruct Hsame as (Hp & Hn). unfold history_invariant. simpl count.
    rewrite Hp, Hn. split; assumption.
  - destruct (step_finish _ _ _ _ H) as (fl & Hi & _ & Hf & Hfl).
    unfold count. rewrite Hi.
    destruct (finish_effect _ _ _ _ Hf) as (Ht & Hm & _ & _ & Hs).
    split; [unfold uninitialized in *; rewrite Hm, Ht; exact Hinit|].
    unfold flights_on in *. rewrite Hfl. clear H Hf.
    pose proof (filter_length_delete
                  (fun fl : Flight => bool_decide (flight_session fl = Some key))
                  _ _ _ Hi) as Hdel.
    cbv beta in Hdel.
    destruct (decide (flight_session fl = Some key)) as [Hk|Hk];
      [ rewrite (bool_decide_eq_true_2 _ Hk) in Hdel |- *
      | rewrite (bool_decide_eq_false_2 _ Hk) in Hdel |- * ].
    + destruct (sessionHistory (pipe (now a)) !! key) as [s|] eqn:Hlook;
        [|destruct Hinv as (_ & _ & Hz); lia].
      replace (length (List.filter
                         (fun fl0 : Flight => bool_decide (flight_session fl0 = Some key))
                         (in_flight a)))
        with (S (length (List.filter
                           (fun fl0 : Flight => bool_decide (flight_session fl0 = Some key))
                           (delete i (in_flight a))))) in Hinv by lia.
      destruct r as [x|err].
      * destruct Hs as (out & reply & _ & ->). rewrite Hk.
        rewrite lookup_alter_eq, Hlook. simpl.
        apply shape_finish; [reflexivity | exact Hinv].
      * rewrite Hs, Hlook. apply shape_finish_threw. exact Hinv.
    + replace (length (List.filter
                         (fun fl0 : Flight => bool_decide (flight_session fl0 = Some key))
                         (delete i (in_flight a))))
        with (length (List.filter
                        (fun fl0 : Flight => bool_decide (flight_session fl0 = Some key))
                        (in_flight a))) by lia.
      assert (Hsame : sessionHistory (pipe (now a')) !! key =
                      sessionHistory (pipe (now a)) !! key).
      { destruct r as [x|err]; [|rewrite Hs; reflexivity].
        destruct Hs as (out & reply & _ & ->).
        destruct (flight_session fl) as [k|]; [|reflexivity].
        apply lookup_alter_ne. congruence. }
      rewrite Hsame. exact Hinv.
  - simpl in Hclear. apply bool_decide_eq_false in Hclear.
    simpl in H. case_bool_decide; [|discriminate].
    assert (Hsame : uninitialized (pipe (now a')) = uninitialized (pipe (now a)) /\
                    sessionHistory (pipe (now a')) !! key =
                      sessionHistory (pipe (now a)) !! key /\
                    flights_on key a' = flights_on key a).
    { injection H as <- _. unfold flights_on. simpl.
      unfold clearSession. run.
      destruct (sessionHistory (pipe (now a)) !! default default_session id); simpl;
        repeat split.
      apply lookup_delete_ne. exact Hclear. }
    destruct Hsame as (Hu & Hs & Hn). unfold history_invariant. simpl count.
    rewrite Hu, Hs, Hn. split; assumption.
  - simpl in H.
    assert (Hsame : pipe (now a') = pipe (now a) /\ flights_on key a' = flights_on key a).
    { injection H as <- _. split.
      - unfold interrupt. run.
        destruct (currentStoppingCriteria (pipe (now a))); reflexivity.
      - unfold flights_on. simpl. apply filter_length_map.
        intros fl. rewrite interrupted_session. reflexivity. }
    destruct Hsame as (Hp & Hn). unfold history_invariant. simpl count.
    rewrite Hp, Hn. split; assumption.
Qed.

Lemma history_invariant_run key es (a a' : Running) (t t' : Tally) :
  history_invariant key t a ->
  history key es a t = Some (a', t') ->
  history_invariant key t' a'.
Proof.
  revert a t. induction es as [|e es IH]; intros a t Hinv H; simpl in H.
  - injection H as <- <-. exact Hinv.
  - destruct (clears key e) eqn:Hclear; [discriminate|].
    destruct (step e a) as [[a1 r]|] eqn:Hstep; [|discriminate].
    apply (IH _ _ (history_step _ _ _ _ _ _ Hinv Hclear Hstep) H).
Qed.

(** C2, as the code has it. For a session key that is not in the store:
    the first [getSession] of the key stores a session whose messages
    are one message of role system. And at every moment of every
    history of the key on a loaded model, with calls overlapping as they
    come, when n chat calls on the key have returned, f have thrown and
    p are in flight, the key's session has 1 + 2n + f + p messages, the
    first of role system and none of the others; and as long as no call
    on the key threw and none began while another was in flight, the
    others are user and assistant turns in alternation, followed by the
    user turn of the call in flight if there is one. *)
Theorem chat_history_shape key (st0 : St) :
  sessionHistory (pipe st0) !! key = None ->
  (forall sys, exists s m,
     snd (getSession (Some key) sys st0) = Returned s /\
     sessionHistory (pipe (fst (getSession (Some key) sys st0))) !! key = Some s /\
     messages s = [m] /\ role m = system) /\
  (forall es (a : Running) (t : Tally),
     uninitialized (pipe st0) = false ->
     history key es (idle st0) no_calls = Some (a, t) ->
     0 < completed t + threw t + flights_on key a ->
     exists s m rest,
       sessionHistory (pipe (now a)) !! key = Some s /\
       messages s = m :: rest /\
       role m = system /\
       length (messages s) = 1 + 2 * completed t + threw t + flights_on key a /\
       Forall (fun x => role x <> system) rest /\
       (threw t = 0 -> overlapped t = false ->
        exists settled pending,
          rest = settled ++ pending /\
          alternating settled = true /\
          length pending = flights_on key a /\
          flights_on key a <= 1 /\
          Forall (fun x => role x = user) pending)).
Proof.
  intros Hnone. split.
  - intros sys. rewrite (getSession_fresh _ _ _ Hnone). simpl.
    exists (new_session sys st0), (initial_message sys).
    rewrite lookup_insert_eq. repeat split. apply initial_message_role.
  - intros es a t Hinit H Hpos.
    assert (Hstart : history_invariant key no_calls (idle st0)).
    { split; [exact Hinit|]. simpl. rewrite Hnone. repeat split. }
    destruct (history_invariant_run _ _ _ _ _ _ Hstart H) as (_ & Hinv).
    destruct (sessionHistory (pipe (now a)) !! key) as [s|]; [|lia].
    destruct Hinv as (m & rest & Hm & Hr & Hl & Hf & Ha).
    exists s, m, rest. repeat split; try assumption.
    rewrite Hm. simpl. rewrite Hl. lia.
Qed.

(** *** The cache from one call to the next *)






(** *** A call with nothing in between *)

(** The coordinator, cut at the call of the runtime. *)
Lemma generate_split msgs cache cfg (sc : StreamObserver) (tc : RateObserver) (st : St)
    session :
  _generate msgs cache cfg sc tc st =
    match generate_begin msgs cache cfg st with
    | (st1, Returned (args, h, m)) =>
        let run := generate m (length (runtime_calls (world st1))) args in
        let lw := run_streamer sc tc (fst run)
                    {| startTime := None; numTokens := 0; generatedText := [] |}
                    (world st1) in
        generate_end {| flight_session := session;
                        flight_streamCallback := sc;
                        flight_tokenCallback := tc;
                        flight_locals := fst lw;
                        flight_args := args;
                        flight_stoppingCriteria := h;
                        flight_pending := [];
                        flight_outcome := snd run |}
                     {| world := snd lw; pipe := pipe st1 |}
    | (st1, Threw e) => (st1, Threw e)
    end.
Proof.
  unfold _generate, generate_begin, generate_end, model_generate. run.
  destruct (tokenizer (pipe st)) as [t|] eqn:Et; simpl; [|reflexivity].
  destruct (apply_chat_template t msgs) as [inputs|e]; simpl; [|reflexivity].
  destruct (model (pipe st)) as [m|] eqn:Em; simpl; [|reflexivity].
  match goal with |- context [generate m ?k ?a] =>
    destruct (generate m k a) as [calls outcome] end. simpl.
  match goal with |- context [run_streamer sc tc calls ?l ?w] =>
    destruct (run_streamer sc tc calls l w) as [l' w'] end. simpl.
  destruct outcome as [out|e]; simpl; [|reflexivity].
  rewrite Et. simpl.
  destruct (batch_decode t (sequences out)) as [decoded|e]; simpl; [|reflexivity].
  destruct decoded as [|d ds]; simpl; [reflexivity|].
  destruct (final_tps l' _) as [st2 [tps|e]]; reflexivity.
Qed.

(** The streamer calls of the only call in flight, one turn each. *)
Lemma turns_progress session (sc : StreamObserver) (tc : RateObserver) calls (l : Locals)
    args h outcome (st : St) :
  turns (replicate (length calls) (Progress 0))
    {| now := st;
       in_flight := [{| flight_session := session; flight_streamCallback := sc;
                        flight_tokenCallback := tc; flight_locals := l;
                        flight_args := args; flight_stoppingCriteria := h;
                        flight_pending := calls; flight_outcome := outcome |}] |} =
  Some {| now := {| world := snd (run_streamer sc tc calls l (world st));
                    pipe := pipe st |};
          in_flight := [{| flight_session := session; flight_streamCallback := sc;
                           flight_tokenCallback := tc;
                           flight_locals := fst (run_streamer sc tc calls l (world st));
                           flight_args := args; flight_stoppingCriteria := h;
                           flight_pending := []; flight_outcome := outcome |}] |}.
Proof.
  revert l st. induction calls as [|c calls IH]; intros l st.
  - simpl. destruct st. reflexivity.
  - simpl. unfold progress. simpl. rewrite IH. simpl.
    unfold run_streamer. simpl.
    destruct (streamer_step sc tc (l, world st) c) as [l1 w1]. reflexivity.
Qed.

Lemma generateChat_split o sc tc (st : St) :
  uninitialized (pipe st) = false ->
  generateChat o sc tc st =
    bind (_generate (messages (chat_session o st) ++ [user_turn o])
            (pastKeyValues (chat_session o st)) (chat_settings o st) sc tc)
         (chat_end (session_key o)) (chat_pushed o st).
Proof.
  intros Hinit. unfold generateChat, chat_end. run. rewrite Hinit.
  unfold chat_pushed, chat_session, chat_settings.
  destruct (sessionHistory (pipe st) !! session_key o) as [s|] eqn:Hs.
  - rewrite (getSession_existing _ _ _ _ Hs). simpl.
    rewrite (alter_present _ _ _ _ Hs). reflexivity.
  - rewrite (getSession_fresh _ _ _ Hs). simpl.
    rewrite (alter_present _ _ _ _ (lookup_insert_eq _ _ _)), insert_insert_eq.
    reflexivity.
Qed.

(** The calls in flight refine the calls run in one piece: a chat call
    that begins with nothing in flight, whose streamer calls and whose
    end follow with nothing in between, is [generateChat]. *)
Lemma uninterrupted_chat o sc tc (st : St) :
  uninterrupted (ChatBegin o sc tc) st =
    Some (fst (generateChat o sc tc st), chat_settled (snd (generateChat o sc tc st))).
Proof.
  unfold uninterrupted. cbn [step]. unfold launch, idle. cbn [now in_flight].
  destruct (uninitialized (pipe st)) eqn:Hinit.
  - unfold chat_begin, generateChat. run. rewrite Hinit. reflexivity.
  - rewrite (chat_begin_run _ _ Hinit), (generateChat_split _ _ _ _ Hinit).
    unfold bind.
    rewrite (generate_split _ _ _ sc tc _ (Some (session_key o))).
    destruct (generate_begin _ _ _ (chat_pushed o st)) as [st1 [[[args h] m]|e]];
      [|reflexivity].
    cbn [length app]. rewrite Nat.add_0_r.
    cbn [in_flight lookup list_lookup flight_pending]. rewrite turns_progress.
    cbn [step in_flight lookup list_lookup flight_pending now].
    unfold finish. cbn [flight_session]. unfold bind.
    match goal with |- context [generate_end ?f ?s] =>
      destruct (generate_end f s) as [st3 [resp|e]] end; [|reflexivity].
    unfold chat_end. run. reflexivity.
Qed.

(** The same for a single-mode call. *)
Lemma uninterrupted_single o sc tc (st : St) :
  uninterrupted (SingleBegin o sc tc) st =
    Some (fst (generateSingle o sc tc st),
          single_settled (snd (generateSingle o sc tc st))).
Proof.
  unfold uninterrupted. cbn [step]. unfold launch, idle. cbn [now in_flight].
  unfold single_begin, generateSingle. unfold bind, get_pipe.
  destruct (uninitialized (pipe st)) eqn:Hinit; [reflexivity|].
  rewrite (generate_split _ _ _ sc tc _ None).
  destruct (generate_begin _ _ _ st) as [st1 [[[args h] m]|e]]; [|reflexivity].
  cbn [length app]. rewrite Nat.add_0_r.
  cbn [in_flight lookup list_lookup flight_pending]. rewrite turns_progress.
  cbn [step in_flight lookup list_lookup flight_pending now].
  unfold finish. cbn [flight_session]. unfold bind.
  match goal with |- context [generate_end ?f ?s] =>
    destruct (generate_end f s) as [st3 [resp|e]] end; reflexivity.
Qed.
End WorkerProperties.

(** ** The capability probe and the loading of the model *)

Section LoadingProperties.
Context {num : Type} {JN : JsNumber num} {CK : Clocks num} {JM : JsMath num}.
Context {NV : Navigator (num := num)} {LD : Loaders (num := num)}.

Local Abbreviation St := (St (num := num)).
Local Abbreviation World := (World (num := num)).
Local Abbreviation ModelConfig := (ModelConfig (num := num)).
Local Abbreviation ModelInitializationOptions := (ModelInitializationOptions (num := num)).
Local Abbreviation ProgressObserver := (option (Callback (num := num) (ProgressData (num := num)))).
Local Abbreviation ChatGenerationOptions := (ChatGenerationOptions (num := num)).

Ltac run_load :=
  unfold load_tokenizer, load_model, bind, ret, throw, lift, get_pipe,
    modify_world, modify_pipe in *;
  simpl in *.

(** X17. An [initialize] call whose model is a name that is no preset
    (and no property of [Object.prototype]) throws "Invalid model
    configuration" without loading anything, but only after it has
    replaced the stored settings. *)
Theorem invalid_model_rejected_after_settings (o : ModelInitializationOptions)
    (cb : ProgressObserver) (st : St) :
  resolve_model (init_model o) = Invalid ->
  exists c,
    initialize o cb = Some c /\
    c st = ({| world := world st;
               pipe := set_config (Some (stored_settings o)) (pipe st) |},
            Threw invalid_model).
Proof.
  intros H. unfold initialize. rewrite H. eexists. split; [reflexivity|].
  run_load. reflexivity.
Qed.

(** X18. [initialize] never reloads: on a pipeline that holds a
    tokenizer and a model, a call with a valid model replaces the stored
    settings and the model descriptor, calls no loader and no progress
    observer, and returns the tokenizer and the model the pipeline
    already held. *)
Theorem initialize_never_reloads (o : ModelInitializationOptions) (cb : ProgressObserver)
    (st : St) tk m info :
  tokenizer (pipe st) = Some tk ->
  model (pipe st) = Some m ->
  resolve_model (init_model o) = Resolved info ->
  exists c,
    initialize o cb = Some c /\
    c st = ({| world := world st;
               pipe := set_modelInfo (Some info)
                         (set_config (Some (stored_settings o)) (pipe st)) |},
            Returned (Some tk, Some m)).
Proof.
  intros Ht Hm H. unfold initialize. rewrite H. eexists. split; [reflexivity|].
  run_load. rewrite Ht. simpl. rewrite Hm. simpl. rewrite Ht, Hm. reflexivity.
Qed.

(** *** The progress observer *)

Lemma wrappedCallback_step (info : ModelConfig) (cb : ProgressObserver) progress (w : World) :
  (is_onnx progress = false /\ wrappedCallback info cb progress w = w) \/
  (is_onnx progress = true /\
   exists d, passes_on info d progress /\
     wrappedCallback info cb progress w =
       match cb with Some callback => post (callback d) w | None => w end).
Proof.
  unfold wrappedCallback, is_onnx.
  destruct progress as [p|]; [|left; destruct cb; split; reflexivity].
  destruct (raw_file p) as [f|] eqn:Hf; [|left; destruct cb; split; reflexivity].
  destruct (includes (js ".onnx") f); [|left; destruct cb; split; reflexivity].
  right. split; [reflexivity|].
  destruct cb as [callback|].
  - eexists. split; [|reflexivity]. exists p. repeat split. exact Hf.
  - exists {| progress_status := raw_status p; loaded := num_lit 0;
              total := size info; percentage := num_lit 0;
              modelName := []; file := f |}.
    split; [|reflexivity]. exists p. repeat split. exact Hf.
Qed.

Lemma wrapped_callbacks (info : ModelConfig) (cb : ProgressObserver) events (w : World) :
  exists ds,
    Forall2 (passes_on info) ds (List.filter is_onnx events) /\
    fold_left (fun w progress => wrappedCallback info cb progress w) events w =
      {| outbox := outbox w ++ match cb with
                               | Some callback => map callback ds
                               | None => []
                               end;
         perf_reads := perf_reads w; date_reads := date_reads w;
         coordinator_calls := coordinator_calls w;
         runtime_calls := runtime_calls w; objects := objects w;
         interrupts := interrupts w |}.
Proof.
  revert w. induction events as [|e events IH]; intros w.
  - exists []. split; [constructor|]. simpl.
    destruct w, cb; simpl; rewrite ?app_nil_r; reflexivity.
  - simpl fold_left. simpl List.filter.
    destruct (wrappedCallback_step info cb e w) as [(Hno & ->)|(Hyes & d & Hd & ->)].
    + rewrite Hno. apply IH.
    + rewrite Hyes.
      destruct (IH (match cb with Some callback => post (callback d) w | None => w end))
        as (ds & Hds & Hw).
      exists (d :: ds). split; [constructor; assumption|].
      rewrite Hw. destruct cb as [callback|]; simpl; [|reflexivity].
      rewrite <- app_assoc. reflexivity.
Qed.

(** X19. A first [initialize] call whose loaders succeed leaves the
    pipeline initialized with the loaded tokenizer and model, keeps the
    sessions, and calls the progress observer once for each progress
    event of the model loader whose file name contains ".onnx", in
    order, with that event's status and file and with the descriptor's
    size as total; the other events, and all of them when there is no
    observer, are dropped. *)
Theorem first_load_forwards_weight_progress (o : ModelInitializationOptions)
    (cb : ProgressObserver) (st : St) info tk m events :
  tokenizer (pipe st) = None ->
  model (pipe st) = None ->
  resolve_model (init_model o) = Resolved info ->
  tokenizer_from_pretrained (id info) = Returned tk ->
  model_from_pretrained (id info) (or_string (dtype info) (js "q4f16"))
    (or_string (device info) (js "webgpu")) = (events, Returned m) ->
  exists c st' ds,
    initialize o cb = Some c /\
    c st = (st', Returned (Some tk, Some m)) /\
    uninitialized (pipe st') = false /\
    modelInfo (pipe st') = Some info /\
    sessionHistory (pipe st') = sessionHistory (pipe st) /\
    Forall2 (passes_on info) ds (List.filter is_onnx events) /\
    outbox (world st') =
      outbox (world st) ++ match cb with
                           | Some callback => map callback ds
                           | None => []
                           end.
Proof.
  intros Ht Hm H Htk Hmd. unfold initialize. rewrite H.
  destruct (wrapped_callbacks info cb events (world st)) as (ds & Hds & Hw).
  eexists _, _, ds. split; [reflexivity|].
  run_load. rewrite Ht, Htk. simpl. rewrite Hm, Hmd. simpl.
  rewrite Hw. simpl.
  split; [reflexivity|]. repeat split. exact Hds.
Qed.

(** X20. An [initialize] call that throws on a pipeline that was not
    initialized leaves it not initialized, with the sessions it had:
    whatever was loaded before the failure, a chat call and a single
    call made afterwards are still refused with "Model not initialized.
    Call initialize() first.". *)
Theorem failed_initialize_stays_uninitialized (o : ModelInitializationOptions)
    (cb : ProgressObserver) c (st st' : St) e :
  initialize o cb = Some c ->
  c st = (st', Threw e) ->
  uninitialized (pipe st) = true ->
  uninitialized (pipe st') = true /\
  sessionHistory (pipe st') = sessionHistory (pipe st) /\
  (forall co sc tc, generateChat co sc tc st' = (st', Threw not_initialized)) /\
  (forall so sc tc, generateSingle so sc tc st' = (st', Threw not_initialized)).
Proof.
  intros Hi Hc Hu.
  assert (Hres : uninitialized (pipe st') = true /\
                 sessionHistory (pipe st') = sessionHistory (pipe st)).
  { unfold initialize in Hi.
    destruct (resolve_model (init_model o)) as [info| |] eqn:Hr; [|discriminate|];
      injection Hi as <-; run_load.
    - unfold uninitialized in Hu |- *.
      destruct (tokenizer (pipe st)) as [tk|] eqn:Ht; simpl in Hc.
      + destruct (model (pipe st)) as [m|] eqn:Hm; [discriminate|]. simpl in Hc.
        destruct (model_from_pretrained _ _ _) as [events [m|e']]; simpl in Hc;
          [discriminate|].
        injection Hc as <- _. simpl. rewrite ?Ht, ?Hm. split; reflexivity.
      + destruct (tokenizer_from_pretrained _) as [tk|e']; simpl in Hc.
        * destruct (model (pipe st)) as [m|] eqn:Hm; simpl in Hc; [discriminate|].
          destruct (model_from_pretrained _ _ _) as [events [m|e']]; simpl in Hc;
            [discriminate|].
          injection Hc as <- _. simpl. rewrite ?Ht, ?Hm. split; reflexivity.
        * injection Hc as <- _. simpl. rewrite Ht.
          split; [destruct (model (pipe st))|]; reflexivity.
    - injection Hc as <- _. split; [|reflexivity].
      unfold uninitialized in Hu |- *. simpl. exact Hu. }
  destruct Hres as (Hu' & Hs). repeat split; try assumption.
  - intros co sc tc. unfold generateChat, bind, get_pipe. simpl. rewrite Hu'.
    reflexivity.
  - intros so sc tc. unfold generateSingle, bind, get_pipe. simpl. rewrite Hu'.
    reflexivity.
Qed.

(** *** The settings of a call after the load *)

Lemma initialize_config (o : ModelInitializationOptions) (cb : ProgressObserver) c (st : St) :
  initialize o cb = Some c ->
  config (pipe (fst (c st))) = Some (stored_settings o).
Proof.
  intros Hi. unfold initialize in Hi.
  destruct (resolve_model (init_model o)) as [info| |] eqn:Hr; [|discriminate|];
    injection Hi as <-; run_load; [|reflexivity].
  destruct (tokenizer (pipe st)) as [tk|]; simpl.
  - destruct (model (pipe st)) as [m|]; simpl; [reflexivity|].
    destruct (model_from_pretrained _ _ _) as [events [m|e']]; reflexivity.
  - destruct (tokenizer_from_pretrained _) as [tk|e']; simpl; [|reflexivity].
    destruct (model (pipe st)) as [m|]; simpl; [reflexivity|].
    destruct (model_from_pretrained _ _ _) as [events [m|e']]; reflexivity.
Qed.

(** X21. After an [initialize] call, however it ends, a setting of a
    chat call is the call's own when the call gives it, else the one of
    the initialization options, else the default. The options' [model]
    property is such a setting: unless the call overrides it, it is
    passed to the runtime as the property [model] of the argument of
    [generate]. *)
Theorem settings_after_initialize (o : ModelInitializationOptions) (cb : ProgressObserver)
    c (st : St) (co : ChatGenerationOptions) :
  initialize o cb = Some c ->
  (forall k,
     chat_settings co (fst (c st)) !! k =
       match default empty (generationConfig co) !! k with
       | Some v => Some v
       | None =>
           match options_properties o !! k with
           | Some v => Some v
           | None => DEFAULT_GENERATION_CONFIG !! k
           end
       end) /\
  (default empty (generationConfig co) !! js "model" = None ->
   forall inputs cache s cr,
     generate_arguments inputs cache (chat_settings co (fst (c st))) s cr !! js "model" =
       Some match init_model o with
            | PresetName name => JStr name
            | Descriptor object _ => JRef object
            end).
Proof.
  intros Hi.
  assert (Hk : forall k,
     chat_settings co (fst (c st)) !! k =
       match default empty (generationConfig co) !! k with
       | Some v => Some v
       | None => match options_properties o !! k with
                 | Some v => Some v
                 | None => DEFAULT_GENERATION_CONFIG !! k
                 end
       end).
  { intros k. unfold chat_settings. rewrite (initialize_config o cb c st Hi).
    simpl. rewrite spread_lookup. unfold stored_settings.
    rewrite spread_lookup. reflexivity. }
  split; [exact Hk|].
  intros Hnone inputs cache s cr. unfold generate_arguments.
  rewrite !lookup_insert_ne by discriminate.
  rewrite spread_lookup, Hk, Hnone.
  unfold options_properties. rewrite lookup_insert_eq. reflexivity.
Qed.

(** X22. [checkWebGPUSupport] reports support exactly when the browser
    has [navigator.gpu] and its [requestAdapter()] resolves to a truthy
    value; a report of support carries that adapter and no error, and a
    report of no support carries an error text and no adapter. *)
Theorem webgpu_support_report :
  (supported checkWebGPUSupport = true <->
     exists a, gpu = Some (Returned a) /\ truthy a = true) /\
  (supported checkWebGPUSupport = true ->
     exists a, gpu = Some (Returned a) /\
       adapter checkWebGPUSupport = Some a /\
       support_error checkWebGPUSupport = None) /\
  (supported checkWebGPUSupport = false ->
     adapter checkWebGPUSupport = None /\
     exists text, support_error checkWebGPUSupport = Some text).
Proof.
  unfold checkWebGPUSupport.
  destruct gpu as [[a|e]|]; simpl.
  - destruct (truthy a) eqn:Ha; simpl.
    + split; [split; [intros _; exists a; split; [reflexivity|exact Ha]|reflexivity]|].
      split; [intros _; exists a; repeat split|discriminate].
    + split; [split; [discriminate|intros (a' & [= <-] & Ha'); congruence]|].
      split; [discriminate|]. intros _. split; [reflexivity|]. eexists. reflexivity.
  - split; [split; [discriminate|intros (a' & [=] & _)]|].
    split; [discriminate|]. intros _. split; [reflexivity|]. eexists. reflexivity.
  - split; [split; [discriminate|intros (a' & [=] & _)]|].
    split; [discriminate|]. intros _. split; [reflexivity|]. eexists. reflexivity.
Qed.

End LoadingProperties.

(** ** The properties on the concrete host *)

(** C1 as stated fails: the runtime throws on the first chat request on
    the stored default session, the error is reported, and the session's
    messages are not what they were: the user turn has been added. *)
Lemma chat_failure_leaves_user_turn :
  snd (generate flaky_model 0 empty) = Threw (ThrowError (js "device lost")) /\
  last (outbox (world (fst (handle_generateChat hi_options seeded_state)))) =
    Some (worker_message T_generateChat S_error (DataError (js "device lost"))) /\
  messages <$> sessionHistory (pipe seeded_state) !! default_session =
    Some [DEFAULT_SYSTEM_MESSAGE] /\
  messages <$> sessionHistory (pipe (fst (handle_generateChat hi_options seeded_state)))
                 !! default_session =
    Some [DEFAULT_SYSTEM_MESSAGE; {| role := user; content := js "Hi" |}].
Proof. vm_compute. repeat split. Qed.

Lemma chat_runtime_failure_witness :
  last (outbox (world (fst (handle_generateChat hi_options seeded_state)))) =
    Some (worker_message T_generateChat S_error (DataError (js "device lost"))) /\
  sessionHistory (pipe (fst (handle_generateChat hi_options seeded_state))) =
    <[default_session := {| messages := [DEFAULT_SYSTEM_MESSAGE; user_turn hi_options];
                            pastKeyValues := JNull;
                            createdAt := 0%Q |}]>
      (sessionHistory (pipe seeded_state)).
Proof.
  apply (chat_runtime_failure_keeps_user_turn hi_options seeded_state
           example_tokenizer flaky_model
           {| messages := [DEFAULT_SYSTEM_MESSAGE]; pastKeyValues := JNull;
              createdAt := 0%Q |}
           (<[js "input_ids" := JRef 1%N]> empty)
           [TokenCallback; TextCallback (js "He")]
           (ThrowError (js "device lost")));
    reflexivity.
Defined.

Lemma first_call_threw :
  generateChat hi_options None None loaded_state =
    (after_failed_call, Threw (ThrowError (js "device lost"))).
Proof.
  unfold after_failed_call.
  rewrite (surjective_pairing (generateChat hi_options None None loaded_state)) at 1.
  f_equal.
Defined.

Lemma second_call_completed :
  exists r, generateChat hi_options None None after_failed_call =
              (after_completed_call, Returned r).
Proof.
  unfold after_completed_call.
  destruct (generateChat hi_options None None after_failed_call) as [st r] eqn:H.
  assert (Hr : snd (generateChat hi_options None None after_failed_call) =
               Returned {| chat_text := js "Hello!"; chat_sessionId := js "default";
                           chat_messageCount := 4;
                           chat_tokensPerSecond := (3000 # 5)%Q |})
    by (vm_compute; reflexivity).
  rewrite H in Hr. simpl in Hr. subst r. eexists. reflexivity.
Defined.

(** C2 as stated fails, in two ways. After a chat call that threw in the
    runtime and one that completed, one chat call has completed on the
    default session and its messages are system, user, user, assistant:
    four and not three. After two chat calls of which the second began
    while the first was suspended in the runtime, two calls have
    completed, none has thrown, and the messages are system, user, user,
    assistant, assistant: five, and not in alternation. *)
Lemma completed_calls_break_the_shape :
  outline default_session
    (history default_session failed_then_completed (idle loaded_state) no_calls) =
    Some ({| completed := 1; threw := 1; overlapped := false |}, 0,
          [system; user; user; assistant], false) /\
  length [system; user; user; assistant] <> 1 + 2 * 1 /\
  outline default_session
    (history default_session overlapping_calls (idle steady_state) no_calls) =
    Some ({| completed := 2; threw := 0; overlapped := true |}, 0,
          [system; user; user; assistant; assistant], false).
Proof.
  split; [vm_compute; reflexivity|]. split; [simpl; lia|]. vm_compute. reflexivity.
Qed.

Lemma chat_history_shape_witness :
  exists s m rest,
    sessionHistory (pipe (now (after_turns calls_in_turn steady_state))) !! default_session =
      Some s /\
    messages s = m :: rest /\
    role m = system /\
    length (messages s) = 1 + 2 * 2 /\
    Forall (fun x => role x <> system) rest /\
    alternating rest = true.
Proof.
  destruct (proj2 (chat_history_shape default_session steady_state eq_refl)
              calls_in_turn (after_turns calls_in_turn steady_state)
              {| completed := 2; threw := 0; overlapped := false |})
    as (s & m & rest & Hs & Hm & Hr & Hl & Hf & Halt);
    [reflexivity | vm_compute; reflexivity | vm_compute; lia |].
  destruct (Halt eq_refl eq_refl) as (settled & pending & -> & Hsettled & Hlen & _ & _).
  assert (Hnone : flights_on default_session (after_turns calls_in_turn steady_state) = 0)
    by (vm_compute; reflexivity).
  rewrite Hnone in Hlen, Hl.
  destruct pending; [|discriminate Hlen]. rewrite app_nil_r in *.
  exists s, m, settled. repeat split; assumption.
Defined.



Lemma rate_observer_invocations_witness :
  exists posted,
    outbox (world (fst (_generate [DEFAULT_SYSTEM_MESSAGE; user_turn hi_options] JNull empty
                          (Some (streaming_event T_generateSingle))
                          (Some (token_stats_event T_generateSingle))
                          after_failed_call))) =
      outbox (world after_failed_call) ++ posted /\
    List.filter is_token_stats posted =
      map (fun k => token_stats_event T_generateSingle
                      (rate_at (perf_reads (world after_failed_call)) k))
          (seq 2 (emitted_tokens example_stream - 1)).
Proof.
  apply (rate_observer_invocations _ JNull empty _ _ is_token_stats after_failed_call
           example_tokenizer flaky_model (<[js "input_ids" := JRef 1%N]> empty)
           example_stream
           (Returned {| sequences := JRef 7%N; past_key_values := JRef 101%N |}));
    try reflexivity.
  intros f d [= <-]. reflexivity.
Defined.

Lemma uninitialized_call_rejected_witness :
  generateChat hi_options None None fresh_state = (fresh_state, Threw not_initialized) /\
  generateSingle hi_prompt None None fresh_state = (fresh_state, Threw not_initialized).
Proof.
  destruct (uninitialized_call_rejected fresh_state eq_refl) as (Hchat & Hsingle & _).
  split; [apply Hchat | apply Hsingle].
Defined.

Lemma effective_settings_override_witness :
  exists c,
    last (coordinator_calls
            (world (fst (generateChat hi_options None None two_settings_state)))) = Some c /\
    call_config c =
      list_to_map [ (js "temperature", JNum (num_lit (7 # 10)));
                    (js "max_new_tokens", JNum (num_lit 256)) ].
Proof.
  destruct (effective_settings_override two_settings_state eq_refl) as (_ & _ & H).
  apply (H eq_refl hi_options None None eq_refl).
Defined.

Lemma final_text_after_last_marker_witness :
  exists st' r,
    _generate [DEFAULT_SYSTEM_MESSAGE; user_turn hi_options] JNull empty None None
      after_failed_call = (st', Returned r) /\
    text r = js "Hello!" /\
    exists tk m inputs calls out d ds,
      tokenizer (pipe after_failed_call) = Some tk /\
      model (pipe after_failed_call) = Some m /\
      apply_chat_template tk [DEFAULT_SYSTEM_MESSAGE; user_turn hi_options] =
        Returned inputs /\
      generate m (length (runtime_calls (world after_failed_call)))
        (generate_arguments inputs JNull empty (objects (world after_failed_call))
           (N.succ (objects (world after_failed_call)))) = (calls, Returned out) /\
      batch_decode tk (sequences out) = Returned (d :: ds) /\
      text r = final_text_spec d (streamed_text calls).
Proof.
  destruct (_generate [DEFAULT_SYSTEM_MESSAGE; user_turn hi_options] JNull empty None None
              after_failed_call) as [st' o] eqn:H.
  assert (Ho : exists r, o = Returned r /\ text r = js "Hello!").
  { replace o with (snd (_generate [DEFAULT_SYSTEM_MESSAGE; user_turn hi_options] JNull
                           empty None None after_failed_call))
      by (rewrite H; reflexivity).
    vm_compute. eexists. split; reflexivity. }
  destruct Ho as (r & -> & Hr).
  exists st', r. split; [reflexivity|]. split; [exact Hr|].
  exact (final_text_after_last_marker _ _ _ _ _ _ _ _ H).
Defined.

Lemma existing_session_witness :
  getSession None (Some (js "Answer in French.")) seeded_state =
    (seeded_state, Returned {| messages := [DEFAULT_SYSTEM_MESSAGE];
                               pastKeyValues := JNull; createdAt := 0%Q |}).
Proof.
  apply (existing_session_ignores_system_message None (Some (js "Answer in French."))
           seeded_state).
  reflexivity.
Defined.

(** ** The further properties on the concrete host *)

Lemma cleared_session_witness :
  coordinator_calls
    (world (fst (generateChat hi_options None None
                   (fst (clearSession (Some (session_key hi_options)) seeded_state))))) =
  coordinator_calls (world seeded_state) ++
    [{| call_messages := [initial_message (systemMessage hi_options); user_turn hi_options];
        call_pastKeyValues := JNull;
        call_config := chat_settings hi_options seeded_state |}].
Proof.
  apply (cleared_session_starts_afresh hi_options None None seeded_state).
  reflexivity.
Defined.

Lemma chat_call_touches_one_session_witness :
  sessionHistory (pipe (fst (generateChat empty_id_options None None seeded_state)))
    !! default_session =
  sessionHistory (pipe seeded_state) !! default_session.
Proof.
  apply (chat_call_touches_one_session empty_id_options None None seeded_state
           default_session).
  vm_compute. discriminate.
Defined.

Lemma completed_chat_session_info_witness :
  exists r rc out s',
    generateChat hi_options None None after_failed_call =
      (after_completed_call, Returned r) /\
    last (runtime_calls (world after_completed_call)) = Some rc /\
    generate_outcome rc = Returned out /\
    getSessionInfo (Some (chat_sessionId r)) (pipe after_completed_call) =
      Some {| messageCount := chat_messageCount r;
              info_createdAt := createdAt (chat_session hi_options after_failed_call);
              hasPastKeyValues := truthy (past_key_values out) |} /\
    sessionHistory (pipe after_completed_call) !! chat_sessionId r = Some s' /\
    last (messages s') = Some {| role := assistant; content := chat_text r |}.
Proof.
  destruct second_call_completed as (r & H).
  destruct (completed_chat_session_info hi_options None None after_failed_call
              after_completed_call r H) as (rc & out & s' & Hinfo).
  exists r, rc, out, s'. split; [exact H | exact Hinfo].
Defined.

Lemma stream_observer_invocations_witness :
  exists posted,
    outbox (world (fst (_generate hi_messages JNull empty
                          (Some (streaming_event T_generateSingle))
                          (Some (token_stats_event T_generateSingle))
                          after_failed_call))) =
      outbox (world after_failed_call) ++ posted /\
    List.filter is_streaming posted =
      map (streaming_event T_generateSingle) (stream_reports example_stream [] 0).
Proof.
  apply (stream_observer_invocations hi_messages JNull empty _ _ is_streaming
           after_failed_call example_tokenizer flaky_model
           (<[js "input_ids" := JRef 1%N]> empty) example_stream
           (Returned {| sequences := JRef 7%N; past_key_values := JRef 101%N |}));
    try reflexivity.
  intros g d [= <-]. reflexivity.
Defined.

Lemma final_rate_witness :
  exists st' r,
    _generate hi_messages JNull empty None None after_failed_call = (st', Returned r) /\
    result_tokensPerSecond r =
      (if num_truthy (performance_now (perf_reads (world after_failed_call)))
       then num_mul (num_div (num_of_nat (emitted_tokens example_stream))
                       (num_sub (performance_now
                                   (perf_reads (world after_failed_call)
                                    + stream_reads (num := Q) None (emitted_tokens example_stream)))
                                (performance_now (perf_reads (world after_failed_call)))))
                    (num_of_nat 1000)
       else num_of_nat 0).
Proof.
  destruct (_generate hi_messages JNull empty None None after_failed_call)
    as [st' [r|e]] eqn:H.
  - exists st', r. split; [reflexivity|].
    apply (final_rate hi_messages JNull empty None None after_failed_call st' r
             example_tokenizer flaky_model (<[js "input_ids" := JRef 1%N]> empty)
             example_stream
             (Returned {| sequences := JRef 7%N; past_key_values := JRef 101%N |}));
      try reflexivity; [exact H | simpl; lia].
  - exfalso.
    assert (X : match snd (_generate hi_messages JNull empty None None after_failed_call)
                with Returned _ => true | Threw _ => false end = true)
      by (vm_compute; reflexivity).
    rewrite H in X. discriminate X.
Defined.

Lemma interrupt_reaches_latest_call_witness :
  exists h1 h2 rc,
    currentStoppingCriteria
      (pipe (fst (_generate hi_messages JNull empty None None loaded_state))) = Some h1 /\
    currentStoppingCriteria
      (pipe (fst (_generate hi_messages JNull empty None None
                    (fst (_generate hi_messages JNull empty None None loaded_state))))) =
      Some h2 /\
    h1 <> h2 /\
    last (runtime_calls
            (world (fst (_generate hi_messages JNull empty None None
                           (fst (_generate hi_messages JNull empty None None
                                   loaded_state)))))) = Some rc /\
    generate_args rc !! js "stopping_criteria" = Some (JRef h2) /\
    interrupts
      (world (fst (interrupt
                     (fst (_generate hi_messages JNull empty None None
                             (fst (_generate hi_messages JNull empty None None
                                     loaded_state))))))) =
    interrupts
      (world (fst (_generate hi_messages JNull empty None None
                     (fst (_generate hi_messages JNull empty None None loaded_state))))) ++
      [h2].
Proof.
  apply (interrupt_reaches_latest_call hi_messages JNull empty None None
           hi_messages JNull empty None None loaded_state
           example_tokenizer flaky_model
           (<[js "input_ids" := JRef 1%N]> empty) (<[js "input_ids" := JRef 1%N]> empty));
    reflexivity.
Defined.

Lemma interrupt_without_generation_witness :
  interrupt loaded_state = (loaded_state, Returned tt) /\
  handle_interrupt loaded_state =
    ({| world := post (worker_message T_interrupt S_success
                         (DataNotice (js "Generation interrupted"))) (world loaded_state);
        pipe := pipe loaded_state |}, Returned tt).
Proof.
  apply (interrupt_without_generation loaded_state). reflexivity.
Defined.

Lemma single_call_uses_no_session_witness :
  exists c,
    coordinator_calls (world (fst (generateSingle hi_prompt None None seeded_state))) =
      coordinator_calls (world seeded_state) ++ [c] /\
    call_pastKeyValues c = JNull /\
    call_messages c = [] ++ [{| role := user; content := prompt hi_prompt |}].
Proof.
  apply (single_call_uses_no_session hi_prompt None None seeded_state). reflexivity.
Defined.

Lemma empty_session_id_witness :
  (exists rest,
     outbox (world (fst (handle_generateChat empty_id_options seeded_state))) =
       outbox (world seeded_state) ++
         worker_message T_generateChat S_start (DataSessionId (js "default")) :: rest) /\
  is_Some (sessionHistory (pipe (fst (handle_generateChat empty_id_options seeded_state)))
             !! []) /\
  sessionHistory (pipe (fst (handle_generateChat empty_id_options seeded_state)))
    !! js "default" =
    sessionHistory (pipe seeded_state) !! js "default".
Proof.
  apply (empty_session_id_start_event empty_id_options seeded_state); reflexivity.
Defined.

Lemma unknown_type_witness :
  exists c,
    listener {| event_type := js "frobnicate"; event_data := NoData |} = Some c /\
    snd (c loaded_state) = Returned tt /\
    pipe (fst (c loaded_state)) = pipe loaded_state /\
    outbox (world (fst (c loaded_state))) =
      outbox (world loaded_state) ++
        [worker_message T_error S_error
           (DataError (js "Unknown message type: " ++ js "frobnicate"))].
Proof.
  apply (unknown_type_gets_one_error (js "frobnicate") NoData loaded_state).
  vm_compute. reflexivity.
Defined.

Lemma invalid_model_witness :
  exists c,
    initialize unknown_model_options (Some loading_event) = Some c /\
    c fresh_state =
      ({| world := world fresh_state;
          pipe := set_config (Some (stored_settings unknown_model_options))
                    (pipe fresh_state) |},
       Threw invalid_model).
Proof.
  apply (invalid_model_rejected_after_settings unknown_model_options
           (Some loading_event) fresh_state).
  vm_compute. reflexivity.
Defined.

Lemma initialize_never_reloads_witness :
  exists c,
    initialize small_model_options (Some loading_event) = Some c /\
    c loaded_state =
      ({| world := world loaded_state;
          pipe := set_modelInfo (Some small_model)
                    (set_config (Some (stored_settings small_model_options))
                       (pipe loaded_state)) |},
       Returned (Some example_tokenizer, Some flaky_model)).
Proof.
  apply (initialize_never_reloads small_model_options (Some loading_event) loaded_state
           example_tokenizer flaky_model small_model); reflexivity.
Defined.

Lemma first_load_witness :
  exists c st' ds,
    initialize small_model_options (Some loading_event) = Some c /\
    c fresh_state = (st', Returned (Some example_tokenizer, Some flaky_model)) /\
    uninitialized (pipe st') = false /\
    modelInfo (pipe st') = Some small_model /\
    sessionHistory (pipe st') = sessionHistory (pipe fresh_state) /\
    Forall2 (passes_on small_model) ds (List.filter is_onnx example_progress) /\
    outbox (world st') = outbox (world fresh_state) ++ map loading_event ds.
Proof.
  apply (first_load_forwards_weight_progress small_model_options (Some loading_event)
           fresh_state small_model example_tokenizer flaky_model example_progress);
    reflexivity.
Defined.

Lemma failed_initialize_witness :
  exists c st' e,
    initialize (LD := offline_loaders) small_model_options (Some loading_event) = Some c /\
    c fresh_state = (st', Threw e) /\
    uninitialized (pipe st') = true /\
    sessionHistory (pipe st') = sessionHistory (pipe fresh_state) /\
    (forall co sc tc, generateChat co sc tc st' = (st', Threw not_initialized)) /\
    (forall so sc tc, generateSingle so sc tc st' = (st', Threw not_initialized)).
Proof.
  eexists _, _, _. split; [reflexivity|]. split; [reflexivity|].
  eapply (failed_initialize_stays_uninitialized (LD := offline_loaders)
            small_model_options (Some loading_event)); reflexivity.
Defined.

Lemma settings_after_initialize_witness :
  exists c,
    initialize small_model_options (Some loading_event) = Some c /\
    (forall k,
       chat_settings hi_options (fst (c fresh_state)) !! k =
         match default empty (generationConfig hi_options) !! k with
         | Some v => Some v
         | None =>
             match options_properties small_model_options !! k with
             | Some v => Some v
             | None => DEFAULT_GENERATION_CONFIG !! k
             end
         end) /\
    (default empty (generationConfig hi_options) !! js "model" = None ->
     forall inputs cache s cr,
       generate_arguments inputs cache (chat_settings hi_options (fst (c fresh_state))) s cr
         !! js "model" = Some (JStr (js "smollm2-360m"))).
Proof.
  eexists. split; [reflexivity|].
  apply (settings_after_initialize small_model_options (Some loading_event) _
           fresh_state hi_options).
  reflexivity.
Defined.
